(** * Verification of the RAG ingestion-and-retrieval pipeline

    A shallow embedding of the Python sources
    ([src/chunking.py], [src/clients.py], [src/document_processor.py],
    [src/web_scraper.py], [src/search.py], [src/mongodb_client.py],
    [src/mongodb_service.py]) and the properties of the specification
    checked against it.

    Python strings are sequences of Unicode code points, Python integers
    are unbounded: a [str] is a [list N] and an [int] is a [Z]. *)

From Stdlib Require Import ZArith NArith List String Ascii Bool Lia.
From Stdlib Require Import DecimalString DecimalNat.
From stdpp Require Import base list gmap.

Local Open Scope Z_scope.

(** ** Python strings *)

Module Py.

Abbreviation str := (list N) (only parsing).

Definition ord (a : ascii) : N := N_of_ascii a.

(** An ASCII literal as a Python string. *)
Fixpoint lit (s : string) : str :=
  match s with
  | EmptyString => []
  | String a r => ord a :: lit r
  end.

Definition len (s : str) : Z := Z.of_nat (length s).

Definition space : N := 32%N.
Definition dash : N := 45%N.
Definition underscore : N := 95%N.

(** [str.isspace] on one code point: the characters [str.strip()]
    removes. *)
Definition isspace (c : N) : bool :=
  ((9 <=? c) && (c <=? 13) || (28 <=? c) && (c <=? 32)
   || (c =? 133) || (c =? 160) || (c =? 5760)
   || (8192 <=? c) && (c <=? 8202)
   || (c =? 8232) || (c =? 8233) || (c =? 8239) || (c =? 8287)
   || (c =? 12288))%N.

(** Slice bounds: a negative index counts from the end, and every index
    is clipped to [0, n]. *)
Definition adjust (n i : Z) : Z :=
  if i <? 0 then Z.max 0 (i + n) else Z.min i n.

(** [s[i:j]] *)
Definition slice (s : str) (i j : Z) : str :=
  let a := adjust (len s) i in
  let b := adjust (len s) j in
  take (Z.to_nat (b - a)) (drop (Z.to_nat a) s).

(** Highest index of [c] in [s], if any. *)
Fixpoint last_index (c : N) (s : str) : option nat :=
  match s with
  | [] => None
  | x :: r =>
      match last_index c r with
      | Some k => Some (S k)
      | None => if (x =? c)%N then Some O else None
      end
  end.

(** [s.rfind(c, i, j)] for a one-character needle: the highest index of
    [c] within [s[i:j]], as an index of [s]; [-1] when there is none. *)
Definition rfind (s : str) (c : N) (i j : Z) : Z :=
  match last_index c (slice s i j) with
  | Some k => adjust (len s) i + Z.of_nat k
  | None => -1
  end.

(** [s.lstrip(chars)], [s.rstrip(chars)], [s.strip(chars)] with the
    character set given as a predicate. *)
Fixpoint lstrip_by (p : N -> bool) (s : str) : str :=
  match s with
  | [] => []
  | c :: r => if p c then lstrip_by p r else s
  end.

Fixpoint rstrip_by (p : N -> bool) (s : str) : str :=
  match s with
  | [] => []
  | c :: r =>
      match rstrip_by p r with
      | [] => if p c then [] else [c]
      | r' => c :: r'
      end
  end.

Definition strip_by (p : N -> bool) (s : str) : str :=
  rstrip_by p (lstrip_by p s).

(** [s.strip()] *)
Definition strip (s : str) : str := strip_by isspace s.

(** Truth value of a string: non-empty. *)
Definition truthy (s : str) : bool :=
  match s with [] => false | _ => true end.

(** [s.startswith(p)] *)
Fixpoint startswith (p s : str) : bool :=
  match p, s with
  | [], _ => true
  | _ :: _, [] => false
  | a :: p', b :: s' => (a =? b)%N && startswith p' s'
  end.

(** [s.replace(old, new)] for a non-empty [old]: occurrences are replaced
    from the left and do not overlap. [skip] counts the characters of a
    matched occurrence still to be dropped. *)
Fixpoint replace_from (old new : str) (skip : nat) (s : str) : str :=
  match s with
  | [] => []
  | c :: r =>
      match skip with
      | S k => replace_from old new k r
      | O =>
          if startswith old s
          then new ++ replace_from old new (Nat.pred (length old)) r
          else c :: replace_from old new O r
      end
  end.

Definition replace (old new s : str) : str := replace_from old new O s.

(** [str(n)] for a non-negative integer. *)
Definition str_of_nat (n : nat) : str :=
  lit (NilEmpty.string_of_uint (Nat.to_uint n)).

End Py.

Import Py.

(** ** [src/chunking.py] *)

(** Lines 20-25: the right edge of the window that starts at [start]. *)
Definition window_end (text : str) (chunk_size start : Z) : Z :=
  let e := start + chunk_size in
  if e <? len text then
    let last_space := rfind text space start e in
    if last_space >? start then last_space else e
  else e.

(** Lines 19-33: the [while] loop. One unit of [fuel] is one iteration;
    [None] means the fuel ran out before the loop left. *)
Fixpoint chunk_loop (fuel : nat) (text : str) (chunk_size overlap : Z)
    (start : Z) (chunks : list str) : option (list str) :=
  match fuel with
  | O => None
  | S fuel' =>
      if start <? len text then
        let e := window_end text chunk_size start in
        let chunk := strip (slice text start e) in
        let chunks := if truthy chunk then chunks ++ [chunk] else chunks in
        let start := e - overlap in
        if start >=? len text then Some chunks
        else chunk_loop fuel' text chunk_size overlap start chunks
      else Some chunks
  end.

Definition chunk_text (fuel : nat) (text : str) (chunk_size overlap : Z)
    : option (list str) :=
  if len text <=? chunk_size then Some [text]
  else chunk_loop fuel text chunk_size overlap 0 [].

(** The values the variable [start] has at the head of the iterations of
    the loop, as far as [fuel] reaches. *)
Fixpoint window_starts (fuel : nat) (text : str) (chunk_size overlap : Z)
    (start : Z) : list Z :=
  match fuel with
  | O => []
  | S fuel' =>
      if start <? len text then
        let e := window_end text chunk_size start in
        let next := e - overlap in
        start :: (if next >=? len text then []
                  else window_starts fuel' text chunk_size overlap next)
      else []
  end.

(** No leading character of [s] belongs to the set [p]. *)
Definition head_kept (p : N -> bool) (s : str) : Prop :=
  match s with [] => True | c :: _ => p c = false end.



(** The character at position [p], for [0 <= p]. *)
Definition char_at (text : str) (p : Z) : option N := text !! Z.to_nat p.

(** ** [src/clients.py] *)

(** [str.lower] on one code point. ASCII letters, and the two other code
    points whose lower-case form contains an ASCII letter (U+0130 and the
    Kelvin sign U+212A), are mapped as Python maps them. Every other code
    point is left where it is: its lower-case form consists of code
    points outside ASCII, and the only caller that matters,
    [sanitize_azure_name], turns either into the same ['-']. *)
Definition lower_char (c : N) : str :=
  if ((65 <=? c) && (c <=? 90))%N then [(c + 32)%N]
  else if (c =? 304)%N then [105%N; 775%N]
  else if (c =? 8490)%N then [107%N]
  else [c].

Definition lower (s : str) : str := concat (map lower_char s).

Definition is_dash (c : N) : bool := (c =? dash)%N.

(** The character class [[a-z0-9-]]. *)
Definition azure_char (c : N) : bool :=
  ((97 <=? c) && (c <=? 122) || (48 <=? c) && (c <=? 57) || (c =? 45))%N.

(** [re.sub(r'[^a-z0-9-]', '-', s)] *)
Definition sub_invalid (s : str) : str :=
  map (fun c => if azure_char c then c else dash) s.

(** [re.sub(r'-+', '-', s)]: of every maximal run of dashes one dash is
    left (a dash followed by a dash is dropped). *)
Fixpoint sub_dash_runs (s : str) : str :=
  match s with
  | [] => []
  | c :: r =>
      if is_dash c && match r with d :: _ => is_dash d | [] => false end
      then sub_dash_runs r
      else c :: sub_dash_runs r
  end.

(** Lines 36-50, with [name.lower()] as a parameter. *)
Definition sanitize_with (lower : str -> str) (name : str) : str :=
  let sanitized := lower name in
  let sanitized := replace (lit "_") (lit "-") sanitized in
  let sanitized := replace (lit " ") (lit "-") sanitized in
  let sanitized := sub_invalid sanitized in
  let sanitized := sub_dash_runs sanitized in
  let sanitized := strip_by is_dash sanitized in
  if len sanitized >? 128
  then rstrip_by is_dash (slice sanitized 0 128)
  else sanitized.

Definition sanitize_azure_name (name : str) : str := sanitize_with lower name.

(** No two dashes in a row. *)
Fixpoint no_dash_run (s : str) : Prop :=
  match s with
  | [] => True
  | c :: r =>
      (is_dash c = true -> head_kept is_dash r) /\ no_dash_run r
  end.

(** The shape of a sanitized name: only [[a-z0-9-]], no run of dashes, no
    dash at either end, at most 128 characters. *)
Definition azure_clean (s : str) : Prop :=
  Forall (fun c => azure_char c = true) s /\ no_dash_run s /\
  strip_by is_dash s = s /\ len s <= 128.

(** ** Index document ids *)

(** [src/document_processor.py], line 165:
    [f"{safe_org_id}_{filename.replace('.', '_')}_{i}"]. *)
Definition file_slug (filename : str) : str :=
  replace (lit ".") (lit "_") filename.

Definition file_doc_id (org_id filename : str) (i : nat) : str :=
  sanitize_azure_name org_id ++ lit "_" ++ file_slug filename
    ++ lit "_" ++ str_of_nat i.

(** [src/web_scraper.py], line 251:
    [f"{safe_org_id}_web_{url.replace('://', '_').replace('/', '_').replace('.', '_')}_{i}"]. *)
Definition url_slug (url : str) : str :=
  replace (lit ".") (lit "_")
    (replace (lit "/") (lit "_") (replace (lit "://") (lit "_") url)).

Definition web_doc_id (org_id url : str) (i : nat) : str :=
  sanitize_azure_name org_id ++ lit "_web_" ++ url_slug url
    ++ lit "_" ++ str_of_nat i.

(** ** Values, exceptions and the world the pipeline runs in *)

(** [str(z)] for an integer. *)
Definition str_of_Z (z : Z) : str :=
  if z <? 0 then lit "-" ++ str_of_nat (Z.to_nat (- z))
  else str_of_nat (Z.to_nat z).

Fixpoint str_eqb (a b : str) : bool :=
  match a, b with
  | [], [] => true
  | x :: a', y :: b' => (x =? y)%N && str_eqb a' b'
  | _, _ => false
  end.

(** The scalar values found in the dict-shaped documents: [None], a
    string, an integer, an instant ([datetime], kept as a clock tick). *)
Inductive value : Type :=
  | VNone
  | VStr (s : str)
  | VInt (z : Z)
  | VTime (t : nat).

(** A dict with string keys, in insertion order. *)
Abbreviation dict := (list (str * value)) (only parsing).

Fixpoint dict_get (d : dict) (key : str) : option value :=
  match d with
  | [] => None
  | (k, v) :: r => if str_eqb k key then Some v else dict_get r key
  end.

(** [d.get(key, default)] *)
Definition get_or (d : dict) (key : str) (default : value) : value :=
  match dict_get d key with Some v => v | None => default end.

(** [str(v)], as an f-string renders a value. *)
Definition py_str (v : value) : str :=
  match v with
  | VNone => lit "None"
  | VStr s => s
  | VInt z => str_of_Z z
  | VTime t => str_of_nat t
  end.

Definition value_is (v : value) (s : str) : bool :=
  match v with VStr s' => str_eqb s' s | _ => false end.

(** Exceptions: the class, as far as an [except] clause of the sources
    tells classes apart, and the message [str(e)]. All of them derive from
    [Exception]. *)
Inductive exn_class : Type :=
  | AttributeError | TypeError | ValueError | FileNotFoundError
  | ResourceExistsError | OtherError.

Record exn : Type := Exn { exn_cls : exn_class; exn_msg : str }.

Definition is_class (c : exn_class) (e : exn) : bool :=
  match c, exn_cls e with
  | AttributeError, AttributeError | TypeError, TypeError
  | ValueError, ValueError | FileNotFoundError, FileNotFoundError
  | ResourceExistsError, ResourceExistsError | OtherError, OtherError => true
  | _, _ => false
  end.

(** How a call ends: it returns, it raises, or it never returns. *)
Inductive outcome (A : Type) : Type :=
  | Ok (a : A)
  | Raise (e : exn)
  | Hang.
Arguments Ok {A} a.
Arguments Raise {A} e.
Arguments Hang {A}.

(** *** The vector index *)

Record IndexDoc : Type := {
  doc_id : str;
  doc_content : str;
  doc_filepath : str;
  doc_organization_id : str;
  doc_blob_name : str;
  doc_embedding : list Z
}.

Inductive upsert_mode : Type :=
  | MergeOrUpload       (* merge_or_upload_documents(documents) *)
  | UploadMergeMode     (* upload_documents(documents, merge_mode=...) *)
  | UploadBasic.        (* upload_documents(documents) *)

(** *** The record store *)

Abbreviation oid := nat (only parsing).

(** The dict built by [KnowledgeSource.create_document]. *)
Record KnowledgeSource : Type := {
  ks_createdAt : nat;
  ks_updatedAt : nat;
  ks_organizationId : str;
  ks_name : str;
  ks_description : option str;
  ks_type : str;
  ks_status : str;
  ks_configuration : list (str * value);
  ks_lastProcessedAt : option nat;
  ks_processStartedAt : option nat;
  ks_errorMessage : option str;
  ks_retryCount : Z;
  ks_documentsProcessed : Z;
  ks_documentsFailed : Z
}.

(** The dict built by [KnowledgeDocument.create_document]. *)
Record KnowledgeDocument : Type := {
  kd_createdAt : nat;
  kd_updatedAt : nat;
  kd_knowledgeSourceId : oid;
  kd_organizationId : str;
  kd_title : value;
  kd_content : value;
  kd_url : value;
  kd_metadata : list (str * value);
  kd_status : value;
  kd_processedAt : option nat;
  kd_errorMessage : option str
}.

(** The metadata dict handed to the record store for one chunk: the keys
    that [create_batch_documents] reads, each present or absent. *)
Record DocumentData : Type := {
  dd_title : option value;
  dd_content : option value;
  dd_url : option value;
  dd_metadata : option (list (str * value));
  dd_status : option value
}.

(** The [updates] dict of [update_knowledge_source_status]: a key is
    absent ([None]) or set. *)
Record SourceUpdates : Type := {
  u_status : str;
  u_updatedAt : nat;
  u_errorMessage : option (option str);
  u_documentsProcessed : option Z;
  u_documentsFailed : option Z;
  u_processStartedAt : option nat;
  u_lastProcessedAt : option nat
}.

(** *** Calls to the collaborators, in the order they are made *)

Inductive call : Type :=
  | CallListdir (path : str)
  | CallCreateContainer (name : str)
  | CallBlobUpload (container blob_name path : str)
  | CallEmbed (text : str)
  | CallUpsert (mode : upsert_mode) (index_name : str) (docs : list IndexDoc)
  | CallVectorSearch (index_name : str) (vector : list Z) (k : Z) (filter : str)
  | CallChat (system_prompt user_prompt : str)
  | CallInsertSource (doc : KnowledgeSource)
  | CallUpdateSource (id : oid) (org : option str) (updates : SourceUpdates)
  | CallInsertDocuments (docs : list KnowledgeDocument).

Definition is_index_write (c : call) : bool :=
  match c with CallUpsert _ _ _ => true | _ => false end.

Definition is_store_write (c : call) : bool :=
  match c with
  | CallInsertSource _ | CallUpdateSource _ _ _ | CallInsertDocuments _ => true
  | _ => false
  end.

Definition is_generation (c : call) : bool :=
  match c with CallChat _ _ => true | _ => false end.

(** *** The world *)

Record World : Type := {
  clock : nat;                                 (* datetime.utcnow() *)
  stdout : list str;                           (* lines printed *)
  calls : list call;                           (* collaborator calls *)
  indexes : gmap (list N) (gmap (list N) IndexDoc); (* index name, then key *)
  knowledge_sources : list (oid * KnowledgeSource);
  knowledge_documents : list (oid * KnowledgeDocument);
  next_oid : oid
}.

(** The collaborators. What each one answers may depend on the calls
    made so far. A write either goes through or raises. *)
Record Env : Type := {
  AZURE_SEARCH_SERVICE_ENDPOINT : option str;
  AZURE_SEARCH_ADMIN_KEY : option str;
  AZURE_OPENAI_ENDPOINT : option str;
  AZURE_OPENAI_API_KEY : option str;
  AZURE_STORAGE_CONNECTION_STRING : option str;
  AZURE_STORAGE_ACCOUNT_NAME : option str;
  os_listdir : list call -> str -> outcome (list str);
  os_isdir : str -> bool;
  os_path_exists : str -> bool;
  (* file_processors.extract_text_from_file: the text of a file, the empty
     string when extraction fails *)
  extract_text_from_file : str -> str;
  container_create : list call -> str -> option exn;
  blob_put : list call -> str -> str -> str -> option exn;
  embeddings_create : list call -> str -> outcome (list Z);
  index_upsert : list call -> upsert_mode -> str -> list IndexDoc -> option exn;
  index_search : list call -> str -> list Z -> Z -> str
                 -> outcome (list (list (str * value)));
  chat_create : list call -> str -> str -> outcome str;
  insert_one_fault : list call -> KnowledgeSource -> option exn;
  update_one_fault : list call -> oid -> option str -> SourceUpdates -> option exn;
  (* [Some (n, e)]: the first [n] documents are stored, then [e] is raised *)
  insert_many_fault : list call -> list KnowledgeDocument -> option (nat * exn);
  (* what the store keeps of a reading of [datetime.utcnow()]: a BSON
     datetime holds milliseconds, so two readings may be stored as the
     same time *)
  bson_datetime : nat -> nat
}.

(** *** Computations *)

Definition M (A : Type) : Type := World -> outcome A * World.

Definition ret {A} (a : A) : M A := fun w => (Ok a, w).

Definition bind {A B} (m : M A) (k : A -> M B) : M B :=
  fun w =>
    match m w with
    | (Ok a, w') => k a w'
    | (Raise e, w') => (Raise e, w')
    | (Hang, w') => (Hang, w')
    end.

Definition raise {A} (e : exn) : M A := fun w => (Raise e, w).

(** [try: m  except <those e with handles e = true> as e: handler e] *)
Definition try_except {A} (m : M A) (handles : exn -> bool)
    (handler : exn -> M A) : M A :=
  fun w =>
    match m w with
    | (Raise e, w') => if handles e then handler e w' else (Raise e, w')
    | r => r
    end.

Definition any_exception (e : exn) : bool := true.

Declare Scope py_scope.
Delimit Scope py_scope with py.
Notation "x <- m ;; k" := (bind m (fun x => k))
  (at level 100, m at next level, right associativity) : py_scope.
Notation "m ;; k" := (bind m (fun _ => k))
  (at level 100, right associativity) : py_scope.
Local Open Scope py_scope.

Definition print (line : str) : M unit :=
  fun w => (Ok tt,
            {| clock := clock w; stdout := stdout w ++ [line];
               calls := calls w; indexes := indexes w;
               knowledge_sources := knowledge_sources w;
               knowledge_documents := knowledge_documents w;
               next_oid := next_oid w |}).

(** [datetime.utcnow()]: reads the clock, which moves on. *)
Definition utcnow : M nat :=
  fun w => (Ok (clock w),
            {| clock := S (clock w); stdout := stdout w;
               calls := calls w; indexes := indexes w;
               knowledge_sources := knowledge_sources w;
               knowledge_documents := knowledge_documents w;
               next_oid := next_oid w |}).

Definition log_call (c : call) : M unit :=
  fun w => (Ok tt,
            {| clock := clock w; stdout := stdout w;
               calls := calls w ++ [c]; indexes := indexes w;
               knowledge_sources := knowledge_sources w;
               knowledge_documents := knowledge_documents w;
               next_oid := next_oid w |}).

(** The calls made so far. *)
Definition history : M (list call) := fun w => (Ok (calls w), w).

Definition lift {A} (o : outcome A) : M A := fun w => (o, w).

Definition modify (f : World -> World) : M unit := fun w => (Ok tt, f w).

Definition set_indexes (ix : gmap (list N) (gmap (list N) IndexDoc)) (w : World)
    : World :=
  {| clock := clock w; stdout := stdout w; calls := calls w; indexes := ix;
     knowledge_sources := knowledge_sources w;
     knowledge_documents := knowledge_documents w; next_oid := next_oid w |}.

Definition set_sources (l : list (oid * KnowledgeSource)) (n : oid) (w : World)
    : World :=
  {| clock := clock w; stdout := stdout w; calls := calls w;
     indexes := indexes w; knowledge_sources := l;
     knowledge_documents := knowledge_documents w; next_oid := n |}.

Definition set_documents (l : list (oid * KnowledgeDocument)) (n : oid)
    (w : World) : World :=
  {| clock := clock w; stdout := stdout w; calls := calls w;
     indexes := indexes w; knowledge_sources := knowledge_sources w;
     knowledge_documents := l; next_oid := n |}.

(** [not x] for an optional setting: unset or empty. *)
Definition unset (o : option (list N)) : bool :=
  match o with Some (_ :: _) => false | _ => true end.

Definition nl : list N := [10%N].

(** [sep.join(parts)] *)
Fixpoint join (sep : list N) (parts : list (list N)) : list N :=
  match parts with
  | [] => []
  | [x] => x
  | x :: r => x ++ sep ++ join sep r
  end.

(** *** [os.path], POSIX flavour *)

Definition slash : N := 47%N.
Definition dot : N := 46%N.

(** [s[i:]] *)
Definition slice_from (s : list N) (i : Z) : list N := slice s i (len s).

(** [os.path.basename(p)]: [p[p.rfind('/') + 1:]] *)
Definition basename (p : list N) : list N :=
  slice_from p (rfind p slash 0 (len p) + 1).

(** [os.path.join(a, b)] *)
Definition path_join (a b : list N) : list N :=
  if startswith [slash] b then b
  else match rev a with
       | [] => b
       | c :: _ => if (c =? slash)%N then a ++ b else a ++ [slash] ++ b
       end.

(** [os.path.splitext(p)[1]]: from the last dot of the last component on,
    unless that component has nothing but dots before it. *)
Definition splitext_ext (p : list N) : list N :=
  let sepIndex := rfind p slash 0 (len p) in
  let dotIndex := rfind p dot 0 (len p) in
  if (dotIndex >? sepIndex)
     && existsb (fun c => negb (c =? dot)%N) (slice p (sepIndex + 1) dotIndex)
  then slice_from p dotIndex
  else [].

(** ** [src/mongodb_client.py] and [src/mongodb_service.py] *)

Section RecordStore.

Variable env : Env.

(** [KnowledgeSource.create_document], as the service calls it (no extra
    keyword arguments, [status] left to its default ["PENDING"]). *)
Definition KnowledgeSource_create_document (organization_id name : str)
    (description : option str) (source_type : str) (status : str)
    (configuration : option (list (str * value))) : M KnowledgeSource :=
  now <- utcnow ;;
  ret {| ks_createdAt := now;
         ks_updatedAt := now;
         ks_organizationId := organization_id;
         ks_name := name;
         ks_description := description;
         ks_type := source_type;
         ks_status := status;
         ks_configuration := match configuration with Some c => c | None => [] end;
         ks_lastProcessedAt := None;
         ks_processStartedAt := None;
         ks_errorMessage := None;
         ks_retryCount := 0;
         ks_documentsProcessed := 0;
         ks_documentsFailed := 0 |}.

(** [KnowledgeDocument.create_document] *)
Definition KnowledgeDocument_create_document (knowledge_source_id : oid)
    (organization_id : str) (title content url : value)
    (metadata : option (list (str * value))) (status : value)
    : M KnowledgeDocument :=
  now <- utcnow ;;
  ret {| kd_createdAt := now;
         kd_updatedAt := now;
         kd_knowledgeSourceId := knowledge_source_id;
         kd_organizationId := organization_id;
         kd_title := title;
         kd_content := content;
         kd_url := url;
         kd_metadata := match metadata with Some m => m | None => [] end;
         kd_status := status;
         kd_processedAt := if value_is status (lit "COMPLETED") then Some now else None;
         kd_errorMessage := None |}.

Definition or_default (o : option value) (default : value) : value :=
  match o with Some v => v | None => default end.

(** [KnowledgeDocument.create_batch_documents] *)
Fixpoint KnowledgeDocument_create_batch_documents (knowledge_source_id : oid)
    (organization_id : str) (documents_data : list DocumentData)
    : M (list KnowledgeDocument) :=
  match documents_data with
  | [] => ret []
  | doc :: rest =>
      d <- KnowledgeDocument_create_document knowledge_source_id organization_id
             (or_default (dd_title doc) (VStr (lit "Untitled Document")))
             (or_default (dd_content doc) (VStr []))
             (or_default (dd_url doc) VNone)
             (match dd_metadata doc with Some m => Some m | None => Some [] end)
             (or_default (dd_status doc) (VStr (lit "COMPLETED"))) ;;
      ds <- KnowledgeDocument_create_batch_documents knowledge_source_id
              organization_id rest ;;
      ret (d :: ds)
  end.

(** *** The collections *)

(** [collection.insert_one(document)] on [knowledge_sources]: the store
    assigns the [_id]. *)
Definition sources_insert_one (document : KnowledgeSource) : M oid :=
  h <- history ;;
  log_call (CallInsertSource document) ;;
  match insert_one_fault env h document with
  | Some e => raise e
  | None =>
      fun w =>
        (Ok (next_oid w),
         set_sources (knowledge_sources w ++ [(next_oid w, document)])
           (S (next_oid w)) w)
  end.

(** [{"$set": updates}] on one source. *)
Definition apply_updates (u : SourceUpdates) (s : KnowledgeSource)
    : KnowledgeSource :=
  {| ks_createdAt := ks_createdAt s;
     ks_updatedAt := u_updatedAt u;
     ks_organizationId := ks_organizationId s;
     ks_name := ks_name s;
     ks_description := ks_description s;
     ks_type := ks_type s;
     ks_status := u_status u;
     ks_configuration := ks_configuration s;
     ks_lastProcessedAt :=
       match u_lastProcessedAt u with Some t => Some t | None => ks_lastProcessedAt s end;
     ks_processStartedAt :=
       match u_processStartedAt u with Some t => Some t | None => ks_processStartedAt s end;
     ks_errorMessage :=
       match u_errorMessage u with Some m => m | None => ks_errorMessage s end;
     ks_retryCount := ks_retryCount s;
     ks_documentsProcessed :=
       match u_documentsProcessed u with Some n => n | None => ks_documentsProcessed s end;
     ks_documentsFailed :=
       match u_documentsFailed u with Some n => n | None => ks_documentsFailed s end |}.

(** The filter [{"_id": id}] with, when given, ["organizationId": org]. *)
Definition source_matches (id : oid) (org : option str)
    (entry : oid * KnowledgeSource) : bool :=
  Nat.eqb (fst entry) id &&
  match org with
  | Some o => str_eqb (ks_organizationId (snd entry)) o
  | None => true
  end.

(** The first source the filter matches is updated; the flag tells
    whether there was one. *)
Fixpoint update_first (id : oid) (org : option str) (u : SourceUpdates)
    (l : list (oid * KnowledgeSource)) : list (oid * KnowledgeSource) * bool :=
  match l with
  | [] => ([], false)
  | entry :: r =>
      if source_matches id org entry
      then ((fst entry, apply_updates u (snd entry)) :: r, true)
      else let (r', found) := update_first id org u r in (entry :: r', found)
  end.

(** Two readings of the clock that the store keeps as the same time. *)
Definition same_time (a b : nat) : bool :=
  Nat.eqb (bson_datetime env a) (bson_datetime env b).

(** Whether [{"$set": updates}] leaves source [s] as the store holds it:
    every key of [updates] already has the value given. *)
Definition unchanged (u : SourceUpdates) (s : KnowledgeSource) : bool :=
  str_eqb (ks_status s) (u_status u)
  && same_time (ks_updatedAt s) (u_updatedAt u)
  && match u_errorMessage u with
     | Some (Some m) =>
         match ks_errorMessage s with Some m' => str_eqb m' m | None => false end
     | Some None =>
         match ks_errorMessage s with Some _ => false | None => true end
     | None => true
     end
  && match u_documentsProcessed u with
     | Some n => Z.eqb (ks_documentsProcessed s) n
     | None => true
     end
  && match u_documentsFailed u with
     | Some n => Z.eqb (ks_documentsFailed s) n
     | None => true
     end
  && match u_processStartedAt u with
     | Some t =>
         match ks_processStartedAt s with Some t' => same_time t' t | None => false end
     | None => true
     end
  && match u_lastProcessedAt u with
     | Some t =>
         match ks_lastProcessedAt s with Some t' => same_time t' t | None => false end
     | None => true
     end.

(** [result.modified_count] of an [update_one]: the first source the
    filter matches counts when the update changes it. *)
Fixpoint modified_count (id : oid) (org : option str) (u : SourceUpdates)
    (l : list (oid * KnowledgeSource)) : nat :=
  match l with
  | [] => 0
  | entry :: r =>
      if source_matches id org entry
      then (if unchanged u (snd entry) then 0 else 1)
      else modified_count id org u r
  end.

(** [collection.update_one(filter, {"$set": updates})] on
    [knowledge_sources]; returns [result.modified_count > 0]. *)
Definition sources_update_one (id : oid) (org : option str) (u : SourceUpdates)
    : M bool :=
  h <- history ;;
  log_call (CallUpdateSource id org u) ;;
  match update_one_fault env h id org u with
  | Some e => raise e
  | None =>
      fun w =>
        let (l, _) := update_first id org u (knowledge_sources w) in
        (Ok (0 <? modified_count id org u (knowledge_sources w))%nat,
         set_sources l (next_oid w) w)
  end.

(** Storing documents under consecutive fresh ids. *)
Definition store_documents (docs : list KnowledgeDocument) : M (list oid) :=
  fun w =>
    let ids := seq (next_oid w) (length docs) in
    (Ok ids,
     set_documents (knowledge_documents w ++ combine ids docs)
       (next_oid w + length docs)%nat w).

(** [collection.insert_many(documents)] on [knowledge_documents]. *)
Definition documents_insert_many (docs : list KnowledgeDocument) : M (list oid) :=
  h <- history ;;
  log_call (CallInsertDocuments docs) ;;
  match insert_many_fault env h docs with
  | Some (n, e) => store_documents (take n docs) ;; raise e
  | None => store_documents docs
  end.

(** *** [KnowledgeSourceService] *)

Definition create_knowledge_source (organization_id name : str)
    (description : option str) (source_type : str)
    (configuration : option (list (str * value))) : M oid :=
  document <- KnowledgeSource_create_document organization_id name description
                source_type (lit "PENDING") configuration ;;
  inserted_id <- sources_insert_one document ;;
  print (lit "Created knowledge source: " ++ str_of_nat inserted_id) ;;
  ret inserted_id.

Definition update_knowledge_source_status (source_id : oid) (status : str)
    (organization_id : option str) (error_message : option str)
    (documents_processed documents_failed : option Z) : M bool :=
  now <- utcnow ;;
  let updates :=
    {| u_status := status;
       u_updatedAt := now;
       u_errorMessage :=
         match error_message with Some m => Some (Some m) | None => None end;
       u_documentsProcessed := documents_processed;
       u_documentsFailed := documents_failed;
       u_processStartedAt := None;
       u_lastProcessedAt := None |} in
  updates <-
    (if str_eqb status (lit "PROCESSING") then
       t <- utcnow ;;
       ret {| u_status := u_status updates;
              u_updatedAt := u_updatedAt updates;
              u_errorMessage := u_errorMessage updates;
              u_documentsProcessed := u_documentsProcessed updates;
              u_documentsFailed := u_documentsFailed updates;
              u_processStartedAt := Some t;
              u_lastProcessedAt := None |}
     else if str_eqb status (lit "COMPLETED") then
       t <- utcnow ;;
       ret {| u_status := u_status updates;
              u_updatedAt := u_updatedAt updates;
              u_errorMessage := Some None;
              u_documentsProcessed := u_documentsProcessed updates;
              u_documentsFailed := u_documentsFailed updates;
              u_processStartedAt := None;
              u_lastProcessedAt := Some t |}
     else ret updates) ;;
  let filter_org :=
    match organization_id with
    | Some o => if truthy o then Some o else None
    | None => None
    end in
  sources_update_one source_id filter_org updates.

(** *** [KnowledgeDocumentService] *)

Definition create_documents_batch (knowledge_source_id : oid)
    (organization_id : str) (documents_data : list DocumentData)
    : M (list oid) :=
  documents <- KnowledgeDocument_create_batch_documents knowledge_source_id
                 organization_id documents_data ;;
  documents_insert_many documents.

(** *** [KnowledgeService.process_file_batch] *)

Definition process_file_batch (organization_id source_name : str)
    (file_data : list DocumentData) (description : option str)
    (configuration : option (list (str * value))) : M (oid * list oid) :=
  source_id <- create_knowledge_source organization_id source_name description
                 (lit "DOCUMENT") configuration ;;
  update_knowledge_source_status source_id (lit "PROCESSING")
    (Some organization_id) None None None ;;
  try_except
    (document_ids <- create_documents_batch source_id organization_id file_data ;;
     update_knowledge_source_status source_id (lit "COMPLETED")
       (Some organization_id) None (Some (Z.of_nat (length document_ids)))
       (Some 0) ;;
     print (lit "Successfully processed " ++ str_of_nat (length document_ids)
            ++ lit " documents for source: " ++ str_of_nat source_id) ;;
     ret (source_id, document_ids))
    any_exception
    (fun e =>
       update_knowledge_source_status source_id (lit "FAILED")
         (Some organization_id) (Some (exn_msg e)) (Some 0)
         (Some (Z.of_nat (length file_data))) ;;
       raise e).

End RecordStore.

(** ** Clients and embeddings ([src/clients.py], [src/embeddings.py]) *)

Section Pipeline.

Variable env : Env.

(** [get_search_client(org_id)]: the client of the tenant's index, known
    by the index name. *)
Definition get_search_client (org_id : str) : M str :=
  if unset (AZURE_SEARCH_SERVICE_ENDPOINT env) then
    raise (Exn ValueError (lit "AZURE_SEARCH_SERVICE_ENDPOINT must be set"))
  else
    let safe_org_id := sanitize_azure_name org_id in
    if unset (AZURE_SEARCH_ADMIN_KEY env) then
      raise (Exn ValueError (lit "AZURE_SEARCH_ADMIN_KEY must be set"))
    else ret safe_org_id.

Definition get_openai_client : M unit :=
  if unset (AZURE_OPENAI_API_KEY env) || unset (AZURE_OPENAI_ENDPOINT env) then
    raise (Exn ValueError
             (lit "AZURE_OPENAI_API_KEY and AZURE_OPENAI_ENDPOINT must be set"))
  else ret tt.

Definition get_blob_service_client : M unit :=
  if negb (unset (AZURE_STORAGE_CONNECTION_STRING env)) then ret tt
  else if negb (unset (AZURE_STORAGE_ACCOUNT_NAME env)) then ret tt
  else raise (Exn ValueError
                (lit "Either AZURE_STORAGE_CONNECTION_STRING or AZURE_STORAGE_ACCOUNT_NAME must be set")).

(** [get_container_client(org_id)]: the container, known by its name. *)
Definition get_container_client (org_id : str) : M str :=
  get_blob_service_client ;;
  let container_name := sanitize_azure_name org_id in
  try_except
    (h <- history ;;
     log_call (CallCreateContainer container_name) ;;
     match container_create env h container_name with
     | Some e => raise e
     | None =>
         print (lit "Created container '" ++ container_name
                ++ lit "' for organization '" ++ org_id ++ lit "'")
     end)
    (is_class ResourceExistsError)
    (fun _ =>
       print (lit "Using existing container '" ++ container_name
              ++ lit "' for organization '" ++ org_id ++ lit "'")) ;;
  ret container_name.

(** [generate_embeddings(text)] *)
Definition generate_embeddings (text : str) : M (list Z) :=
  get_openai_client ;;
  h <- history ;;
  log_call (CallEmbed text) ;;
  lift (embeddings_create env h text).

(** ** [src/search.py] *)

Definition perform_vector_search (org_id query : str) (k : Z)
    : M (list (list (str * value))) :=
  org_search_client <- get_search_client org_id ;;
  vector <- generate_embeddings query ;;
  let filter := lit "organization_id eq '" ++ org_id ++ lit "'" in
  h <- history ;;
  log_call (CallVectorSearch org_search_client vector k filter) ;;
  lift (index_search env h org_search_client vector k filter).

Definition system_prompt_for (org_id : str) : str :=
  nl ++ lit "    You are an intelligent assistant for organization '" ++ org_id
  ++ lit "'. " ++ nl
  ++ lit "    You answer user questions based on the context provided from the organization's documents."
  ++ nl
  ++ lit "    If the information is not in the context, say that you cannot answer based on the available documents."
  ++ nl
  ++ lit "    Always be helpful and provide accurate information based on the organization's data."
  ++ nl ++ lit "    ".

Definition context_part (result : list (str * value)) : str :=
  let filepath := get_or result (lit "filepath") (VStr (lit "Unknown file")) in
  let content := get_or result (lit "content") (VStr (lit "No content available")) in
  lit "From " ++ py_str filepath ++ lit ":" ++ nl ++ py_str content.

Definition get_rag_response (org_id query : str)
    (search_results : list (list (str * value))) : M str :=
  let system_prompt := system_prompt_for org_id in
  let context_parts := map context_part search_results in
  let context := join (nl ++ nl) context_parts in
  let user_prompt :=
    lit "Context from organization '" ++ org_id ++ lit "' documents:" ++ nl
    ++ context ++ nl ++ nl ++ lit "Question:" ++ nl ++ query in
  get_openai_client ;;
  h <- history ;;
  log_call (CallChat system_prompt user_prompt) ;;
  lift (chat_create env h system_prompt user_prompt).

(** The answer given when the search finds nothing. *)
Definition no_information (org_id : str) : str :=
  lit "I couldn't find any relevant information in organization '" ++ org_id
  ++ lit "' documents.".

Definition search_documents (org_id query : str) (k : Z) : M str :=
  search_results <- perform_vector_search org_id query k ;;
  match search_results with
  | [] => ret (no_information org_id)
  | _ => get_rag_response org_id query search_results
  end.

(** ** [src/document_processor.py] *)

Definition SUPPORTED_EXTENSIONS : list str :=
  [lit ".txt"; lit ".pdf"; lit ".docx"; lit ".csv"; lit ".pptx"; lit ".xlsx";
   lit ".xls"].

Definition supported (ext : str) : bool :=
  existsb (str_eqb ext) SUPPORTED_EXTENSIONS.

(** [upload_file_to_org_blob(org_id, file_path)], [blob_name] left to its
    default. *)
Definition upload_file_to_org_blob (org_id file_path : str) : M str :=
  if negb (os_path_exists env file_path) then
    raise (Exn FileNotFoundError (lit "File not found: " ++ file_path))
  else
    let blob_name := basename file_path in
    container <- get_container_client org_id ;;
    h <- history ;;
    log_call (CallBlobUpload container blob_name file_path) ;;
    match blob_put env h container blob_name file_path with
    | Some e => raise e
    | None =>
        print (lit "Uploaded '" ++ file_path ++ lit "' as '" ++ blob_name
               ++ lit "' to organization '" ++ org_id ++ lit "' container") ;;
        ret blob_name
    end.

(** Lines 164-172: the index document of chunk [i]. *)
Definition index_document (org_id filename blob_name chunk : str) (i : nat)
    (embedding : list Z) : IndexDoc :=
  {| doc_id := file_doc_id org_id filename i;
     doc_content := chunk;
     doc_filepath := filename;
     doc_organization_id := org_id;
     doc_blob_name := blob_name;
     doc_embedding := embedding |}.

(** Lines 175-191: the metadata of chunk [i]. *)
Definition mongo_document (org_id filename filepath blob_name file_extension
    chunk : str) (i total_chunks : nat) (now : nat) : DocumentData :=
  {| dd_title := Some (VStr (filename ++ lit " - Chunk " ++ str_of_nat (i + 1)));
     dd_content := Some (VStr chunk);
     dd_url := Some VNone;
     dd_metadata :=
       Some [(lit "filename", VStr filename);
             (lit "filepath", VStr filepath);
             (lit "blob_name", VStr blob_name);
             (lit "chunk_index", VInt (Z.of_nat i));
             (lit "total_chunks", VInt (Z.of_nat total_chunks));
             (lit "file_extension", VStr file_extension);
             (lit "processed_at", VTime now);
             (lit "source", VStr (lit "local_file"));
             (lit "chunk_size", VInt (len chunk));
             (lit "organization_id", VStr org_id)];
     dd_status := None |}.

(** Lines 161-192: the loop over [enumerate(chunks)], from ordinal [i]
    on. *)
Fixpoint process_chunks (org_id filename filepath blob_name file_extension : str)
    (total_chunks : nat) (i : nat) (chunks : list str)
    (documents : list IndexDoc) (mongo_documents : list DocumentData)
    : M (list IndexDoc * list DocumentData) :=
  match chunks with
  | [] => ret (documents, mongo_documents)
  | chunk :: rest =>
      if truthy (strip chunk) then
        embedding <- generate_embeddings chunk ;;
        let document := index_document org_id filename blob_name chunk i embedding in
        now <- utcnow ;;
        let mongo_doc :=
          mongo_document org_id filename filepath blob_name file_extension
            chunk i total_chunks now in
        process_chunks org_id filename filepath blob_name file_extension
          total_chunks (S i) rest (documents ++ [document])
          (mongo_documents ++ [mongo_doc])
      else
        process_chunks org_id filename filepath blob_name file_extension
          total_chunks (S i) rest documents mongo_documents
  end.

(** What the loop over the directory accumulates. *)
Record Batch : Type := {
  documents : list IndexDoc;
  mongo_documents : list DocumentData;
  processed_files : nat
}.

(** Lines 140-194: the loop over [os.listdir(directory_path)]. [fuel]
    bounds the iterations of each [chunk_text] call; a call that exhausts
    it has not returned. *)
Fixpoint process_files (fuel : nat) (org_id directory_path : str)
    (chunk_size overlap : Z) (filenames : list str) (acc : Batch) : M Batch :=
  match filenames with
  | [] => ret acc
  | filename :: rest =>
      let filepath := path_join directory_path filename in
      let file_extension := lower (splitext_ext filename) in
      if os_isdir env filepath || negb (supported file_extension) then
        process_files fuel org_id directory_path chunk_size overlap rest acc
      else
        print (lit "Processing file: " ++ filename ++ lit " (" ++ file_extension
               ++ lit ")") ;;
        blob_name <- upload_file_to_org_blob org_id filepath ;;
        let content := extract_text_from_file env filepath in
        if negb (truthy (strip content)) then
          print (lit "Warning: No content extracted from " ++ filename) ;;
          process_files fuel org_id directory_path chunk_size overlap rest acc
        else
          chunks <- lift (match chunk_text fuel content chunk_size overlap with
                          | Some chunks => Ok chunks
                          | None => Hang
                          end) ;;
          print (lit "File '" ++ filename ++ lit "' split into "
                 ++ str_of_nat (length chunks) ++ lit " chunks") ;;
          r <- process_chunks org_id filename filepath blob_name file_extension
                 (length chunks) 0 chunks (documents acc) (mongo_documents acc) ;;
          process_files fuel org_id directory_path chunk_size overlap rest
            {| documents := fst r; mongo_documents := snd r;
               processed_files := S (processed_files acc) |}
  end.

(** The vector index after [documents] were written to [index_name]:
    each document is stored under its id, replacing what was there. *)
Definition upsert_all (index_name : str) (docs : list IndexDoc)
    (ix : gmap (list N) (gmap (list N) IndexDoc))
    : gmap (list N) (gmap (list N) IndexDoc) :=
  <[index_name :=
      fold_left (fun m d => <[doc_id d := d]> m) docs
        (default ∅ (ix !! index_name))]> ix.

(** One write request to the vector index. *)
Definition index_write (mode : upsert_mode) (index_name : str)
    (docs : list IndexDoc) : M unit :=
  h <- history ;;
  log_call (CallUpsert mode index_name docs) ;;
  match index_upsert env h mode index_name docs with
  | Some e => raise e
  | None => modify (fun w => set_indexes (upsert_all index_name docs (indexes w)) w)
  end.

(** Lines 199-212. *)
Definition upload_to_search (org_id org_search_client : str)
    (docs : list IndexDoc) : M unit :=
  let uploaded :=
    print (lit "Uploaded " ++ str_of_nat (length docs)
           ++ lit " documents to organization '" ++ org_id
           ++ lit "' search index.") in
  match docs with
  | _ :: _ =>
      try_except
        (index_write MergeOrUpload org_search_client docs ;; uploaded)
        (is_class AttributeError)
        (fun _ =>
           try_except
             (index_write UploadMergeMode org_search_client docs ;; uploaded)
             (is_class TypeError)
             (fun _ =>
                print (lit "Warning: Using basic upload - may create duplicates on re-runs") ;;
                index_write UploadBasic org_search_client docs ;;
                uploaded))
  | [] => print (lit "No new documents to upload to Azure Search.")
  end.

(** Lines 217-224. *)
Definition batch_configuration (directory_path : str) (chunk_size overlap : Z)
    (batch : Batch) : list (str * value) :=
  [(lit "directory_path", VStr directory_path);
   (lit "chunk_size", VInt chunk_size);
   (lit "overlap", VInt overlap);
   (lit "processed_files", VInt (Z.of_nat (processed_files batch)));
   (lit "total_chunks", VInt (Z.of_nat (length (mongo_documents batch))));
   (lit "processing_type", VStr (lit "batch_directory"))].

(** The two lines printed when the record store fails. *)
Definition metadata_failure_lines (e : exn) : list str :=
  [lit "Error storing metadata in MongoDB: " ++ exn_msg e;
   lit "Azure Search documents uploaded successfully, but MongoDB storage failed"].

(** Lines 215-241. *)
Definition store_metadata (org_id directory_path source_name
    source_description : str) (chunk_size overlap : Z) (batch : Batch) : M unit :=
  match mongo_documents batch with
  | _ :: _ =>
      try_except
        (let configuration :=
           batch_configuration directory_path chunk_size overlap batch in
         r <- process_file_batch env org_id source_name (mongo_documents batch)
                (Some source_description) (Some configuration) ;;
         print (lit "Stored metadata for " ++ str_of_nat (length (snd r))
                ++ lit " documents in MongoDB") ;;
         print (lit "Knowledge source ID: " ++ str_of_nat (fst r)))
        any_exception
        (fun e =>
           print (lit "Error storing metadata in MongoDB: " ++ exn_msg e) ;;
           print (lit "Azure Search documents uploaded successfully, but MongoDB storage failed"))
  | [] => print (lit "No documents to store in MongoDB.")
  end.

(** Lines 126-133: the two opening lines and the search client. *)
Definition open_run (org_id directory_path : str) (chunk_size overlap : Z)
    : M str :=
  print (lit "Processing files for organization '" ++ org_id
         ++ lit "' in directory: " ++ directory_path) ;;
  print (lit "Using chunk size: " ++ str_of_Z chunk_size
         ++ lit " characters, overlap: " ++ str_of_Z overlap
         ++ lit " characters") ;;
  get_search_client org_id.

(** Lines 140-196: the listing, the loop over it, and the count printed
    after it. *)
Definition read_directory (fuel : nat) (org_id directory_path : str)
    (chunk_size overlap : Z) : M Batch :=
  h <- history ;;
  log_call (CallListdir directory_path) ;;
  filenames <- lift (os_listdir env h directory_path) ;;
  batch <- process_files fuel org_id directory_path chunk_size overlap
             filenames
             {| documents := []; mongo_documents := []; processed_files := 0 |} ;;
  print (lit "Processed " ++ str_of_nat (processed_files batch)
         ++ lit " files for organization '" ++ org_id ++ lit "'") ;;
  ret batch.

Definition source_name_of (directory_path : str) : str :=
  lit "Batch Processing - " ++ basename directory_path.

Definition source_description_of (directory_path : str) : str :=
  lit "Files processed from directory: " ++ directory_path.

(** [process_and_upload_org_files(org_id, directory_path, chunk_size,
    overlap)]. The function has no [return] statement: when it returns,
    it returns Python's [None], here the [None] of an optional list of
    document ids. *)
Definition process_and_upload_org_files (fuel : nat) (org_id directory_path : str)
    (chunk_size overlap : Z) : M (option (list oid)) :=
  org_search_client <- open_run org_id directory_path chunk_size overlap ;;
  let source_name := source_name_of directory_path in
  let source_description := source_description_of directory_path in
  try_except
    (batch <- read_directory fuel org_id directory_path chunk_size overlap ;;
     upload_to_search org_id org_search_client (documents batch) ;;
     store_metadata org_id directory_path source_name source_description
       chunk_size overlap batch ;;
     ret None)
    any_exception
    (fun e =>
       print (lit "Error during file processing: " ++ exn_msg e) ;;
       raise e).

End Pipeline.


(** ** Chunk ordinals *)

(** [enumerate(chunks)], counting from [i]: position [k] of the list is
    paired with [i + k]. *)
Definition enumerate {A : Type} (i : nat) (l : list A) : list (nat * A) :=
  combine (seq i (length l)) l.

(** The chunks the loops keep ([if chunk.strip():]), with their
    ordinals. *)
Definition kept (l : list (nat * str)) : list (nat * str) :=
  List.filter (fun ic => truthy (strip (snd ic))) l.

Section WebLoop.

Variable env : Env.



End WebLoop.
(** ** Sample environments *)

(** A world with nothing in it. *)
Definition empty_world : World :=
  {| clock := 0%nat; stdout := []; calls := []; indexes := ∅;
     knowledge_sources := []; knowledge_documents := [];
     next_oid := 0%nat |}.

(** A directory [docs] holding the file [a.txt] whose text is ["The sky is
    blue."]; every collaborator answers, the index finds nothing, and
    whether the record store takes the documents of a batch is decided by
    [store_up]. *)
Definition sample_env (store_up : bool) : Env :=
  {| AZURE_SEARCH_SERVICE_ENDPOINT := Some (lit "https://search");
     AZURE_SEARCH_ADMIN_KEY := Some (lit "key");
     AZURE_OPENAI_ENDPOINT := Some (lit "https://openai");
     AZURE_OPENAI_API_KEY := Some (lit "key");
     AZURE_STORAGE_CONNECTION_STRING := Some (lit "conn");
     AZURE_STORAGE_ACCOUNT_NAME := None;
     os_listdir := fun _ _ => Ok [lit "a.txt"];
     os_isdir := fun _ => false;
     os_path_exists := fun _ => true;
     extract_text_from_file := fun _ => lit "The sky is blue.";
     container_create := fun _ _ => None;
     blob_put := fun _ _ _ _ => None;
     embeddings_create := fun _ _ => Ok [1; 2; 3];
     index_upsert := fun _ _ _ _ => None;
     index_search := fun _ _ _ _ _ => Ok [];
     chat_create := fun _ _ _ => Ok (lit "answer");
     insert_one_fault := fun _ _ => None;
     update_one_fault := fun _ _ _ _ => None;
     insert_many_fault := fun _ docs =>
       if store_up then None else Some (O, Exn OtherError (lit "store down"));
     bson_datetime := fun t => t |}.

(** The same directory with a blank [a.txt], a sub-directory and a
    picture. *)
Definition blank_env : Env :=
  let base := sample_env true in
  {| AZURE_SEARCH_SERVICE_ENDPOINT := AZURE_SEARCH_SERVICE_ENDPOINT base;
     AZURE_SEARCH_ADMIN_KEY := AZURE_SEARCH_ADMIN_KEY base;
     AZURE_OPENAI_ENDPOINT := AZURE_OPENAI_ENDPOINT base;
     AZURE_OPENAI_API_KEY := AZURE_OPENAI_API_KEY base;
     AZURE_STORAGE_CONNECTION_STRING := AZURE_STORAGE_CONNECTION_STRING base;
     AZURE_STORAGE_ACCOUNT_NAME := AZURE_STORAGE_ACCOUNT_NAME base;
     os_listdir := fun _ _ => Ok [lit "a.txt"; lit "old"; lit "logo.png"];
     os_isdir := fun p => str_eqb p (lit "docs/old");
     os_path_exists := os_path_exists base;
     extract_text_from_file := fun _ => lit "  ";
     container_create := container_create base;
     blob_put := blob_put base;
     embeddings_create := embeddings_create base;
     index_upsert := index_upsert base;
     index_search := index_search base;
     chat_create := chat_create base;
     insert_one_fault := insert_one_fault base;
     update_one_fault := update_one_fault base;
     insert_many_fault := insert_many_fault base;
     bson_datetime := bson_datetime base |}.

(** One chunk's metadata, and the stages of a [process_file_batch] run
    on it in which the store refuses the documents. *)
Definition sample_data : list DocumentData :=
  [mongo_document (lit "acme") (lit "a.txt") (lit "docs/a.txt") (lit "a.txt")
     (lit ".txt") (lit "The sky is blue.") 0 1 0].

Definition sample_created : outcome nat * World :=
  create_knowledge_source (sample_env false) (lit "acme") (lit "Batch") None
    (lit "DOCUMENT") None empty_world.

Definition sample_processing : outcome bool * World :=
  update_knowledge_source_status (sample_env false) 0 (lit "PROCESSING")
    (Some (lit "acme")) None None None (snd sample_created).

Definition sample_inserted : outcome (list nat) * World :=
  create_documents_batch (sample_env false) 0 (lit "acme") sample_data
    (snd sample_processing).

Definition store_down : exn := Exn OtherError (lit "store down").

Definition sample_failed : outcome bool * World :=
  update_knowledge_source_status (sample_env false) 0 (lit "FAILED")
    (Some (lit "acme")) (Some (exn_msg store_down)) (Some 0)
    (Some (Z.of_nat (length sample_data))) (snd sample_inserted).

(** Two runs of the pipeline over [docs], the record store refusing the
    documents in the first and taking them in the second. *)
Definition failing_run : outcome (option (list nat)) * World :=
  process_and_upload_org_files (sample_env false) 10 (lit "acme") (lit "docs")
    800 100 empty_world.

Definition working_run : outcome (option (list nat)) * World :=
  process_and_upload_org_files (sample_env true) 10 (lit "acme") (lit "docs")
    800 100 empty_world.

(** The stages of [failing_run]. *)
Definition sample_opened : outcome (list N) * World :=
  open_run (sample_env false) (lit "acme") (lit "docs") 800 100 empty_world.

Definition sample_read : outcome Batch * World :=
  read_directory (sample_env false) 10 (lit "acme") (lit "docs") 800 100
    (snd sample_opened).

Definition sample_batch : Batch :=
  {| documents :=
       [index_document (lit "acme") (lit "a.txt") (lit "a.txt")
          (lit "The sky is blue.") 0 [1; 2; 3]];
     mongo_documents :=
       [mongo_document (lit "acme") (lit "a.txt") (lit "docs/a.txt")
          (lit "a.txt") (lit ".txt") (lit "The sky is blue.") 0 1 0];
     processed_files := 1 |}.

Definition sample_uploaded : outcome unit * World :=
  upload_to_search (sample_env false) (lit "acme") (lit "acme")
    (documents sample_batch) (snd sample_read).

Definition sample_refused : outcome (nat * list nat) * World :=
  process_file_batch (sample_env false) (lit "acme")
    (source_name_of (lit "docs")) (mongo_documents sample_batch)
    (Some (source_description_of (lit "docs")))
    (Some (batch_configuration (lit "docs") 800 100 sample_batch))
    (snd sample_uploaded).




(** ** Relations between the world before and after a run *)

(** A computation keeps [R] when [R] holds between the world it starts in
    and the world it leaves, whatever its outcome. *)
Definition keeps {A} (R : World -> World -> Prop) (m : M A) : Prop :=
  forall w, R w (snd (m w)).

(** The calls of [w'] are those of [w] followed by calls that all
    satisfy [P]. *)
Definition calls_extend (P : call -> bool) (w w' : World) : Prop :=
  exists new, calls w' = calls w ++ new /\ Forall (fun c => P c = true) new.

(** Neither the vector index nor the record store has changed. *)
Definition same_stores (w w' : World) : Prop :=
  indexes w' = indexes w /\
  knowledge_sources w' = knowledge_sources w /\
  knowledge_documents w' = knowledge_documents w /\
  next_oid w' = next_oid w.

Definition same_indexes (w w' : World) : Prop := indexes w' = indexes w.

Definition same_sources (w w' : World) : Prop :=
  knowledge_sources w' = knowledge_sources w /\ (next_oid w <= next_oid w')%nat.

(** The documents of [w'] are those of [w], untouched, followed by
    documents that all satisfy [P]. *)
Definition documents_grow (P : KnowledgeDocument -> Prop) (w w' : World) : Prop :=
  exists new,
    knowledge_documents w' = knowledge_documents w ++ new /\
    Forall (fun entry => P (snd entry)) new.

(** A document as the batch path creates it when no status is supplied:
    [COMPLETED], processed at its creation time. *)
Definition born_completed (d : KnowledgeDocument) : Prop :=
  kd_status d = VStr (lit "COMPLETED") /\
  kd_processedAt d = Some (kd_createdAt d).

(** A document as [create_document] makes it from one of [data]: the
    status supplied, [COMPLETED] when none is; processed at its creation
    time exactly when the status is [COMPLETED]. *)
Definition born_from (data : list DocumentData) (d : KnowledgeDocument) : Prop :=
  (exists dd, In dd data /\
     kd_status d = or_default (dd_status dd) (VStr (lit "COMPLETED"))) /\
  kd_processedAt d =
    (if value_is (kd_status d) (lit "COMPLETED") then Some (kd_createdAt d)
     else None).

(** Not a write to the vector index, not a write to the record store. *)
Definition no_write (c : call) : bool :=
  negb (is_index_write c) && negb (is_store_write c).

Definition not_generation (c : call) : bool := negb (is_generation c).

(** Every id in the record store is below the next id to be assigned. *)
Definition ids_fresh (w : World) : Prop :=
  Forall (fun entry => (fst entry < next_oid w)%nat) (knowledge_sources w).

(** Every value a computation returns satisfies [Q]. *)
Definition returns {A} (Q : A -> Prop) (m : M A) : Prop :=
  forall w a w', m w = (Ok a, w') -> Q a.

(** The metadata of a chunk supplies no status. *)
Definition no_status (dd : DocumentData) : Prop := dd_status dd = None.

(** Relations that look at neither the clock nor the printed lines. *)
Class Unobservant (R : World -> World -> Prop) : Prop :=
  unobservant : forall w w',
    calls w' = calls w -> indexes w' = indexes w ->
    knowledge_sources w' = knowledge_sources w ->
    knowledge_documents w' = knowledge_documents w ->
    next_oid w' = next_oid w -> R w w'.

(** Relations that do not look at the calls either. *)
Class CallBlind (R : World -> World -> Prop) : Prop :=
  call_blind : forall w w',
    indexes w' = indexes w ->
    knowledge_sources w' = knowledge_sources w ->
    knowledge_documents w' = knowledge_documents w ->
    next_oid w' = next_oid w -> R w w'.

(** The organization filter of [update_knowledge_source_status]. *)
Definition filter_org_of (organization_id : option str) : option str :=
  match organization_id with
  | Some o => if truthy o then Some o else None
  | None => None
  end.

(** A listed name the loop passes over: a directory, or a file whose
    extension is not supported. *)
Definition skipped (env : Env) (directory_path filename : str) : bool :=
  os_isdir env (path_join directory_path filename)
  || negb (supported (lower (splitext_ext filename))).

(** A file whose extracted text is empty once trimmed. *)
Definition blank (env : Env) (directory_path filename : str) : bool :=
  negb (truthy (strip (extract_text_from_file env
                         (path_join directory_path filename)))).

Definition blank_or_skipped (env : Env) (directory_path filename : str) : Prop :=
  skipped env directory_path filename = true \/
  blank env directory_path filename = true.

(** The blob store is configured and takes every upload. *)
Definition blob_store_up (env : Env) : Prop :=
  (unset (AZURE_STORAGE_CONNECTION_STRING env) = false \/
   unset (AZURE_STORAGE_ACCOUNT_NAME env) = false) /\
  (forall p, os_path_exists env p = true) /\
  (forall h name,
     match container_create env h name with
     | None => True
     | Some e => is_class ResourceExistsError e = true
     end) /\
  (forall h container blob p, blob_put env h container blob p = None).

(** The search client can be built. *)
Definition search_configured (env : Env) : Prop :=
  unset (AZURE_SEARCH_SERVICE_ENDPOINT env) = false /\
  unset (AZURE_SEARCH_ADMIN_KEY env) = false.

(** ** Sample environments for the pipeline *)

(** [env] with another search endpoint setting. *)
Definition with_AZURE_SEARCH_SERVICE_ENDPOINT (x : option (list N)) (env : Env) : Env :=
  {| AZURE_SEARCH_SERVICE_ENDPOINT := x;
     AZURE_SEARCH_ADMIN_KEY := AZURE_SEARCH_ADMIN_KEY env;
     AZURE_OPENAI_ENDPOINT := AZURE_OPENAI_ENDPOINT env;
     AZURE_OPENAI_API_KEY := AZURE_OPENAI_API_KEY env;
     AZURE_STORAGE_CONNECTION_STRING := AZURE_STORAGE_CONNECTION_STRING env;
     AZURE_STORAGE_ACCOUNT_NAME := AZURE_STORAGE_ACCOUNT_NAME env;
     os_listdir := os_listdir env;
     os_isdir := os_isdir env;
     os_path_exists := os_path_exists env;
     extract_text_from_file := extract_text_from_file env;
     container_create := container_create env;
     blob_put := blob_put env;
     embeddings_create := embeddings_create env;
     index_upsert := index_upsert env;
     index_search := index_search env;
     chat_create := chat_create env;
     insert_one_fault := insert_one_fault env;
     update_one_fault := update_one_fault env;
     insert_many_fault := insert_many_fault env;
     bson_datetime := bson_datetime env |}.

(** [env] with another embedding service. *)
Definition with_embeddings_create (x : list call -> list N -> outcome (list Z)) (env : Env) : Env :=
  {| AZURE_SEARCH_SERVICE_ENDPOINT := AZURE_SEARCH_SERVICE_ENDPOINT env;
     AZURE_SEARCH_ADMIN_KEY := AZURE_SEARCH_ADMIN_KEY env;
     AZURE_OPENAI_ENDPOINT := AZURE_OPENAI_ENDPOINT env;
     AZURE_OPENAI_API_KEY := AZURE_OPENAI_API_KEY env;
     AZURE_STORAGE_CONNECTION_STRING := AZURE_STORAGE_CONNECTION_STRING env;
     AZURE_STORAGE_ACCOUNT_NAME := AZURE_STORAGE_ACCOUNT_NAME env;
     os_listdir := os_listdir env;
     os_isdir := os_isdir env;
     os_path_exists := os_path_exists env;
     extract_text_from_file := extract_text_from_file env;
     container_create := container_create env;
     blob_put := blob_put env;
     embeddings_create := x;
     index_upsert := index_upsert env;
     index_search := index_search env;
     chat_create := chat_create env;
     insert_one_fault := insert_one_fault env;
     update_one_fault := update_one_fault env;
     insert_many_fault := insert_many_fault env;
     bson_datetime := bson_datetime env |}.

(** [env] with another write side of the vector index. *)
Definition with_index_upsert (x : list call -> upsert_mode -> list N -> list IndexDoc -> option exn) (env : Env) : Env :=
  {| AZURE_SEARCH_SERVICE_ENDPOINT := AZURE_SEARCH_SERVICE_ENDPOINT env;
     AZURE_SEARCH_ADMIN_KEY := AZURE_SEARCH_ADMIN_KEY env;
     AZURE_OPENAI_ENDPOINT := AZURE_OPENAI_ENDPOINT env;
     AZURE_OPENAI_API_KEY := AZURE_OPENAI_API_KEY env;
     AZURE_STORAGE_CONNECTION_STRING := AZURE_STORAGE_CONNECTION_STRING env;
     AZURE_STORAGE_ACCOUNT_NAME := AZURE_STORAGE_ACCOUNT_NAME env;
     os_listdir := os_listdir env;
     os_isdir := os_isdir env;
     os_path_exists := os_path_exists env;
     extract_text_from_file := extract_text_from_file env;
     container_create := container_create env;
     blob_put := blob_put env;
     embeddings_create := embeddings_create env;
     index_upsert := x;
     index_search := index_search env;
     chat_create := chat_create env;
     insert_one_fault := insert_one_fault env;
     update_one_fault := update_one_fault env;
     insert_many_fault := insert_many_fault env;
     bson_datetime := bson_datetime env |}.

(** [env] with another search side of the vector index. *)
Definition with_index_search (x : list call -> list N -> list Z -> Z -> list N -> outcome (list (list (list N * value)))) (env : Env) : Env :=
  {| AZURE_SEARCH_SERVICE_ENDPOINT := AZURE_SEARCH_SERVICE_ENDPOINT env;
     AZURE_SEARCH_ADMIN_KEY := AZURE_SEARCH_ADMIN_KEY env;
     AZURE_OPENAI_ENDPOINT := AZURE_OPENAI_ENDPOINT env;
     AZURE_OPENAI_API_KEY := AZURE_OPENAI_API_KEY env;
     AZURE_STORAGE_CONNECTION_STRING := AZURE_STORAGE_CONNECTION_STRING env;
     AZURE_STORAGE_ACCOUNT_NAME := AZURE_STORAGE_ACCOUNT_NAME env;
     os_listdir := os_listdir env;
     os_isdir := os_isdir env;
     os_path_exists := os_path_exists env;
     extract_text_from_file := extract_text_from_file env;
     container_create := container_create env;
     blob_put := blob_put env;
     embeddings_create := embeddings_create env;
     index_upsert := index_upsert env;
     index_search := x;
     chat_create := chat_create env;
     insert_one_fault := insert_one_fault env;
     update_one_fault := update_one_fault env;
     insert_many_fault := insert_many_fault env;
     bson_datetime := bson_datetime env |}.

(** [env] with another generation service. *)
Definition with_chat_create (x : list call -> list N -> list N -> outcome (list N)) (env : Env) : Env :=
  {| AZURE_SEARCH_SERVICE_ENDPOINT := AZURE_SEARCH_SERVICE_ENDPOINT env;
     AZURE_SEARCH_ADMIN_KEY := AZURE_SEARCH_ADMIN_KEY env;
     AZURE_OPENAI_ENDPOINT := AZURE_OPENAI_ENDPOINT env;
     AZURE_OPENAI_API_KEY := AZURE_OPENAI_API_KEY env;
     AZURE_STORAGE_CONNECTION_STRING := AZURE_STORAGE_CONNECTION_STRING env;
     AZURE_STORAGE_ACCOUNT_NAME := AZURE_STORAGE_ACCOUNT_NAME env;
     os_listdir := os_listdir env;
     os_isdir := os_isdir env;
     os_path_exists := os_path_exists env;
     extract_text_from_file := extract_text_from_file env;
     container_create := container_create env;
     blob_put := blob_put env;
     embeddings_create := embeddings_create env;
     index_upsert := index_upsert env;
     index_search := index_search env;
     chat_create := x;
     insert_one_fault := insert_one_fault env;
     update_one_fault := update_one_fault env;
     insert_many_fault := insert_many_fault env;
     bson_datetime := bson_datetime env |}.

(** [env] with another way of keeping times in the store. *)
Definition with_bson_datetime (x : nat -> nat) (env : Env) : Env :=
  {| AZURE_SEARCH_SERVICE_ENDPOINT := AZURE_SEARCH_SERVICE_ENDPOINT env;
     AZURE_SEARCH_ADMIN_KEY := AZURE_SEARCH_ADMIN_KEY env;
     AZURE_OPENAI_ENDPOINT := AZURE_OPENAI_ENDPOINT env;
     AZURE_OPENAI_API_KEY := AZURE_OPENAI_API_KEY env;
     AZURE_STORAGE_CONNECTION_STRING := AZURE_STORAGE_CONNECTION_STRING env;
     AZURE_STORAGE_ACCOUNT_NAME := AZURE_STORAGE_ACCOUNT_NAME env;
     os_listdir := os_listdir env;
     os_isdir := os_isdir env;
     os_path_exists := os_path_exists env;
     extract_text_from_file := extract_text_from_file env;
     container_create := container_create env;
     blob_put := blob_put env;
     embeddings_create := embeddings_create env;
     index_upsert := index_upsert env;
     index_search := index_search env;
     chat_create := chat_create env;
     insert_one_fault := insert_one_fault env;
     update_one_fault := update_one_fault env;
     insert_many_fault := insert_many_fault env;
     bson_datetime := x |}.

(** Every reading of the clock during the run falls in one millisecond. *)
Definition one_millisecond_env : Env :=
  with_bson_datetime (fun _ => 0%nat) (sample_env true).

Definition service_down : exn := Exn OtherError (lit "service unavailable").

(** The embedding service is down. *)
Definition no_embeddings_env : Env :=
  with_embeddings_create (fun _ _ => Raise service_down) (sample_env true).

(** The vector index refuses every write. *)
Definition no_index_env : Env :=
  with_index_upsert (fun _ _ _ _ => Some service_down) (sample_env true).

(** A search client without [merge_or_upload_documents], whose
    [upload_documents] does not take [merge_mode]. *)
Definition old_client_env : Env :=
  with_index_upsert
    (fun _ mode _ _ =>
       match mode with
       | MergeOrUpload =>
           Some (Exn AttributeError (lit "no attribute merge_or_upload_documents"))
       | UploadMergeMode =>
           Some (Exn TypeError (lit "unexpected keyword argument merge_mode"))
       | UploadBasic => None
       end)
    (sample_env true).

(** The search endpoint is not set. *)
Definition no_endpoint_env : Env :=
  with_AZURE_SEARCH_SERVICE_ENDPOINT None (sample_env true).

(** The index finds one chunk. *)
Definition one_hit : list (list N * value) :=
  [(lit "content", VStr (lit "The sky is blue."));
   (lit "filepath", VStr (lit "a.txt"));
   (lit "organization_id", VStr (lit "acme"));
   (lit "blob_name", VStr (lit "a.txt"))].

Definition one_hit_env : Env :=
  with_index_search (fun _ _ _ _ _ => Ok [one_hit]) (sample_env true).

(** ** Further relations and notions for the pipeline *)

(** The record store has not changed. *)
Definition same_records (w w' : World) : Prop :=
  knowledge_sources w' = knowledge_sources w /\
  knowledge_documents w' = knowledge_documents w /\
  next_oid w' = next_oid w.

(** Line 64 of [src/search.py]: the user prompt. *)
Definition user_prompt_for (org_id query : str)
    (search_results : list (list (str * value))) : str :=
  lit "Context from organization '" ++ org_id ++ lit "' documents:" ++ nl
  ++ join (nl ++ nl) (map context_part search_results)
  ++ nl ++ nl ++ lit "Question:" ++ nl ++ query.

(** An index document and the metadata record built with it: same
    organization, same non-blank chunk text, no status supplied, and one
    ordinal in the id of the document, in the title of the record and in
    its [chunk_index]. *)
Definition aligned (org_id : str) (doc : IndexDoc) (dd : DocumentData) : Prop :=
  doc_organization_id doc = org_id /\
  dd_content dd = Some (VStr (doc_content doc)) /\
  strip (doc_content doc) <> [] /\
  (exists i,
     doc_id doc = file_doc_id org_id (doc_filepath doc) i /\
     dd_title dd
     = Some (VStr (doc_filepath doc ++ lit " - Chunk " ++ str_of_nat (i + 1))) /\
     exists metadata,
       dd_metadata dd = Some metadata /\
       dict_get metadata (lit "chunk_index") = Some (VInt (Z.of_nat i))) /\
  dd_status dd = None.

(** The files of a listing that the loop ingests: not a directory, a
    supported extension, and some text in it. *)
Definition ingested (env : Env) (directory_path filename : str) : bool :=
  let filepath := path_join directory_path filename in
  negb (os_isdir env filepath)
  && supported (lower (splitext_ext filename))
  && truthy (strip (extract_text_from_file env filepath)).

(** Id, file name and text of the index documents of one file: one per
    chunk the chunker returns for its text, blank chunks left out, each
    under the position of its chunk. *)
Definition file_entries (env : Env) (fuel : nat) (org_id directory_path : str)
    (chunk_size overlap : Z) (filename : str) : list (str * str * str) :=
  match chunk_text fuel
          (extract_text_from_file env (path_join directory_path filename))
          chunk_size overlap with
  | Some chunks =>
      map (fun ic => (file_doc_id org_id filename (fst ic), filename, snd ic))
        (kept (enumerate 0 chunks))
  | None => []
  end.

(** The same for a listing, file after file. *)
Definition batch_entries (env : Env) (fuel : nat) (org_id directory_path : str)
    (chunk_size overlap : Z) (filenames : list str) : list (str * str * str) :=
  flat_map
    (fun filename =>
       if ingested env directory_path filename
       then file_entries env fuel org_id directory_path chunk_size overlap
              filename
       else [])
    filenames.

Definition entry_of (doc : IndexDoc) : str * str * str :=
  (doc_id doc, doc_filepath doc, doc_content doc).

(** The three write requests of the fallback chain. *)
Definition upsert_calls (index_name : str) (docs : list IndexDoc) : list call :=
  [CallUpsert MergeOrUpload index_name docs;
   CallUpsert UploadMergeMode index_name docs;
   CallUpsert UploadBasic index_name docs].

Definition uploaded_line (org_id : str) (docs : list IndexDoc) : str :=
  lit "Uploaded " ++ str_of_nat (length docs)
  ++ lit " documents to organization '" ++ org_id ++ lit "' search index.".

(** The stages of the sample runs. *)
Definition no_embeddings_opened : outcome (list N) * World :=
  open_run no_embeddings_env (lit "acme") (lit "docs") 800 100 empty_world.

Definition no_embeddings_read : outcome Batch * World :=
  read_directory no_embeddings_env 10 (lit "acme") (lit "docs") 800 100
    (snd no_embeddings_opened).

Definition no_index_opened : outcome (list N) * World :=
  open_run no_index_env (lit "acme") (lit "docs") 800 100 empty_world.

Definition no_index_read : outcome Batch * World :=
  read_directory no_index_env 10 (lit "acme") (lit "docs") 800 100
    (snd no_index_opened).

Definition no_index_uploaded : outcome unit * World :=
  upload_to_search no_index_env (lit "acme") (lit "acme")
    (documents sample_batch) (snd no_index_read).

Definition one_hit_searched : outcome (list (list (list N * value))) * World :=
  perform_vector_search one_hit_env (lit "acme") (lit "What colour is the sky?")
    3 empty_world.


(** The sample directory read with windows of 8 characters: the text of
    [a.txt] falls into three chunks. *)
Definition small_windows_read : outcome Batch * World :=
  read_directory (sample_env true) 10 (lit "acme") (lit "docs") 8 0 empty_world.

Definition small_windows_batch : Batch :=
  match fst small_windows_read with
  | Ok batch => batch
  | _ => {| documents := []; mongo_documents := []; processed_files := 0 |}
  end.

(** ** Reads and statistics of the record store ([src/mongodb_service.py]) *)

(** The [$group] stage [{"_id": "$status", "count": {"$sum": 1}}]: one
    group per key, with the number of records that carry it. *)
Section Grouping.

Context {K : Type} (eqb : K -> K -> bool).

Fixpoint bump (key : K) (groups : list (K * Z)) : list (K * Z) :=
  match groups with
  | [] => [(key, 1)]
  | (k, c) :: r =>
      if eqb k key then (k, c + 1) :: r else (k, c) :: bump key r
  end.

Definition group_count (keys : list K) : list (K * Z) :=
  fold_left (fun groups key => bump key groups) keys [].

(** The count the groups hold for [key]. *)
Fixpoint tally (key : K) (groups : list (K * Z)) : Z :=
  match groups with
  | [] => 0
  | (k, c) :: r => (if eqb k key then c else 0) + tally key r
  end.

(** The value a loop leaves in a variable it assigns at every group
    whose key satisfies [p]. *)
Definition assigned (p : K -> bool) (groups : list (K * Z)) (start : Z) : Z :=
  fold_left (fun acc r => if p (fst r) then snd r else acc) groups start.

End Grouping.

Definition total_count {K : Type} (groups : list (K * Z)) : Z :=
  fold_right (fun r acc => snd r + acc) 0 groups.

Definition value_eqb (a b : value) : bool :=
  match a, b with
  | VNone, VNone => true
  | VStr s, VStr t => str_eqb s t
  | VInt x, VInt y => Z.eqb x y
  | VTime x, VTime y => Nat.eqb x y
  | _, _ => false
  end.

(** The [$match] stage [{"organizationId": organization_id}]. *)
Definition sources_of (organization_id : str)
    (l : list (oid * KnowledgeSource)) : list (oid * KnowledgeSource) :=
  List.filter (fun entry => str_eqb (ks_organizationId (snd entry)) organization_id) l.

Definition documents_of (organization_id : str)
    (l : list (oid * KnowledgeDocument)) : list (oid * KnowledgeDocument) :=
  List.filter (fun entry => str_eqb (kd_organizationId (snd entry)) organization_id) l.

(** [collection.aggregate(pipeline)], in one of the orders the store may
    answer in. *)
Definition aggregate_source_status (organization_id : str)
    (l : list (oid * KnowledgeSource)) : list (str * Z) :=
  group_count str_eqb
    (map (fun entry => ks_status (snd entry)) (sources_of organization_id l)).

Definition aggregate_document_status (organization_id : str)
    (l : list (oid * KnowledgeDocument)) : list (value * Z) :=
  group_count value_eqb
    (map (fun entry => kd_status (snd entry)) (documents_of organization_id l)).

(** The [stats] dict of [get_knowledge_source_stats]. *)
Record SourceStats : Type := {
  totalSources : Z;
  completedSources : Z;
  failedSources : Z;
  processingSources : Z
}.

(** The body of the loop of [get_knowledge_source_stats]. *)
Definition source_stats_step (stats : SourceStats) (result : str * Z)
    : SourceStats :=
  let status := fst result in
  let count := snd result in
  let total := totalSources stats + count in
  if str_eqb status (lit "COMPLETED") then
    {| totalSources := total;
       completedSources := count;
       failedSources := failedSources stats;
       processingSources := processingSources stats |}
  else if str_eqb status (lit "FAILED") then
    {| totalSources := total;
       completedSources := completedSources stats;
       failedSources := count;
       processingSources := processingSources stats |}
  else if str_eqb status (lit "PROCESSING") then
    {| totalSources := total;
       completedSources := completedSources stats;
       failedSources := failedSources stats;
       processingSources := count |}
  else
    {| totalSources := total;
       completedSources := completedSources stats;
       failedSources := failedSources stats;
       processingSources := processingSources stats |}.

(** [get_knowledge_source_stats], from what the aggregation answers. *)
Definition get_knowledge_source_stats (results : list (str * Z)) : SourceStats :=
  fold_left source_stats_step results
    {| totalSources := 0; completedSources := 0; failedSources := 0;
       processingSources := 0 |}.

(** The [stats] dict of [get_document_stats]. *)
Record DocumentStats : Type := {
  totalDocuments : Z;
  completedDocuments : Z;
  failedDocuments : Z
}.

Definition document_stats_step (stats : DocumentStats) (result : value * Z)
    : DocumentStats :=
  let status := fst result in
  let count := snd result in
  if value_is status (lit "COMPLETED") then
    {| totalDocuments := totalDocuments stats;
       completedDocuments := count;
       failedDocuments := failedDocuments stats |}
  else if value_is status (lit "FAILED") then
    {| totalDocuments := totalDocuments stats;
       completedDocuments := completedDocuments stats;
       failedDocuments := count |}
  else stats.

(** [get_document_stats], from what [count_documents] and the
    aggregation answer. *)
Definition get_document_stats (total_docs : Z) (results : list (value * Z))
    : DocumentStats :=
  fold_left document_stats_step results
    {| totalDocuments := total_docs; completedDocuments := 0;
       failedDocuments := 0 |}.

(** The number of sources, or documents, of the organization in a
    status. *)
Definition sources_in (status organization_id : str)
    (l : list (oid * KnowledgeSource)) : Z :=
  Z.of_nat (length (List.filter (fun entry => str_eqb (ks_status (snd entry)) status)
                      (sources_of organization_id l))).

Definition documents_in (status organization_id : str)
    (l : list (oid * KnowledgeDocument)) : Z :=
  Z.of_nat (length (List.filter (fun entry => value_is (kd_status (snd entry)) status)
                      (documents_of organization_id l))).

(** [get_knowledge_source]: [find_one] with the filter
    [{"_id": ObjectId(source_id), "organizationId": organization_id}], on
    the sources the store holds. *)
Definition get_knowledge_source (source_id : oid) (organization_id : str)
    (w : World) : option (oid * KnowledgeSource) :=
  find (source_matches source_id (Some organization_id)) (knowledge_sources w).

(** Sample sources. *)
Definition sample_source (organization_id status : str) : KnowledgeSource :=
  {| ks_createdAt := 0;
     ks_updatedAt := 0;
     ks_organizationId := organization_id;
     ks_name := lit "Batch";
     ks_description := None;
     ks_type := lit "DOCUMENT";
     ks_status := status;
     ks_configuration := [];
     ks_lastProcessedAt := None;
     ks_processStartedAt := None;
     ks_errorMessage := None;
     ks_retryCount := 0;
     ks_documentsProcessed := 0;
     ks_documentsFailed := 0 |}.

Definition sample_sources : list (oid * KnowledgeSource) :=
  [(0%nat, sample_source (lit "acme") (lit "COMPLETED"));
   (1%nat, sample_source (lit "acme") (lit "PENDING"));
   (2%nat, sample_source (lit "other") (lit "COMPLETED"));
   (3%nat, sample_source (lit "acme") (lit "COMPLETED"));
   (4%nat, sample_source (lit "acme") (lit "FAILED"))].
(** ** Sample runs of the record store *)

(** The stages of a [process_file_batch] run that goes through. *)
Definition ok_created : outcome nat * World :=
  create_knowledge_source (sample_env true) (lit "acme") (lit "Batch") None
    (lit "DOCUMENT") None empty_world.

Definition ok_processing : outcome bool * World :=
  update_knowledge_source_status (sample_env true) 0 (lit "PROCESSING")
    (Some (lit "acme")) None None None (snd ok_created).

Definition ok_inserted : outcome (list nat) * World :=
  create_documents_batch (sample_env true) 0 (lit "acme") sample_data
    (snd ok_processing).

Definition ok_completed : outcome bool * World :=
  update_knowledge_source_status (sample_env true) 0 (lit "COMPLETED")
    (Some (lit "acme")) None (Some 1) (Some 0) (snd ok_inserted).

(** A record store that takes everything except the update to
    [COMPLETED]. *)
Definition late_failure_env : Env :=
  let base := sample_env true in
  {| AZURE_SEARCH_SERVICE_ENDPOINT := AZURE_SEARCH_SERVICE_ENDPOINT base;
     AZURE_SEARCH_ADMIN_KEY := AZURE_SEARCH_ADMIN_KEY base;
     AZURE_OPENAI_ENDPOINT := AZURE_OPENAI_ENDPOINT base;
     AZURE_OPENAI_API_KEY := AZURE_OPENAI_API_KEY base;
     AZURE_STORAGE_CONNECTION_STRING := AZURE_STORAGE_CONNECTION_STRING base;
     AZURE_STORAGE_ACCOUNT_NAME := AZURE_STORAGE_ACCOUNT_NAME base;
     os_listdir := os_listdir base;
     os_isdir := os_isdir base;
     os_path_exists := os_path_exists base;
     extract_text_from_file := extract_text_from_file base;
     container_create := container_create base;
     blob_put := blob_put base;
     embeddings_create := embeddings_create base;
     index_upsert := index_upsert base;
     index_search := index_search base;
     chat_create := chat_create base;
     insert_one_fault := insert_one_fault base;
     update_one_fault := fun _ _ _ u =>
       if str_eqb (u_status u) (lit "COMPLETED")
       then Some (Exn OtherError (lit "write timed out"))
       else None;
     insert_many_fault := insert_many_fault base;
     bson_datetime := bson_datetime base |}.

Definition timed_out : exn := Exn OtherError (lit "write timed out").

Definition late_created : outcome nat * World :=
  create_knowledge_source late_failure_env (lit "acme") (lit "Batch") None
    (lit "DOCUMENT") None empty_world.

Definition late_processing : outcome bool * World :=
  update_knowledge_source_status late_failure_env 0 (lit "PROCESSING")
    (Some (lit "acme")) None None None (snd late_created).

Definition late_inserted : outcome (list nat) * World :=
  create_documents_batch late_failure_env 0 (lit "acme") sample_data
    (snd late_processing).

Definition late_completed : outcome bool * World :=
  update_knowledge_source_status late_failure_env 0 (lit "COMPLETED")
    (Some (lit "acme")) None (Some 1) (Some 0) (snd late_inserted).

Definition late_failed : outcome bool * World :=
  update_knowledge_source_status late_failure_env 0 (lit "FAILED")
    (Some (lit "acme")) (Some (exn_msg timed_out)) (Some 0)
    (Some (Z.of_nat (length sample_data))) (snd late_completed).


(** ** What the store holds of a source *)

(** Two sources the store holds alike in the fields a status update can
    set: times are compared as the store keeps them. *)
Definition same_stored (env : Env) (a b : KnowledgeSource) : Prop :=
  ks_status a = ks_status b /\
  bson_datetime env (ks_updatedAt a) = bson_datetime env (ks_updatedAt b) /\
  ks_errorMessage a = ks_errorMessage b /\
  ks_documentsProcessed a = ks_documentsProcessed b /\
  ks_documentsFailed a = ks_documentsFailed b /\
  option_map (bson_datetime env) (ks_processStartedAt a)
  = option_map (bson_datetime env) (ks_processStartedAt b) /\
  option_map (bson_datetime env) (ks_lastProcessedAt a)
  = option_map (bson_datetime env) (ks_lastProcessedAt b).

(** The source a status update reaches: the first one its filter
    matches. *)
Definition reached (id : oid) (org : option str)
    (l : list (oid * KnowledgeSource)) : option (oid * KnowledgeSource) :=
  find (source_matches id org) l.

(** The same [FAILED] update made twice on a fresh source. *)
Definition failed_once (env : Env) : outcome bool * World :=
  update_knowledge_source_status env 0 (lit "FAILED") (Some (lit "acme"))
    (Some (lit "store down")) (Some 0) (Some 1)
    (snd (create_knowledge_source env (lit "acme") (lit "Batch") None
            (lit "DOCUMENT") None empty_world)).

Definition failed_twice (env : Env) : outcome bool * World :=
  update_knowledge_source_status env 0 (lit "FAILED") (Some (lit "acme"))
    (Some (lit "store down")) (Some 0) (Some 1) (snd (failed_once env)).
(** ** Further notions about names and chunks *)

(** Code points that leave a trace in a sanitized name: the ASCII letters
    and digits, and the two code points whose lower-case form contains an
    ASCII letter. *)
Definition name_char (c : N) : bool :=
  ((65 <=? c) && (c <=? 90) || (97 <=? c) && (c <=? 122)
   || (48 <=? c) && (c <=? 57) || (c =? 304) || (c =? 8490))%N.

(** What [sanitize_azure_name] retains of a name before it collapses and
    trims the dashes: the lower-cased name with every character outside
    [[a-z0-9-]] turned into a dash. *)
Definition dashed (name : str) : str := sub_invalid (lower name).

(** * Proofs *)

(** ** The chunker on small inputs *)

Example chunk_text_two_words :
  chunk_text 10 (lit "ab cd") 3 0 = Some [lit "ab"; lit "cd"].
Proof. reflexivity. Qed.

Example chunk_text_overlapping :
  chunk_text 100 (lit "a bcdefgh") 5 2
  = Some [lit "a"; lit "bcdef"; lit "efgh"; lit "h"].
Proof. vm_compute. reflexivity. Qed.

(** A window start below zero: after the chunk ["a"] the next start is
    [1 - 2 = -1], the slice [text[-1:9]] is empty, and the characters
    ["bcdef"] reach no chunk. *)
Example chunk_text_negative_start :
  chunk_text 100 (lit "a bcdefghijklmnop") 10 2
  = Some [lit "a"; lit "ghijklmnop"; lit "op"].
Proof. vm_compute. reflexivity. Qed.

(** ** Facts about the string primitives *)

Section StringFacts.

Lemma len_nonneg (s : str) : 0 <= len s.
Proof. unfold len. lia. Qed.

Lemma adjust_range (n i : Z) : 0 <= n -> 0 <= adjust n i <= n.
Proof. unfold adjust. destruct (Z.ltb_spec i 0); lia. Qed.

Lemma adjust_nonneg_id (n i : Z) : 0 <= i <= n -> adjust n i = i.
Proof. unfold adjust. destruct (Z.ltb_spec i 0); lia. Qed.

Lemma slice_length (s : str) (i j : Z) :
  len (slice s i j) = Z.max 0 (adjust (len s) j - adjust (len s) i).
Proof.
  pose proof (adjust_range (len s) i (len_nonneg s)) as Hi.
  pose proof (adjust_range (len s) j (len_nonneg s)) as Hj.
  unfold slice, len in *. rewrite length_take, length_drop. lia.
Qed.



Lemma last_index_lt (c : N) (s : str) (k : nat) :
  last_index c s = Some k -> (k < length s)%nat /\ s !! k = Some c.
Proof.
  revert k. induction s as [|x r IH]; intros k; simpl; [discriminate|].
  destruct (last_index c r) as [k'|] eqn:E.
  - intros [= <-]. destruct (IH k' eq_refl). split; [lia|assumption].
  - destruct (N.eqb_spec x c) as [->|]; [|discriminate].
    intros [= <-]. split; [lia|reflexivity].
Qed.

Lemma last_index_None (c : N) (s : str) :
  last_index c s = None -> c ∉ s.
Proof.
  induction s as [|x r IH]; simpl; intros H.
  - apply not_elem_of_nil.
  - destruct (last_index c r); [discriminate|].
    destruct (N.eqb_spec x c); [discriminate|].
    rewrite elem_of_cons. intros [->|Hin]; [congruence|]. now apply IH.
Qed.

(** What [rfind] returns: [-1], or an index inside the adjusted bounds
    at which the character stands. *)
Lemma rfind_spec (s : str) (c : N) (i j : Z) :
  rfind s c i j = -1 \/
  (adjust (len s) i <= rfind s c i j < adjust (len s) j /\
   s !! Z.to_nat (rfind s c i j) = Some c).
Proof.
  unfold rfind. destruct (last_index c (slice s i j)) as [k|] eqn:E; [right|now left].
  apply last_index_lt in E as [Hk Hc].
  assert (Z.of_nat k < len (slice s i j)) as Hk' by (unfold len; lia).
  rewrite slice_length in Hk'.
  pose proof (adjust_range (len s) i (len_nonneg s)) as Hi.
  split; [lia|].
  unfold slice in Hc. rewrite lookup_take_Some in Hc. destruct Hc as [Hc _].
  rewrite lookup_drop in Hc.
  replace (Z.to_nat (adjust (len s) i + Z.of_nat k))
    with (Z.to_nat (adjust (len s) i) + k)%nat by lia.
  exact Hc.
Qed.

Lemma rfind_ge (s : str) (c : N) (i j : Z) : -1 <= rfind s c i j.
Proof.
  pose proof (adjust_range (len s) i (len_nonneg s)).
  destruct (rfind_spec s c i j) as [->|[? _]]; lia.
Qed.

End StringFacts.

(** ** Facts about stripping *)

Section StripFacts.

Variable p : N -> bool.

Lemma lstrip_by_split (s : str) :
  exists A, s = A ++ lstrip_by p s /\ Forall (fun c => p c = true) A.
Proof.
  induction s as [|c r [A [HA HF]]]; simpl.
  - exists []. split; [reflexivity|constructor].
  - destruct (p c) eqn:E.
    + exists (c :: A). split; [simpl; congruence|now constructor].
    + exists []. split; [reflexivity|constructor].
Qed.

Lemma rstrip_by_split (s : str) :
  exists B, s = rstrip_by p s ++ B /\ Forall (fun c => p c = true) B.
Proof.
  induction s as [|c r [B [HB HF]]]; simpl.
  - exists []. split; [reflexivity|constructor].
  - destruct (rstrip_by p r) as [|x R] eqn:ER.
    + destruct (p c) eqn:E.
      * exists (c :: B). simpl in *. split; [congruence|now constructor].
      * exists B. simpl in *. split; [congruence|assumption].
    + exists B. split; [simpl in *; congruence|assumption].
Qed.

Lemma strip_by_split (s : str) :
  exists A B, s = A ++ strip_by p s ++ B /\
    Forall (fun c => p c = true) A /\ Forall (fun c => p c = true) B.
Proof.
  destruct (lstrip_by_split s) as [A [HA HFA]].
  destruct (rstrip_by_split (lstrip_by p s)) as [B [HB HFB]].
  exists A, B. unfold strip_by. split; [|split]; try assumption.
  rewrite <- HB. exact HA.
Qed.

Lemma lstrip_by_head (s : str) : head_kept p (lstrip_by p s).
Proof.
  induction s as [|c r IH]; simpl; [exact I|].
  destruct (p c) eqn:E; [exact IH|exact E].
Qed.

Lemma lstrip_by_id (s : str) : head_kept p s -> lstrip_by p s = s.
Proof. destruct s as [|c r]; simpl; [reflexivity|]. now intros ->. Qed.

Lemma rstrip_by_head (s : str) : head_kept p s -> head_kept p (rstrip_by p s).
Proof.
  destruct s as [|c r]; simpl; [exact id|]. intros E.
  destruct (rstrip_by p r); [rewrite E|]; exact E.
Qed.

Lemma rstrip_by_idem (s : str) :
  rstrip_by p (rstrip_by p s) = rstrip_by p s.
Proof.
  induction s as [|c r IH]; simpl; [reflexivity|].
  destruct (rstrip_by p r) as [|x R] eqn:ER.
  - destruct (p c) eqn:E; simpl; [reflexivity|now rewrite E].
  - simpl in *. now rewrite IH.
Qed.

Lemma strip_by_head (s : str) : head_kept p (strip_by p s).
Proof. apply rstrip_by_head, lstrip_by_head. Qed.

Lemma strip_by_idem (s : str) : strip_by p (strip_by p s) = strip_by p s.
Proof.
  unfold strip_by at 1. rewrite lstrip_by_id by apply strip_by_head.
  apply rstrip_by_idem.
Qed.



End StripFacts.



Lemma truthy_nonempty (s : str) : truthy s = true <-> s <> [].
Proof. destruct s; simpl; split; congruence. Qed.

(** ** The chunker: windows and the loop invariant *)

Section ChunkerFacts.

Variable text : str.
Variables chunk_size overlap : Z.

(** The window's right edge is either [start + chunk_size] or a space
    strictly after [start]. *)
Lemma window_end_cases (start : Z) :
  window_end text chunk_size start = start + chunk_size \/
  (start + chunk_size < len text /\
   window_end text chunk_size start = rfind text space start (start + chunk_size) /\
   start < window_end text chunk_size start).
Proof.
  unfold window_end. cbv zeta.
  destruct (Z.ltb_spec (start + chunk_size) (len text)); [|now left].
  destruct (Z.gtb_spec (rfind text space start (start + chunk_size)) start);
    [right|now left].
  repeat split; lia.
Qed.

Lemma window_end_bounds (start : Z) :
  0 < chunk_size -> - chunk_size <= start ->
  start < window_end text chunk_size start <= start + chunk_size /\
  -1 <= window_end text chunk_size start.
Proof.
  intros Hcs Hs.
  destruct (window_end_cases start) as [->|[Hlt [-> Hgt]]]; [lia|].
  pose proof (len_nonneg text) as Hn.
  destruct (rfind_spec text space start (start + chunk_size)) as [E|[[_ Hr] _]].
  - rewrite E in *. lia.
  - rewrite (adjust_nonneg_id _ (start + chunk_size)) in Hr by lia.
    pose proof (rfind_ge text space start (start + chunk_size)). lia.
Qed.

(** A space the window is pulled back to really stands in the text. *)
Lemma window_end_space (start : Z) :
  0 <= start ->
  window_end text chunk_size start = start + chunk_size \/
  (start < window_end text chunk_size start /\
   text !! Z.to_nat (window_end text chunk_size start) = Some space).
Proof.
  intros Hs.
  destruct (window_end_cases start) as [->|[Hlt [E Hgt]]]; [now left|right].
  split; [assumption|]. rewrite E in *.
  destruct (rfind_spec text space start (start + chunk_size)) as [E1|[_ Hc]];
    [lia|exact Hc].
Qed.


End ChunkerFacts.

(** ** Coverage of the text by the chunks *)

Section Coverage.

Variable text : str.
Variables chunk_size overlap : Z.





(** No window start goes negative when no space stands at the positions
    [1 .. overlap - 1] of the text. *)
Lemma window_starts_nonneg (fuel : nat) :
  0 <= overlap < chunk_size ->
  (forall i, 1 <= i < overlap -> char_at text i <> Some space) ->
  forall start : Z,
    0 <= start ->
    Forall (fun s => 0 <= s)
      (window_starts fuel text chunk_size overlap start).
Proof.
  intros Hcfg Hnosp. induction fuel as [|fuel IH]; intros start Hs; simpl;
    [constructor|].
  destruct (Z.ltb_spec start (len text)) as [Hlt|Hge]; [|constructor].
  constructor; [exact Hs|].
  pose proof (window_end_bounds text chunk_size start ltac:(lia) ltac:(lia))
    as [[Hlo Hhi] _].
  pose proof (window_end_space text chunk_size start Hs) as Hsp.
  set (e := window_end text chunk_size start) in *.
  destruct (Z.geb_spec (e - overlap) (len text)) as [Hout|Hin]; [constructor|].
  apply IH.
  destruct Hsp as [E|[_ Hc]]; [lia|].
  destruct (Z.lt_ge_cases e overlap) as [Hb|Hb]; [|lia].
  exfalso. apply (Hnosp e); [lia|exact Hc].
Qed.

End Coverage.

(** ** The name sanitizer *)

Example sanitize_example :
  sanitize_azure_name (lit "Org_ABC def!!") = lit "org-abc-def".
Proof. reflexivity. Qed.

Section SanitizeFacts.

Lemma replace_char_absent (c : N) (new s : str) :
  ~ In c s -> replace [c] new s = s.
Proof.
  unfold replace. induction s as [|x r IH]; simpl; [reflexivity|].
  intros Hin. destruct (N.eqb_spec c x) as [->|Hne]; simpl.
  - exfalso. apply Hin. now left.
  - rewrite IH; [reflexivity|]. intros H. apply Hin. now right.
Qed.

Lemma sub_invalid_azure (s : str) :
  Forall (fun c => azure_char c = true) (sub_invalid s).
Proof.
  unfold sub_invalid. induction s as [|c r IH]; simpl; constructor; [|exact IH].
  destruct (azure_char c) eqn:E; [exact E|reflexivity].
Qed.

Lemma sub_invalid_id (s : str) :
  Forall (fun c => azure_char c = true) s -> sub_invalid s = s.
Proof.
  unfold sub_invalid. induction 1 as [|c r Hc _ IH]; simpl; [reflexivity|].
  now rewrite Hc, IH.
Qed.

Lemma sub_dash_runs_head (s : str) :
  head_kept is_dash s -> head_kept is_dash (sub_dash_runs s).
Proof.
  destruct s as [|c r]; simpl; [exact id|]. intros E. rewrite E. exact E.
Qed.

Lemma sub_dash_runs_no_run (s : str) : no_dash_run (sub_dash_runs s).
Proof.
  induction s as [|c r IH]; simpl; [exact I|].
  destruct (is_dash c) eqn:Ec; simpl.
  - destruct r as [|d r']; [simpl; auto|].
    destruct (is_dash d) eqn:Ed; [exact IH|].
    split; [|exact IH]. intros _. apply sub_dash_runs_head. exact Ed.
  - split; [|exact IH]. congruence.
Qed.

Lemma sub_dash_runs_id (s : str) : no_dash_run s -> sub_dash_runs s = s.
Proof.
  induction s as [|c r IH]; simpl; [reflexivity|]. intros [Hh Hr].
  rewrite (IH Hr). destruct (is_dash c) eqn:Ec; [|reflexivity].
  specialize (Hh eq_refl). destruct r as [|d r']; [reflexivity|].
  simpl in Hh. rewrite Hh. reflexivity.
Qed.

Lemma sub_dash_runs_azure (s : str) :
  Forall (fun c => azure_char c = true) s ->
  Forall (fun c => azure_char c = true) (sub_dash_runs s).
Proof.
  induction 1 as [|c r Hc _ IH]; simpl; [constructor|].
  destruct (is_dash c && _); [exact IH|now constructor].
Qed.

Lemma head_kept_app_l (p : N -> bool) (a b : str) :
  a <> [] -> head_kept p (a ++ b) -> head_kept p a.
Proof. destruct a; [congruence|intros _ H; exact H]. Qed.

Lemma no_dash_run_app (a b : str) :
  no_dash_run (a ++ b) -> no_dash_run a /\ no_dash_run b.
Proof.
  induction a as [|c r IH]; simpl; [now split|]. intros [Hh Hr].
  destruct (IH Hr) as [Ha Hb]. split; [split|]; [|exact Ha|exact Hb].
  intros Ec. specialize (Hh Ec). destruct r; [exact I|exact Hh].
Qed.

Lemma head_kept_take (p : N -> bool) (n : nat) (s : str) :
  head_kept p s -> head_kept p (take n s).
Proof. destruct s, n; simpl; auto. Qed.

Lemma slice_prefix (s : str) (k : Z) :
  0 <= k -> slice s 0 k = take (Z.to_nat k) s.
Proof.
  intros Hk. pose proof (len_nonneg s) as Hn. unfold slice.
  rewrite (adjust_nonneg_id _ 0) by lia. rewrite drop_0, Z.sub_0_r.
  unfold adjust. destruct (Z.ltb_spec k 0); [lia|].
  destruct (Z.le_gt_cases k (len s)).
  - now rewrite Z.min_l by lia.
  - rewrite Z.min_r by lia. unfold len in *.
    rewrite !take_ge by lia. reflexivity.
Qed.

(** Trimming the dashes off, or cutting at 128, keeps a name inside the
    character class and free of dash runs. *)
Lemma strip_dash_azure (s : str) :
  Forall (fun c => azure_char c = true) s ->
  Forall (fun c => azure_char c = true) (strip_by is_dash s).
Proof.
  intros H. destruct (strip_by_split is_dash s) as (A & B & E & _).
  rewrite E in H. apply Forall_app in H as [_ H].
  now apply Forall_app in H as [H _].
Qed.

Lemma strip_dash_no_run (s : str) :
  no_dash_run s -> no_dash_run (strip_by is_dash s).
Proof.
  intros H. destruct (strip_by_split is_dash s) as (A & B & E & _).
  rewrite E in H. apply no_dash_run_app in H as [_ H].
  now apply no_dash_run_app in H as [H _].
Qed.

Lemma rstrip_dash_azure (s : str) :
  Forall (fun c => azure_char c = true) s ->
  Forall (fun c => azure_char c = true) (rstrip_by is_dash s).
Proof.
  intros H. destruct (rstrip_by_split is_dash s) as (B & E & _).
  rewrite E in H. now apply Forall_app in H as [H _].
Qed.

Lemma rstrip_dash_no_run (s : str) :
  no_dash_run s -> no_dash_run (rstrip_by is_dash s).
Proof.
  intros H. destruct (rstrip_by_split is_dash s) as (B & E & _).
  rewrite E in H. now apply no_dash_run_app in H as [H _].
Qed.

Lemma rstrip_by_length (p : N -> bool) (s : str) :
  (length (rstrip_by p s) <= length s)%nat.
Proof.
  destruct (rstrip_by_split p s) as (B & E & _).
  rewrite E at 2. rewrite length_app. lia.
Qed.

Lemma strip_by_fixed (p : N -> bool) (s : str) :
  head_kept p s -> rstrip_by p s = s -> strip_by p s = s.
Proof. intros Hh Hr. unfold strip_by. now rewrite lstrip_by_id. Qed.

Section AnyLower.

Variable lower_fn : str -> str.

(** Whatever [lower] does, the result has the shape of a sanitized
    name. *)
Lemma sanitize_with_clean (name : str) :
  azure_clean (sanitize_with lower_fn name).
Proof.
  unfold sanitize_with.
  set (s0 := replace _ _ (replace _ _ (lower_fn name))).
  set (s := strip_by is_dash (sub_dash_runs (sub_invalid s0))).
  assert (Forall (fun c => azure_char c = true) s) as Hs1
    by apply strip_dash_azure, sub_dash_runs_azure, sub_invalid_azure.
  assert (no_dash_run s) as Hs2
    by apply strip_dash_no_run, sub_dash_runs_no_run.
  assert (head_kept is_dash s) as Hs3 by apply strip_by_head.
  destruct (Z.gtb_spec (len s) 128) as [Hlong|Hshort].
  - rewrite slice_prefix by lia.
    pose proof (take_drop (Z.to_nat 128) s) as Htd.
    rewrite <- Htd in Hs1, Hs2.
    apply Forall_app in Hs1 as [Hs1 _]. apply no_dash_run_app in Hs2 as [Hs2 _].
    repeat split.
    + now apply rstrip_dash_azure.
    + now apply rstrip_dash_no_run.
    + apply strip_by_fixed; [|apply rstrip_by_idem].
      now apply rstrip_by_head, head_kept_take.
    + pose proof (rstrip_by_length is_dash (take (Z.to_nat 128) s)) as HL.
      rewrite length_take in HL. unfold len. lia.
  - repeat split; try assumption. apply strip_by_idem.
Qed.

Hypothesis lower_fn_fix :
  forall s : str, Forall (fun c => azure_char c = true) s -> lower_fn s = s.

(** A name of that shape is left as it is. *)
Lemma sanitize_with_fixed (s : str) :
  azure_clean s -> sanitize_with lower_fn s = s.
Proof.
  intros (Hc & Hr & Hs & Hl). unfold sanitize_with.
  rewrite (lower_fn_fix s Hc).
  change (lit "_") with [underscore]. change (lit " ") with [space].
  change (lit "-") with [dash].
  assert (forall c, azure_char c = false -> ~ In c s) as Habsent.
  { intros c Ec Hin. rewrite Forall_forall in Hc.
    apply list_elem_of_In in Hin. specialize (Hc c Hin). congruence. }
  rewrite (replace_char_absent underscore) by (apply Habsent; reflexivity).
  rewrite (replace_char_absent space) by (apply Habsent; reflexivity).
  rewrite sub_invalid_id by exact Hc.
  rewrite sub_dash_runs_id by exact Hr.
  rewrite Hs. destruct (Z.gtb_spec (len s) 128); [lia|reflexivity].
Qed.

Lemma sanitize_with_idempotent (name : str) :
  sanitize_with lower_fn (sanitize_with lower_fn name)
  = sanitize_with lower_fn name.
Proof. apply sanitize_with_fixed, sanitize_with_clean. Qed.

End AnyLower.

(** Python's [lower] leaves a string over [[a-z0-9-]] as it is. *)
Lemma lower_azure (s : str) :
  Forall (fun c => azure_char c = true) s -> lower s = s.
Proof.
  unfold lower. induction 1 as [|c r Hc _ IH]; simpl; [reflexivity|].
  rewrite IH. unfold lower_char, azure_char in *.
  destruct (N.leb_spec 65 c), (N.leb_spec c 90), (N.eqb_spec c 304),
    (N.eqb_spec c 8490); simpl; try reflexivity; exfalso;
    destruct (N.leb_spec 97 c), (N.leb_spec c 122), (N.leb_spec 48 c),
      (N.leb_spec c 57), (N.eqb_spec c 45); simpl in Hc;
      try discriminate; lia.
Qed.

End SanitizeFacts.

(** ** Index document ids *)

Example file_doc_id_example :
  file_doc_id (lit "Org_ABC def!!") (lit "report.v1.txt") 12
  = lit "org-abc-def_report_v1_txt_12".
Proof. reflexivity. Qed.

Example web_doc_id_example :
  web_doc_id (lit "acme") (lit "https://a.io/x") 0
  = lit "acme_web_https_a_io_x_0".
Proof. reflexivity. Qed.

Section IdFacts.







End IdFacts.

(** ** What a run keeps: the frame rules *)

Section Keeps.

Context (R : World -> World -> Prop) `{!PreOrder R}.

Lemma keeps_ret {A} (a : A) : keeps R (ret a).
Proof. intros w. reflexivity. Qed.

Lemma keeps_raise {A} (e : exn) : keeps R (@raise A e).
Proof. intros w. reflexivity. Qed.

Lemma keeps_lift {A} (o : outcome A) : keeps R (lift o).
Proof. intros w. reflexivity. Qed.

Lemma keeps_history : keeps R history.
Proof. intros w. reflexivity. Qed.

Lemma keeps_bind {A B} (m : M A) (k : A -> M B) :
  keeps R m -> (forall a, keeps R (k a)) -> keeps R (bind m k).
Proof.
  intros Hm Hk w. unfold bind. specialize (Hm w).
  destruct (m w) as [[a|e|] w1]; simpl in *; [|assumption|assumption].
  etransitivity; [exact Hm|apply Hk].
Qed.

(** The continuation may rely on what the first part returns. *)
Lemma keeps_bind_returns {A B} (Q : A -> Prop) (m : M A) (k : A -> M B) :
  keeps R m -> returns Q m -> (forall a, Q a -> keeps R (k a)) ->
  keeps R (bind m k).
Proof.
  intros Hm HQ Hk w. unfold bind. specialize (Hm w). specialize (HQ w).
  destruct (m w) as [[a|e|] w1]; simpl in *; [|assumption|assumption].
  etransitivity; [exact Hm|]. apply Hk. eapply HQ. reflexivity.
Qed.

Lemma keeps_try_except {A} (m : M A) (handles : exn -> bool)
    (handler : exn -> M A) :
  keeps R m -> (forall e, keeps R (handler e)) ->
  keeps R (try_except m handles handler).
Proof.
  intros Hm Hh w. unfold try_except. specialize (Hm w).
  destruct (m w) as [[a|e|] w1]; simpl in *; try assumption.
  destruct (handles e); [|assumption].
  etransitivity; [exact Hm|apply Hh].
Qed.

End Keeps.

Lemma returns_ret {A} (Q : A -> Prop) (a : A) : Q a -> returns Q (ret a).
Proof. intros H w a' w' [= <- _]. exact H. Qed.

Lemma returns_bind {A B} (Q : B -> Prop) (m : M A) (k : A -> M B) :
  (forall a, returns Q (k a)) -> returns Q (bind m k).
Proof.
  intros Hk w b w'. unfold bind.
  destruct (m w) as [[a|e|] w1]; try discriminate. apply Hk.
Qed.

Lemma returns_bind_post {A B} (P : A -> Prop) (Q : B -> Prop) (m : M A)
    (k : A -> M B) :
  returns P m -> (forall a, P a -> returns Q (k a)) -> returns Q (bind m k).
Proof.
  intros Hm Hk w b w'. unfold bind. specialize (Hm w).
  destruct (m w) as [[a|e|] w1]; try discriminate.
  apply Hk. eapply Hm. reflexivity.
Qed.

(** *** The relations are preorders *)

#[local] Instance calls_extend_preorder (P : call -> bool) :
  PreOrder (calls_extend P).
Proof.
  split.
  - intros w. exists []. split; [now rewrite app_nil_r|constructor].
  - intros w1 w2 w3 (n1 & E1 & F1) (n2 & E2 & F2). exists (n1 ++ n2). split.
    + now rewrite E2, E1, app_assoc.
    + apply Forall_app. now split.
Qed.

#[local] Instance same_stores_preorder : PreOrder same_stores.
Proof.
  split.
  - intros w. now repeat split.
  - intros w1 w2 w3 (A1 & B1 & C1 & D1) (A2 & B2 & C2 & D2).
    repeat split; congruence.
Qed.

#[local] Instance same_indexes_preorder : PreOrder same_indexes.
Proof.
  split; [intros w; reflexivity|].
  intros w1 w2 w3 H1 H2. unfold same_indexes in *. congruence.
Qed.

#[local] Instance same_sources_preorder : PreOrder same_sources.
Proof.
  split; [intros w; split; [reflexivity|lia]|].
  intros w1 w2 w3 [H1 L1] [H2 L2]. split; [congruence|lia].
Qed.

#[local] Instance documents_grow_preorder (P : KnowledgeDocument -> Prop) :
  PreOrder (documents_grow P).
Proof.
  split.
  - intros w. exists []. split; [now rewrite app_nil_r|constructor].
  - intros w1 w2 w3 (n1 & E1 & F1) (n2 & E2 & F2). exists (n1 ++ n2). split.
    + now rewrite E2, E1, app_assoc.
    + apply Forall_app. now split.
Qed.

#[local] Instance call_blind_unobservant R `{!CallBlind R} : Unobservant R.
Proof. intros w w' _. apply call_blind. Qed.

#[local] Instance calls_extend_unobservant P : Unobservant (calls_extend P).
Proof.
  intros w w' E _ _ _ _. exists []. split; [now rewrite app_nil_r|constructor].
Qed.

#[local] Instance same_stores_blind : CallBlind same_stores.
Proof. intros w w' A B C D. now repeat split. Qed.

#[local] Instance same_indexes_blind : CallBlind same_indexes.
Proof. intros w w' A _ _ _. exact A. Qed.

#[local] Instance same_sources_blind : CallBlind same_sources.
Proof. intros w w' _ B _ D. split; [exact B|lia]. Qed.

#[local] Instance documents_grow_blind P : CallBlind (documents_grow P).
Proof.
  intros w w' _ _ C _. exists []. split; [now rewrite app_nil_r|constructor].
Qed.

(** *** The primitive steps *)

Lemma keeps_print R `{!Unobservant R} (line : str) : keeps R (print line).
Proof. intros w. now apply unobservant. Qed.

Lemma keeps_utcnow R `{!Unobservant R} : keeps R utcnow.
Proof. intros w. now apply unobservant. Qed.

Lemma keeps_log_call R `{!CallBlind R} (c : call) : keeps R (log_call c).
Proof. intros w. now apply call_blind. Qed.

Lemma keeps_log_call_extend (P : call -> bool) (c : call) :
  P c = true -> keeps (calls_extend P) (log_call c).
Proof. intros H w. exists [c]. split; [reflexivity|now constructor]. Qed.

Create HintDb frame.
#[local] Hint Resolve calls_extend_preorder same_stores_preorder
  same_indexes_preorder same_sources_preorder documents_grow_preorder
  call_blind_unobservant calls_extend_unobservant same_stores_blind
  same_indexes_blind same_sources_blind documents_grow_blind : frame.
#[local] Hint Resolve keeps_ret keeps_raise keeps_lift keeps_history
  keeps_print keeps_utcnow keeps_log_call keeps_log_call_extend : frame.

(** Walks through a computation, one construct at a time. *)
Ltac frame :=
  repeat first
    [ match goal with
      | |- forall _, _ => intro
      | |- PreOrder _ => typeclasses eauto
      | |- Unobservant _ => typeclasses eauto
      | |- CallBlind _ => typeclasses eauto
      end
    | solve [eauto 3 with frame]
    | apply keeps_log_call_extend; reflexivity
    | match goal with
      | H : forall c, _ -> keeps _ (log_call c) |- keeps _ (log_call _) =>
          apply H; reflexivity
      end
    | apply keeps_bind
    | apply keeps_try_except
    | match goal with
      | |- keeps _ (match ?x with _ => _ end) => destruct x
      end ].

Section ClientFrames.

Variable env : Env.
Context (R : World -> World -> Prop) `{!PreOrder R}.

Lemma keeps_get_search_client (org_id : str) :
  keeps R (get_search_client env org_id).
Proof. unfold get_search_client. frame. Qed.

Lemma keeps_get_openai_client : keeps R (get_openai_client env).
Proof. unfold get_openai_client. frame. Qed.

Lemma keeps_get_blob_service_client : keeps R (get_blob_service_client env).
Proof. unfold get_blob_service_client. frame. Qed.

End ClientFrames.

#[local] Hint Resolve keeps_get_search_client keeps_get_openai_client
  keeps_get_blob_service_client : frame.

(** *** Embeddings and search *)

Section SearchFrames.

Variable env : Env.

Lemma keeps_generate_embeddings R `{!PreOrder R} `{!Unobservant R} (text : str) :
  keeps R (log_call (CallEmbed text)) ->
  keeps R (generate_embeddings env text).
Proof. intros H. unfold generate_embeddings. frame. Qed.

(** [perform_vector_search] calls the embedding service and the index,
    and nothing else. *)
Lemma perform_vector_search_calls (org_id query : str) (k : Z) :
  keeps (calls_extend not_generation) (perform_vector_search env org_id query k).
Proof.
  unfold perform_vector_search. frame.
Qed.

End SearchFrames.

(** *** The record store *)

Section StoreFrames.

Variable env : Env.

Lemma update_first_fst_length id org u l :
  length (fst (update_first id org u l)) = length l.
Proof.
  induction l as [|entry r IH]; simpl; [reflexivity|].
  destruct (source_matches id org entry); simpl; [reflexivity|].
  destruct (update_first id org u r); simpl in *. now rewrite IH.
Qed.

(** The record store never touches the vector index. *)
Lemma process_file_batch_indexes org name data descr config :
  keeps same_indexes (process_file_batch env org name data descr config).
Proof.
  assert (forall id o u, keeps same_indexes (sources_update_one env id o u)) as Hup.
  { intros id o u. unfold sources_update_one. frame.
    intros w. simpl. now destruct (update_first _ _ _ _). }
  assert (forall sid o l,
             keeps same_indexes (KnowledgeDocument_create_batch_documents sid o l))
    as Hcb.
  { intros sid o l. induction l as [|d l IH]; simpl; frame. }
  unfold process_file_batch. frame; intros w; reflexivity.
Qed.

Lemma store_metadata_indexes org dir name descr cs ov batch :
  keeps same_indexes (store_metadata env org dir name descr cs ov batch).
Proof.
  pose proof process_file_batch_indexes as H.
  unfold store_metadata. frame.
Qed.

(** [create_document] makes a document from what it is given. *)
Lemma create_document_returns sid org title content url metadata status :
  returns
    (fun d => kd_status d = status /\
              kd_processedAt d =
                (if value_is status (lit "COMPLETED") then Some (kd_createdAt d)
                 else None))
    (KnowledgeDocument_create_document sid org title content url metadata status).
Proof. intros w d w' [= <- _]. simpl. now split. Qed.

Lemma create_batch_documents_returns sid org data :
  returns (Forall (born_from data))
    (KnowledgeDocument_create_batch_documents sid org data).
Proof.
  assert (forall l, (forall dd, In dd l -> In dd data) ->
            returns (Forall (born_from data))
              (KnowledgeDocument_create_batch_documents sid org l)) as H.
  { induction l as [|doc l IH]; intros Hsub; simpl.
    - apply returns_ret. constructor.
    - eapply returns_bind_post; [apply create_document_returns|].
      intros d [Hst Hpr]. eapply returns_bind_post.
      + apply IH. intros dd Hin. apply Hsub. now right.
      + intros ds Hds. apply returns_ret. constructor; [|exact Hds].
        split.
        * exists doc. split; [apply Hsub; now left|exact Hst].
        * rewrite Hst. exact Hpr. }
  apply H. auto.
Qed.

Lemma create_batch_documents_grow P sid org data :
  keeps (documents_grow P)
    (KnowledgeDocument_create_batch_documents sid org data).
Proof. induction data as [|d l IH]; simpl; frame. Qed.

Lemma store_documents_grow (P : KnowledgeDocument -> Prop) docs :
  Forall P docs -> keeps (documents_grow P) (store_documents docs).
Proof.
  intros HF w. simpl. eexists. split; [reflexivity|].
  remember (next_oid w) as n eqn:E. clear E.
  revert n. induction HF as [|d l Hd _ IH]; intros n; simpl; constructor;
    [exact Hd|apply IH].
Qed.

Lemma documents_insert_many_grow (P : KnowledgeDocument -> Prop) docs :
  Forall P docs -> keeps (documents_grow P) (documents_insert_many env docs).
Proof.
  intros HF.
  assert (forall n, keeps (documents_grow P) (store_documents (take n docs))) as Ht.
  { intros n. apply store_documents_grow. now apply Forall_take. }
  pose proof (store_documents_grow P docs HF) as Hs.
  unfold documents_insert_many. frame.
Qed.

Lemma sources_steps_grow P :
  (forall doc, keeps (documents_grow P) (sources_insert_one env doc)) /\
  (forall id o u, keeps (documents_grow P) (sources_update_one env id o u)).
Proof.
  split; intros; [unfold sources_insert_one|unfold sources_update_one]; frame;
    intros w; simpl; try destruct (update_first _ _ _ _);
    (exists []; split; [now rewrite app_nil_r|constructor]).
Qed.

(** Whatever its outcome, [process_file_batch] leaves the documents it
    found as they were and adds only documents made by [create_document]
    from the batch. *)
Lemma process_file_batch_grow org name data descr config :
  keeps (documents_grow (born_from data))
    (process_file_batch env org name data descr config).
Proof.
  destruct (sources_steps_grow (born_from data)) as [Hins Hup].
  pose proof (create_batch_documents_grow (born_from data)) as Hcb.
  assert (forall sid, keeps (documents_grow (born_from data))
                        (create_documents_batch env sid org data)) as Hb.
  { intros sid. unfold create_documents_batch.
    eapply keeps_bind_returns;
      [typeclasses eauto|apply Hcb|apply create_batch_documents_returns|].
    intros docs Hdocs. now apply documents_insert_many_grow. }
  unfold process_file_batch. frame.
Qed.

Lemma born_from_completed data d :
  Forall no_status data -> born_from data d -> born_completed d.
Proof.
  intros Hns [(dd & Hin & Hst) Hpr]. rewrite Forall_forall in Hns.
  apply list_elem_of_In in Hin. rewrite (Hns dd Hin) in Hst. simpl in Hst.
  split; [exact Hst|]. rewrite Hpr, Hst. reflexivity.
Qed.

Lemma documents_grow_mono (P Q : KnowledgeDocument -> Prop) w w' :
  (forall d, P d -> Q d) -> documents_grow P w w' -> documents_grow Q w w'.
Proof.
  intros HPQ (new & E & HF). exists new. split; [exact E|].
  eapply Forall_impl; [exact HF|]. intros entry. apply HPQ.
Qed.

End StoreFrames.

(** *** The ingestion pipeline *)

Section PipelineFrames.

Variable env : Env.

(** Up to its two writes, the pipeline keeps every relation that does
    not look at the output and that a call other than a write keeps. *)
Context (R : World -> World -> Prop) `{!PreOrder R} `{!Unobservant R}.
Hypothesis keeps_reads : forall c, no_write c = true -> keeps R (log_call c).

Lemma keeps_upload_file_to_org_blob org path :
  keeps R (upload_file_to_org_blob env org path).
Proof. unfold upload_file_to_org_blob. frame. Qed.

Lemma keeps_process_chunks org filename filepath blob ext total chunks :
  forall i docs mongo,
    keeps R (process_chunks env org filename filepath blob ext total i chunks
               docs mongo).
Proof. induction chunks as [|c l IH]; intros; simpl; frame. Qed.

Lemma keeps_process_files fuel org dir cs ov filenames :
  forall acc, keeps R (process_files env fuel org dir cs ov filenames acc).
Proof.
  pose proof keeps_upload_file_to_org_blob as Hb.
  pose proof keeps_process_chunks as Hc.
  induction filenames as [|f l IH]; intros; simpl; frame.
Qed.

Lemma keeps_read_directory fuel org dir cs ov :
  keeps R (read_directory env fuel org dir cs ov).
Proof.
  pose proof keeps_process_files as Hf. unfold read_directory. frame.
Qed.

Lemma keeps_open_run org dir cs ov : keeps R (open_run env org dir cs ov).
Proof. unfold open_run. frame. Qed.

End PipelineFrames.

Section PipelineDocuments.

Variable env : Env.

Lemma process_chunks_no_status org filename filepath blob ext total chunks :
  forall i docs mongo,
    Forall no_status mongo ->
    returns (fun r => Forall no_status (snd r))
      (process_chunks env org filename filepath blob ext total i chunks
         docs mongo).
Proof.
  induction chunks as [|c l IH]; intros i docs mongo Hm; simpl.
  - now apply returns_ret.
  - destruct (truthy (strip c)); [|now apply IH].
    apply returns_bind. intros emb. apply returns_bind. intros now.
    apply IH. apply Forall_app. split; [exact Hm|].
    constructor; [reflexivity|constructor].
Qed.

Lemma process_files_no_status fuel org dir cs ov filenames :
  forall acc,
    Forall no_status (mongo_documents acc) ->
    returns (fun b => Forall no_status (mongo_documents b))
      (process_files env fuel org dir cs ov filenames acc).
Proof.
  induction filenames as [|f l IH]; intros acc Hacc; simpl.
  - now apply returns_ret.
  - destruct (_ || _); [now apply IH|].
    apply returns_bind. intros _. apply returns_bind. intros blob.
    destruct (negb _).
    + apply returns_bind. intros _. now apply IH.
    + apply returns_bind. intros chunks. apply returns_bind. intros _.
      eapply returns_bind_post;
        [apply process_chunks_no_status; exact Hacc|].
      intros r Hr. now apply IH.
Qed.

Lemma read_directory_no_status fuel org dir cs ov :
  returns (fun b => Forall no_status (mongo_documents b))
    (read_directory env fuel org dir cs ov).
Proof.
  unfold read_directory. do 3 (apply returns_bind; intros ?).
  eapply returns_bind_post.
  - apply process_files_no_status. constructor.
  - intros b Hb. apply returns_bind. intros _. now apply returns_ret.
Qed.

Lemma index_write_grow P mode name docs :
  keeps (documents_grow P) (index_write env mode name docs).
Proof.
  unfold index_write. frame. intros w. simpl.
  exists []. split; [now rewrite app_nil_r|constructor].
Qed.

(** The whole run adds only documents born completed, and leaves the
    others alone. *)
Lemma process_and_upload_org_files_grow fuel org dir cs ov :
  keeps (documents_grow born_completed)
    (process_and_upload_org_files env fuel org dir cs ov).
Proof.
  pose proof (index_write_grow born_completed) as Hiw.
  unfold process_and_upload_org_files.
  assert (forall c, no_write c = true ->
            keeps (documents_grow born_completed) (log_call c)) as Hlog
    by (intros; apply keeps_log_call; typeclasses eauto).
  apply keeps_bind;
    [typeclasses eauto|apply keeps_open_run; typeclasses eauto|].
  intros client. apply keeps_try_except; [typeclasses eauto| |frame].
  eapply keeps_bind_returns;
    [typeclasses eauto
    |apply keeps_read_directory; [typeclasses eauto..|exact Hlog]
    |apply read_directory_no_status|].
  intros batch Hns. apply keeps_bind; [typeclasses eauto| |].
  { unfold upload_to_search. frame. }
  intros _. apply keeps_bind; [typeclasses eauto| |frame].
  unfold store_metadata. destruct (mongo_documents batch) as [|dd l] eqn:E;
    [frame|]. rewrite <- E in *.
  apply keeps_try_except; [typeclasses eauto| |frame].
  apply keeps_bind; [typeclasses eauto| |frame].
  intros w. eapply documents_grow_mono;
    [|apply process_file_batch_grow].
  intros d. now apply born_from_completed.
Qed.

End PipelineDocuments.

(** ** The record store, step by step *)

#[local] Arguments lit : simpl never.

Section StoreSteps.

Variable env : Env.

Lemma str_eqb_refl (s : str) : str_eqb s s = true.
Proof. induction s as [|c r IH]; simpl; [reflexivity|]. now rewrite N.eqb_refl. Qed.

(** A source appended under a fresh id is the one an update by that id
    reaches. *)
Lemma update_first_last id org u l s :
  Forall (fun entry : oid * KnowledgeSource => fst entry <> id) l ->
  source_matches id org (id, s) = true ->
  update_first id org u (l ++ [(id, s)]) = (l ++ [(id, apply_updates u s)], true).
Proof.
  intros Hl Hm. induction Hl as [|entry r Hne _ IH]; simpl.
  - simpl in Hm. now rewrite Hm.
  - unfold source_matches at 1. destruct (Nat.eqb_spec (fst entry) id); [contradiction|].
    simpl. now rewrite IH.
Qed.

Lemma create_knowledge_source_sources org name descr type config w sid w' :
  create_knowledge_source env org name descr type config w = (Ok sid, w') ->
  sid = next_oid w /\
  exists s, knowledge_sources w' = knowledge_sources w ++ [(sid, s)] /\
            ks_organizationId s = org /\ ks_name s = name /\
            ks_status s = lit "PENDING".
Proof.
  unfold create_knowledge_source, KnowledgeSource_create_document,
    sources_insert_one, bind, utcnow, ret, history, log_call, print, raise.
  simpl. destruct (insert_one_fault env _ _); [discriminate|].
  simpl. intros [= <- <-]. simpl. split; [reflexivity|].
  eexists. split; [reflexivity|]. simpl. now repeat split.
Qed.


Lemma create_documents_batch_sources sid org data :
  keeps same_sources (create_documents_batch env sid org data).
Proof.
  assert (forall l, keeps same_sources
                      (KnowledgeDocument_create_batch_documents sid org l)) as Hcb.
  { induction l as [|d l IH]; simpl; frame. }
  unfold create_documents_batch, documents_insert_many. frame;
    intros w; (split; simpl; [reflexivity|lia]).
Qed.

End StoreSteps.

(** *** Running a computation whose parts are known *)

Lemma bind_Ok {A B} (m : M A) (k : A -> M B) w a w1 :
  m w = (Ok a, w1) -> bind m k w = k a w1.
Proof. intros H. unfold bind. now rewrite H. Qed.

Lemma bind_Raise {A B} (m : M A) (k : A -> M B) w e w1 :
  m w = (Raise e, w1) -> bind m k w = (Raise e, w1).
Proof. intros H. unfold bind. now rewrite H. Qed.

Lemma try_except_Ok {A} (m : M A) handles handler w a w1 :
  m w = (Ok a, w1) -> try_except m handles handler w = (Ok a, w1).
Proof. intros H. unfold try_except. now rewrite H. Qed.

Lemma try_except_Raise {A} (m : M A) handles handler w e w1 :
  m w = (Raise e, w1) -> handles e = true ->
  try_except m handles handler w = handler e w1.
Proof. intros H He. unfold try_except. now rewrite H, He. Qed.

(** ** The ingestion pipeline, step by step *)

#[local] Arguments is_class : simpl never.

Section PipelineSteps.

Variable env : Env.

Lemma print_Ok (line : str) (w : World) :
  exists w', print line w = (Ok tt, w').
Proof. eexists. reflexivity. Qed.

Lemma get_search_client_Ok (org : str) (w : World) :
  search_configured env ->
  get_search_client env org w = (Ok (sanitize_azure_name org), w).
Proof.
  intros [He Hk]. unfold get_search_client. now rewrite He, Hk.
Qed.

Lemma open_run_Ok org dir cs ov w :
  search_configured env ->
  exists w',
    open_run env org dir cs ov w = (Ok (sanitize_azure_name org), w') /\
    calls w' = calls w.
Proof.
  intros Hcfg. unfold open_run, bind, print.
  rewrite get_search_client_Ok by exact Hcfg. eexists. split; reflexivity.
Qed.

Lemma get_container_client_Ok org w :
  blob_store_up env ->
  exists w', get_container_client env org w = (Ok (sanitize_azure_name org), w').
Proof.
  intros (Hcfg & _ & Hcreate & _).
  unfold get_container_client, get_blob_service_client.
  assert (forall (w0 : World),
            (if negb (unset (AZURE_STORAGE_CONNECTION_STRING env)) then ret tt
             else if negb (unset (AZURE_STORAGE_ACCOUNT_NAME env)) then ret tt
             else raise (Exn ValueError
                     (lit "Either AZURE_STORAGE_CONNECTION_STRING or AZURE_STORAGE_ACCOUNT_NAME must be set")))
              w0 = (Ok tt, w0)) as Hsvc.
  { intros w0. destruct Hcfg as [-> | E]; [reflexivity|].
    rewrite E. now destruct (negb _). }
  rewrite (bind_Ok _ _ _ _ _ (Hsvc w)).
  unfold bind at 1, try_except, bind, history, log_call. simpl.
  specialize (Hcreate (calls w) (sanitize_azure_name org)).
  destruct (container_create env (calls w) (sanitize_azure_name org)) as [e|].
  - unfold raise. rewrite Hcreate. eexists. reflexivity.
  - eexists. reflexivity.
Qed.

Lemma upload_file_to_org_blob_Ok org path w :
  blob_store_up env ->
  exists w', upload_file_to_org_blob env org path w = (Ok (basename path), w').
Proof.
  intros Hup. pose proof Hup as (_ & Hex & _ & Hput).
  unfold upload_file_to_org_blob. rewrite Hex. simpl.
  destruct (get_container_client_Ok org w Hup) as (w1 & E1).
  rewrite (bind_Ok _ _ _ _ _ E1).
  unfold bind, history, log_call. simpl. rewrite Hput.
  eexists. reflexivity.
Qed.

(** Over names that are all skipped or blank, the loop returns the batch
    it was given. *)
Lemma process_files_blank fuel org dir cs ov filenames :
  blob_store_up env ->
  Forall (blank_or_skipped env dir) filenames ->
  forall acc w,
    exists w', process_files env fuel org dir cs ov filenames acc w = (Ok acc, w').
Proof.
  intros Hup HF. induction HF as [|f l Hf _ IH]; intros acc w; simpl.
  - eexists. reflexivity.
  - fold (skipped env dir f). destruct (skipped env dir f) eqn:Es; [apply IH|].
    destruct Hf as [Hf|Hf]; [congruence|].
    destruct (print_Ok (lit "Processing file: " ++ f ++ lit " ("
                        ++ lower (splitext_ext f) ++ lit ")") w) as (w1 & E1).
    rewrite (bind_Ok _ _ _ _ _ E1).
    destruct (upload_file_to_org_blob_Ok org (path_join dir f) w1 Hup)
      as (w2 & E2).
    rewrite (bind_Ok _ _ _ _ _ E2).
    fold (blank env dir f). rewrite Hf.
    destruct (print_Ok (lit "Warning: No content extracted from " ++ f) w2)
      as (w3 & E3).
    rewrite (bind_Ok _ _ _ _ _ E3). apply IH.
Qed.

Lemma read_directory_blank fuel org dir cs ov filenames w :
  blob_store_up env ->
  os_listdir env (calls w) dir = Ok filenames ->
  Forall (blank_or_skipped env dir) filenames ->
  exists w',
    read_directory env fuel org dir cs ov w
    = (Ok {| documents := []; mongo_documents := []; processed_files := 0 |}, w').
Proof.
  intros Hup Hls HF. unfold read_directory.
  erewrite (bind_Ok history) by reflexivity. cbv beta.
  erewrite (bind_Ok (log_call _)) by reflexivity. cbv beta.
  erewrite (bind_Ok (lift _)) by (unfold lift; rewrite Hls; reflexivity).
  cbv beta.
  match goal with
  | |- context [bind (process_files env fuel org dir cs ov filenames ?acc) _ ?w0] =>
      destruct (process_files_blank fuel org dir cs ov filenames Hup HF acc w0)
        as (w1 & E1)
  end.
  rewrite (bind_Ok _ _ _ _ _ E1). eexists. reflexivity.
Qed.

(** With nothing to write, what follows the loop prints two lines. *)
Lemma empty_batch_tail org client dir name descr cs ov w :
  let empty := {| documents := []; mongo_documents := []; processed_files := 0 |} in
  exists w',
    bind (upload_to_search env org client (documents empty))
      (fun _ => bind (store_metadata env org dir name descr cs ov empty)
                  (fun _ => ret (@None (list nat)))) w = (Ok None, w') /\
    same_stores w w' /\ calls w' = calls w.
Proof.
  simpl. eexists. split; [reflexivity|]. now repeat split.
Qed.

End PipelineSteps.

(** ** Ordinals follow positions *)

Lemma enumerate_cons {A : Type} (i : nat) (a : A) (l : list A) :
  enumerate i (a :: l) = (i, a) :: enumerate (S i) l.
Proof. reflexivity. Qed.

(** The ordinal paired with a chunk is its position in the list. *)
Lemma enumerate_lookup {A : Type} (l : list A) (i k : nat) (a : A) :
  In (k, a) (enumerate i l) <-> (i <= k)%nat /\ l !! (k - i)%nat = Some a.
Proof.
  revert i. induction l as [|x l IH]; intros i.
  - simpl. split; [intros []|intros [_ H]; discriminate].
  - rewrite enumerate_cons. simpl. rewrite IH. split.
    + intros [[= <- <-]|[Hle Hl]].
      * split; [lia|]. now rewrite Nat.sub_diag.
      * split; [lia|]. replace (k - i)%nat with (S (k - S i)) by lia.
        exact Hl.
    + intros [Hle Hl]. destruct (Nat.eq_dec k i) as [->|Hne].
      * rewrite Nat.sub_diag in Hl. injection Hl as ->. now left.
      * right. split; [lia|].
        replace (k - i)%nat with (S (k - S i)) in Hl by lia. exact Hl.
Qed.

Lemma Forall2_map_eq {A B C : Type} (f : A -> C) (g : B -> C) (l : list A)
    (l' : list B) :
  Forall2 (fun a b => f a = g b) l l' -> map f l = map g l'.
Proof. induction 1; simpl; congruence. Qed.

Section Ordinals.

Variable env : Env.

(** The loop over the chunks of a file appends, for each chunk it keeps
    and in order, the index document and the metadata record of that
    chunk's ordinal. *)
Lemma process_chunks_ordinals org filename filepath blob ext total chunks :
  forall i docs mongo w r w',
    process_chunks env org filename filepath blob ext total i chunks docs mongo
      w = (Ok r, w') ->
    exists new newm,
      fst r = docs ++ new /\ snd r = mongo ++ newm /\
      Forall2 (fun ic d => exists embedding,
                 d = index_document org filename blob (snd ic) (fst ic)
                       embedding)
        (kept (enumerate i chunks)) new /\
      Forall2 (fun ic dd => exists now,
                 dd = mongo_document org filename filepath blob ext (snd ic)
                        (fst ic) total now)
        (kept (enumerate i chunks)) newm.
Proof.
  induction chunks as [|c l IH]; intros i docs mongo w r w'.
  - simpl. intros [= <- _]. exists [], []. simpl.
    rewrite !app_nil_r. repeat split; constructor.
  - rewrite enumerate_cons. simpl. unfold kept. simpl.
    destruct (truthy (strip c)) eqn:T.
    + unfold bind at 1.
      destruct (generate_embeddings env c w) as [[emb|e|] w1]; try discriminate.
      unfold bind at 1. unfold utcnow at 1. simpl.
      intros H. apply IH in H as (new & newm & Hd & Hm & F1 & F2).
      eexists (_ :: new), (_ :: newm).
      rewrite Hd, Hm, <- !app_assoc. simpl.
      split; [reflexivity|]. split; [reflexivity|].
      split; constructor; try assumption; eexists; reflexivity.
    + intros H. now apply IH in H.
Qed.


End Ordinals.

(** ** The chunker: termination, chunk shape, coverage, short texts *)

(** A loop state whose window is pulled back to a space no more than
    [overlap] characters after [start] is reproduced by the next
    iteration: the loop never leaves it. *)
Lemma chunk_loop_stuck (text : str) (chunk_size overlap start : Z) :
  start < len text ->
  window_end text chunk_size start - overlap = start ->
  forall (fuel : nat) (chunks : list str),
    chunk_loop fuel text chunk_size overlap start chunks = None.
Proof.
  intros Hlt Hfix. induction fuel as [|fuel IH]; intros chunks; simpl;
    [reflexivity|].
  destruct (Z.ltb_spec start (len text)); [|lia].
  rewrite Hfix. destruct (Z.geb_spec start (len text)); [lia|].
  apply IH.
Qed.

(** C1 (failing input). With [chunk_size = 3 > overlap = 1 >= 0] and the
    text ["a bcd"], the first window [0, 3) is pulled back to the space at
    index 1, the chunk ["a"] is stored and the next start is [1 - 1 = 0]
    again: whatever the number of iterations allowed, [chunk_text] has not
    returned. *)
Theorem chunk_text_stalls :
  forall fuel : nat, chunk_text fuel (lit "a bcd") 3 1 = None.
Proof.
  intros fuel. unfold chunk_text.
  change (len (lit "a bcd") <=? 3) with false. cbv iota.
  apply chunk_loop_stuck; reflexivity.
Qed.

Lemma chunk_loop_next (text : str) (chunk_size overlap start : Z)
    (fuel : nat) (chunks : list str) :
  start < len text ->
  window_end text chunk_size start - overlap < len text ->
  chunk_loop (S fuel) text chunk_size overlap start chunks
  = chunk_loop fuel text chunk_size overlap
      (window_end text chunk_size start - overlap)
      (if truthy (strip (slice text start (window_end text chunk_size start)))
       then chunks ++ [strip (slice text start (window_end text chunk_size start))]
       else chunks).
Proof.
  intros Hlt Hnext. simpl.
  destruct (Z.ltb_spec start (len text)); [|lia].
  destruct (Z.geb_spec (window_end text chunk_size start - overlap) (len text));
    [lia|reflexivity].
Qed.

(** The same with the default configuration (800, 100): a short first
    word followed by 900 characters without a space. The first window is
    pulled back to the space at index 3, the start falls to -97, then to
    -101, and stays there. *)
Lemma chunk_text_stalls_default :
  forall fuel : nat,
    chunk_text fuel (lit "See " ++ repeat 120%N 900) 800 100 = None.
Proof.
  intros fuel. set (text := lit "See " ++ repeat 120%N 900).
  assert (len text = 904) as Hlen by (vm_compute; reflexivity).
  assert (window_end text 800 0 - 100 = -97) as H0 by (vm_compute; reflexivity).
  assert (window_end text 800 (-97) - 100 = -101) as H1
    by (vm_compute; reflexivity).
  assert (window_end text 800 (-101) - 100 = -101) as H2
    by (vm_compute; reflexivity).
  unfold chunk_text. rewrite Hlen. change (904 <=? 800) with false. cbv iota.
  destruct fuel as [|fuel]; [reflexivity|].
  rewrite chunk_loop_next by (rewrite ?H0, Hlen; lia). rewrite H0.
  destruct fuel as [|fuel]; [reflexivity|].
  rewrite chunk_loop_next by (rewrite ?H1, Hlen; lia). rewrite H1.
  apply chunk_loop_stuck; [rewrite Hlen; lia|exact H2].
Qed.



(** The windows of that run start at 0, 5 and 11, although a space stands
    at position 1, inside the overlap. *)
Example chunk_text_long_starts :
  window_starts 10 (lit "a bc de fghij klmno") 10 2 0 = [0; 5; 11] /\
  char_at (lit "a bc de fghij klmno") 1 = Some space.
Proof. split; vm_compute; reflexivity. Qed.


(** C3 (amended). When [len(text) <= chunk_size], [chunk_text] returns
    exactly one element, the input text itself, not trimmed; that element
    is the trimmed text exactly when the text has no leading or trailing
    whitespace. *)
Theorem chunk_text_short (text : str) (chunk_size overlap : Z) (fuel : nat) :
  len text <= chunk_size ->
  chunk_text fuel text chunk_size overlap = Some [text] /\
  (chunk_text fuel text chunk_size overlap = Some [strip text] <->
   strip text = text).
Proof.
  intros Hshort. unfold chunk_text.
  destruct (Z.leb_spec (len text) chunk_size); [|lia].
  split; [reflexivity|]. split.
  - intros [= E]. now symmetry.
  - now intros ->.
Qed.

Lemma chunk_text_short_witness :
  chunk_text 0 (lit " a") 800 100 = Some [lit " a"] /\
  (chunk_text 0 (lit " a") 800 100 = Some [strip (lit " a")] <->
   strip (lit " a") = lit " a").
Proof.
  apply (chunk_text_short (lit " a") 800 100 0).
  vm_compute. discriminate.
Defined.

(** C3 (counterexample). The two-character text [" a"] fits in one chunk
    of 800; the element returned is [" a"], while the trimmed text is
    ["a"]. *)
Lemma chunk_text_short_untrimmed :
  len (lit " a") <= 800 /\
  strip (lit " a") = lit "a" /\
  chunk_text 1 (lit " a") 800 100 <> Some [strip (lit " a")].
Proof.
  split; [vm_compute; discriminate|]. split; [reflexivity|].
  vm_compute. discriminate.
Qed.

(** C4. [sanitize_azure_name] is idempotent: sanitizing a sanitized name
    gives that name back. *)
Theorem sanitize_azure_name_idempotent :
  forall x : str,
    sanitize_azure_name (sanitize_azure_name x) = sanitize_azure_name x.
Proof.
  intros x. unfold sanitize_azure_name.
  apply sanitize_with_idempotent. exact lower_azure.
Qed.




(** ** Retrieval *)

(** C6. If the similarity search returns no result, [search_documents]
    returns the fixed message
    ["I couldn't find any relevant information in organization '<org_id>' documents."]
    in the world the search left: what was called in between is the
    embedding service and the index, never the generation service. *)
Theorem search_documents_no_results (env : Env) (org_id query : str) (k : Z)
    (w w' : World) :
  perform_vector_search env org_id query k w = (Ok [], w') ->
  search_documents env org_id query k w
  = (Ok (lit "I couldn't find any relevant information in organization '"
         ++ org_id ++ lit "' documents."), w') /\
  calls_extend not_generation w w'.
Proof.
  intros Hsearch. split.
  - unfold search_documents, bind. rewrite Hsearch. reflexivity.
  - pose proof (perform_vector_search_calls env org_id query k w) as H.
    now rewrite Hsearch in H.
Qed.

Lemma search_documents_no_results_witness :
  search_documents (sample_env true) (lit "acme") (lit "unrelated query") 3
    empty_world
  = (Ok (lit "I couldn't find any relevant information in organization '"
         ++ lit "acme" ++ lit "' documents."),
     snd (perform_vector_search (sample_env true) (lit "acme")
            (lit "unrelated query") 3 empty_world)) /\
  calls_extend not_generation empty_world
    (snd (perform_vector_search (sample_env true) (lit "acme")
            (lit "unrelated query") 3 empty_world)).
Proof.
  apply (search_documents_no_results (sample_env true) (lit "acme")
           (lit "unrelated query") 3 empty_world).
  reflexivity.
Defined.

(** ** The record store on failure *)



(** ** The ingestion run *)

(** C7 (amended). When the search client is configured, the blob store
    takes every upload, and every name the directory lists is skipped or
    is a file with blank text, [process_and_upload_org_files] returns
    [None] without raising; the vector index and the record store are as
    they were, and none of the calls made is a write to either. *)
Theorem blank_run_writes_nothing (env : Env) (fuel : nat) (org dir : str)
    (cs ov : Z) (w : World) (filenames : list str) :
  search_configured env ->
  blob_store_up env ->
  os_listdir env (calls w) dir = Ok filenames ->
  Forall (blank_or_skipped env dir) filenames ->
  exists w',
    process_and_upload_org_files env fuel org dir cs ov w = (Ok None, w') /\
    same_stores w w' /\ calls_extend no_write w w'.
Proof.
  intros Hcfg Hup Hls HF.
  destruct (open_run_Ok env org dir cs ov w Hcfg) as (wa & Ea & Hca).
  rewrite <- Hca in Hls.
  destruct (read_directory_blank env fuel org dir cs ov filenames wa Hup Hls HF)
    as (wb & Eb).
  destruct (empty_batch_tail env org (sanitize_azure_name org) dir
              (source_name_of dir) (source_description_of dir) cs ov wb)
    as (wc & Ec & Hsc & Hcc).
  exists wc. split; [|split].
  - unfold process_and_upload_org_files.
    rewrite (bind_Ok _ _ _ _ _ Ea). cbv zeta.
    apply try_except_Ok. rewrite (bind_Ok _ _ _ _ _ Eb). exact Ec.
  - assert (forall c, no_write c = true -> keeps same_stores (log_call c))
      as Hlog by (intros; apply keeps_log_call; typeclasses eauto).
    pose proof (keeps_open_run env same_stores org dir cs ov w) as H1.
    pose proof (keeps_read_directory env same_stores Hlog fuel org dir cs ov wa)
      as H2.
    rewrite Ea in H1. rewrite Eb in H2. simpl in H1, H2.
    etransitivity; [exact H1|]. etransitivity; [exact H2|exact Hsc].
  - assert (forall c, no_write c = true ->
              keeps (calls_extend no_write) (log_call c)) as Hlog
      by (intros; now apply keeps_log_call_extend).
    pose proof (keeps_open_run env (calls_extend no_write) org dir cs ov w) as H1.
    pose proof (keeps_read_directory env (calls_extend no_write) Hlog fuel org
                  dir cs ov wa) as H2.
    rewrite Ea in H1. rewrite Eb in H2. simpl in H1, H2.
    etransitivity; [exact H1|]. etransitivity; [exact H2|].
    exists []. split; [now rewrite app_nil_r|constructor].
Qed.

Lemma blank_run_writes_nothing_witness :
  exists w',
    process_and_upload_org_files blank_env 10 (lit "acme") (lit "docs") 800 100
      empty_world = (Ok None, w') /\
    same_stores empty_world w' /\ calls_extend no_write empty_world w'.
Proof.
  apply (blank_run_writes_nothing blank_env 10 (lit "acme") (lit "docs") 800 100
           empty_world [lit "a.txt"; lit "old"; lit "logo.png"]).
  - split; reflexivity.
  - split; [left; reflexivity|]. split; [reflexivity|]. split.
    + intros h name. exact I.
    + reflexivity.
  - reflexivity.
  - constructor; [right; reflexivity|].
    constructor; [left; reflexivity|].
    constructor; [left; reflexivity|constructor].
Defined.

(** C7 (counterexample). A run over a directory that holds only a blank
    file, a sub-directory and a picture produces no chunk; what the call
    returns is [None], not the empty list of document ids. *)
Lemma blank_run_returns_none :
  Forall (blank_or_skipped blank_env (lit "docs"))
    [lit "a.txt"; lit "old"; lit "logo.png"] /\
  fst (process_and_upload_org_files blank_env 10 (lit "acme") (lit "docs")
         800 100 empty_world) <> Ok (Some []).
Proof.
  split; [|vm_compute; discriminate].
  constructor; [right; reflexivity|].
  constructor; [left; reflexivity|].
  constructor; [left; reflexivity|constructor].
Qed.

(** C9 (amended). Let a run have opened, read its directory, and written
    its documents to the vector index, and let the record-store write
    then raise [e]. The run does not raise: it returns [None], as a run
    without failure does. The vector index is as the write left it; the
    failure is reported in two printed lines only, and the record store
    is as the failed write left it. *)
Theorem metadata_failure_swallowed (env : Env) (fuel : nat) (org dir : str)
    (cs ov : Z) (w w0 w1 w2 w3 : World) (client : str) (batch : Batch)
    (e : exn) :
  open_run env org dir cs ov w = (Ok client, w0) ->
  read_directory env fuel org dir cs ov w0 = (Ok batch, w1) ->
  upload_to_search env org client (documents batch) w1 = (Ok tt, w2) ->
  mongo_documents batch <> [] ->
  process_file_batch env org (source_name_of dir) (mongo_documents batch)
    (Some (source_description_of dir))
    (Some (batch_configuration dir cs ov batch)) w2 = (Raise e, w3) ->
  exists w',
    process_and_upload_org_files env fuel org dir cs ov w = (Ok None, w') /\
    indexes w' = indexes w2 /\
    stdout w' = stdout w3 ++ metadata_failure_lines e /\
    calls w' = calls w3 /\
    knowledge_sources w' = knowledge_sources w3 /\
    knowledge_documents w' = knowledge_documents w3.
Proof.
  intros Hopen Hread Hup Hne Hstore.
  pose proof (process_file_batch_indexes env org (source_name_of dir)
                (mongo_documents batch) (Some (source_description_of dir))
                (Some (batch_configuration dir cs ov batch)) w2) as Hix.
  rewrite Hstore in Hix. unfold same_indexes in Hix. simpl in Hix.
  eexists. split; [|split; [|split; [|split; [|split]]]].
  - unfold process_and_upload_org_files.
    rewrite (bind_Ok _ _ _ _ _ Hopen). cbv zeta.
    apply try_except_Ok.
    rewrite (bind_Ok _ _ _ _ _ Hread), (bind_Ok _ _ _ _ _ Hup).
    unfold store_metadata. destruct (mongo_documents batch) as [|dd l] eqn:E;
      [contradiction|]. rewrite <- E in Hstore |- *.
    erewrite (bind_Ok (try_except _ _ _)); [reflexivity|].
    erewrite try_except_Raise;
      [|apply bind_Raise; exact Hstore|reflexivity].
    unfold bind, print. reflexivity.
  - simpl. exact Hix.
  - simpl. now rewrite <- app_assoc.
  - reflexivity.
  - reflexivity.
  - reflexivity.
Qed.

Lemma metadata_failure_swallowed_witness :
  exists w',
    process_and_upload_org_files (sample_env false) 10 (lit "acme") (lit "docs")
      800 100 empty_world = (Ok None, w') /\
    indexes w' = indexes (snd sample_uploaded) /\
    stdout w' = stdout (snd sample_refused) ++ metadata_failure_lines store_down /\
    calls w' = calls (snd sample_refused) /\
    knowledge_sources w' = knowledge_sources (snd sample_refused) /\
    knowledge_documents w' = knowledge_documents (snd sample_refused).
Proof.
  apply (metadata_failure_swallowed (sample_env false) 10 (lit "acme")
           (lit "docs") 800 100 empty_world (snd sample_opened)
           (snd sample_read) (snd sample_uploaded) (snd sample_refused)
           (lit "acme") sample_batch store_down).
  - vm_compute. reflexivity.
  - vm_compute. reflexivity.
  - vm_compute. reflexivity.
  - discriminate.
  - vm_compute. reflexivity.
Defined.

(** C9 (counterexample). Over the same directory, the run in which the
    record store refuses the documents and the run in which it takes them
    both write the same document to the vector index, and both hand
    [None] back to the caller: the failure, which left the Knowledge
    Source [FAILED] and no Knowledge Document, shows in neither the value
    returned nor an exception. *)
Lemma metadata_failure_masked :
  indexes (snd failing_run) = indexes (snd working_run) /\
  indexes (snd failing_run) <> ∅ /\
  map (fun entry => ks_status (snd entry)) (knowledge_sources (snd failing_run))
    = [lit "FAILED"] /\
  knowledge_documents (snd failing_run) = [] /\
  fst failing_run = Ok None /\
  fst failing_run = fst working_run.
Proof.
  split; [vm_compute; reflexivity|].
  split; [vm_compute; discriminate|].
  repeat split; vm_compute; reflexivity.
Qed.

(** ** Knowledge Documents *)

(** C10. Whatever its outcome, [process_file_batch] leaves the Knowledge
    Documents it found as they were and adds only documents created by
    [create_document] from the batch: each has the status its input
    supplied, [COMPLETED] when it supplied none, and its processed-at
    time is its creation time exactly when that status is [COMPLETED].
    The ingestion pipeline never supplies a status: over a whole run of
    [process_and_upload_org_files], whatever its outcome, every document
    added is [COMPLETED] with processed-at equal to its creation time,
    and no document already stored is altered. *)
Theorem knowledge_documents_born_completed (env : Env) :
  (forall org name data descr config w,
      documents_grow (born_from data) w
        (snd (process_file_batch env org name data descr config w))) /\
  (forall fuel org dir cs ov w,
      documents_grow born_completed w
        (snd (process_and_upload_org_files env fuel org dir cs ov w))).
Proof.
  split; intros.
  - apply process_file_batch_grow.
  - apply process_and_upload_org_files_grow.
Qed.

(** * Further properties *)

(** ** The name sanitizer *)

(** X1. Whatever the name, [sanitize_azure_name] returns a string over
    [[a-z0-9-]] with no two dashes in a row, no dash at either end, and at
    most 128 characters. *)
Theorem sanitize_azure_name_shape :
  forall name : str, azure_clean (sanitize_azure_name name).
Proof. intros name. apply sanitize_with_clean. Qed.

Lemma replace_char_map (c d : N) (s : str) :
  replace [c] [d] s = map (fun x => if (x =? c)%N then d else x) s.
Proof.
  unfold replace. induction s as [|x r IH]; simpl; [reflexivity|].
  rewrite N.eqb_sym. destruct (x =? c)%N; simpl; now rewrite IH.
Qed.

(** The two [replace] calls of the sanitizer change nothing that the
    regular expression after them would not change. *)
Lemma sub_invalid_after_replaces (s : str) :
  sub_invalid (replace (lit " ") (lit "-") (replace (lit "_") (lit "-") s))
  = sub_invalid s.
Proof.
  change (lit "_") with [underscore]. change (lit " ") with [space].
  change (lit "-") with [dash]. rewrite !replace_char_map.
  unfold sub_invalid. rewrite !map_map. apply map_ext. intros x.
  destruct (N.eqb_spec x underscore) as [->|H1]; [reflexivity|].
  destruct (N.eqb_spec x space) as [->|H2]; reflexivity.
Qed.

Lemma sanitize_azure_name_dashed (name : str) :
  sanitize_azure_name name
  = (let s := strip_by is_dash (sub_dash_runs (dashed name)) in
     if len s >? 128 then rstrip_by is_dash (slice s 0 128) else s).
Proof.
  unfold sanitize_azure_name, sanitize_with, dashed.
  now rewrite sub_invalid_after_replaces.
Qed.

(** X2. Two tenant names that agree once lower-cased and with every
    character outside [[a-z0-9-]] turned into a dash are sanitized to the
    same resource name: they share one index and one container. *)
Theorem sanitize_azure_name_merges (a b : str) :
  dashed a = dashed b -> sanitize_azure_name a = sanitize_azure_name b.
Proof. intros H. rewrite !sanitize_azure_name_dashed. now rewrite H. Qed.

Lemma sanitize_azure_name_merges_witness :
  sanitize_azure_name (lit "Org A") = sanitize_azure_name (lit "org_a").
Proof. apply (sanitize_azure_name_merges (lit "Org A") (lit "org_a")). reflexivity. Defined.

Lemma lstrip_by_all (p : N -> bool) (s : str) :
  Forall (fun c => p c = true) s -> lstrip_by p s = [].
Proof. induction 1 as [|c r Hc _ IH]; simpl; [reflexivity|]. now rewrite Hc. Qed.

Lemma sub_dash_runs_dashes (s : str) :
  Forall (fun c => is_dash c = true) s ->
  Forall (fun c => is_dash c = true) (sub_dash_runs s).
Proof.
  induction 1 as [|c r Hc _ IH]; simpl; [constructor|].
  destruct (is_dash c && _); [exact IH|now constructor].
Qed.

Lemma lower_char_no_name_char (c : N) :
  name_char c = false ->
  lower_char c = [c] /\ (azure_char c = true -> c = dash).
Proof.
  unfold name_char, lower_char, azure_char, dash. intros H.
  destruct (N.leb_spec 65 c), (N.leb_spec c 90), (N.leb_spec 97 c),
    (N.leb_spec c 122), (N.leb_spec 48 c), (N.leb_spec c 57),
    (N.eqb_spec c 304), (N.eqb_spec c 8490), (N.eqb_spec c 45);
    simpl in *; try discriminate; try lia; split; try reflexivity;
    try discriminate; intros _; assumption.
Qed.

Lemma dashed_no_name_char (name : str) :
  Forall (fun c => name_char c = false) name ->
  Forall (fun c => is_dash c = true) (dashed name).
Proof.
  unfold dashed, lower, sub_invalid.
  induction 1 as [|c r Hc _ IH]; simpl; [constructor|].
  destruct (lower_char_no_name_char c Hc) as [-> Hd]. simpl.
  constructor; [|exact IH].
  destruct (azure_char c) eqn:E; [|reflexivity].
  now rewrite (Hd eq_refl).
Qed.

(** X3. A name in which no character is an ASCII letter or digit (nor
    U+0130, nor the Kelvin sign) is sanitized to the empty string. *)
Theorem sanitize_azure_name_empty (name : str) :
  Forall (fun c => name_char c = false) name -> sanitize_azure_name name = [].
Proof.
  intros H. rewrite sanitize_azure_name_dashed.
  unfold strip_by. rewrite lstrip_by_all; [reflexivity|].
  now apply sub_dash_runs_dashes, dashed_no_name_char.
Qed.

Lemma sanitize_azure_name_empty_witness :
  sanitize_azure_name (lit "!! ??_--") = [].
Proof.
  apply (sanitize_azure_name_empty (lit "!! ??_--")).
  repeat (constructor; [reflexivity|]). constructor.
Defined.

(** ** The chunker where it does make progress *)

Section ChunkerProgress.

Variable text : str.
Variables chunk_size overlap : Z.

(** When every window that starts inside the text moves the start
    forward, the loop leaves within [len(text) - start] further
    iterations. *)
Lemma chunk_loop_returns :
  (forall s, 0 <= s < len text ->
             s < window_end text chunk_size s - overlap) ->
  forall (fuel : nat) (start : Z) (chunks : list str),
    0 <= start ->
    (Z.to_nat (len text - start) < fuel)%nat ->
    exists res, chunk_loop fuel text chunk_size overlap start chunks = Some res.
Proof.
  intros Hstep. induction fuel as [|fuel IH]; intros start chunks Hs Hf;
    [lia|]. simpl.
  destruct (Z.ltb_spec start (len text)) as [Hlt|Hge]; [|eexists; reflexivity].
  specialize (Hstep start ltac:(lia)).
  destruct (Z.geb_spec (window_end text chunk_size start - overlap) (len text));
    [eexists; reflexivity|].
  apply IH; lia.
Qed.

Lemma rfind_absent (c : N) (i j : Z) : ~ In c text -> rfind text c i j = -1.
Proof.
  intros Hc. unfold rfind.
  destruct (last_index c (slice text i j)) as [k|] eqn:E; [|reflexivity].
  exfalso. apply last_index_lt in E as [_ E]. apply Hc.
  unfold slice in E. apply lookup_take_Some in E as [E _].
  rewrite lookup_drop in E. apply list_elem_of_In.
  eapply list_elem_of_lookup_2. exact E.
Qed.

Lemma window_end_no_space (start : Z) :
  ~ In space text -> 0 <= start ->
  window_end text chunk_size start = start + chunk_size.
Proof.
  intros Hc Hs. unfold window_end. cbv zeta. rewrite rfind_absent by exact Hc.
  destruct (_ <? _); [|reflexivity].
  destruct (Z.gtb_spec (-1) start); [lia|reflexivity].
Qed.

End ChunkerProgress.

(** X4. With [chunk_size > overlap >= 0], [chunk_text] returns, within
    [len(text) + 1] iterations of its loop, whenever the overlap is 0 or
    the text contains no space. *)
Theorem chunk_text_returns (text : str) (chunk_size overlap : Z) :
  0 <= overlap < chunk_size ->
  overlap = 0 \/ ~ In space text ->
  exists res,
    chunk_text (S (Z.to_nat (len text))) text chunk_size overlap = Some res.
Proof.
  intros Hcfg Hcase. unfold chunk_text.
  destruct (_ <=? _); [eexists; reflexivity|].
  apply chunk_loop_returns; [|lia|lia].
  intros s Hs. destruct Hcase as [-> | Hns].
  - pose proof (window_end_bounds text chunk_size s ltac:(lia) ltac:(lia)). lia.
  - rewrite window_end_no_space by (assumption || lia). lia.
Qed.

Lemma chunk_text_returns_witness :
  exists res,
    chunk_text (S (Z.to_nat (len (lit "a bcd")))) (lit "a bcd") 3 0 = Some res.
Proof.
  apply (chunk_text_returns (lit "a bcd") 3 0); [lia|left; reflexivity].
Defined.

(** ** Texts without whitespace *)

Lemma rstrip_by_none (p : N -> bool) (s : str) :
  Forall (fun c => p c = false) s -> rstrip_by p s = s.
Proof.
  induction 1 as [|c r Hc _ IH]; simpl; [reflexivity|].
  rewrite IH. destruct r; [now rewrite Hc|reflexivity].
Qed.

Lemma strip_by_none (p : N -> bool) (s : str) :
  Forall (fun c => p c = false) s -> strip_by p s = s.
Proof.
  intros H. apply strip_by_fixed; [|now apply rstrip_by_none].
  destruct H as [|c r Hc _]; [exact I|exact Hc].
Qed.

Lemma slice_Forall (P : N -> Prop) (s : str) (i j : Z) :
  Forall P s -> Forall P (slice s i j).
Proof. intros H. unfold slice. now apply Forall_take, Forall_drop. Qed.

(** The text up to [a], followed by [text[a:b]], is the text up to [b]. *)
Lemma take_slice (s : str) (a b : Z) :
  0 <= a <= b ->
  take (Z.to_nat a) s ++ slice s a b = take (Z.to_nat b) s.
Proof.
  intros Hab. pose proof (len_nonneg s) as Hn. unfold slice, adjust.
  destruct (Z.ltb_spec a 0), (Z.ltb_spec b 0); try lia.
  unfold len in *.
  destruct (Z.le_gt_cases a (Z.of_nat (length s))) as [Ha|Ha].
  - rewrite (Z.min_l a) by lia. rewrite take_take_drop.
    destruct (Z.le_gt_cases b (Z.of_nat (length s))) as [Hb|Hb].
    + rewrite (Z.min_l b) by lia. f_equal. lia.
    + rewrite (Z.min_r b) by lia. rewrite !take_ge by lia. reflexivity.
  - rewrite (Z.min_r a), (Z.min_r b) by lia.
    rewrite (take_ge s (Z.to_nat a)), (take_ge s (Z.to_nat b)) by lia.
    rewrite Z.sub_diag. simpl. apply app_nil_r.
Qed.

Lemma chunk_loop_partition (text : str) (chunk_size : Z) (fuel : nat) :
  Forall (fun c => isspace c = false) text ->
  0 < chunk_size ->
  forall (start : Z) (chunks res : list str),
    0 <= start ->
    concat chunks = take (Z.to_nat start) text ->
    chunk_loop fuel text chunk_size 0 start chunks = Some res ->
    concat res = text.
Proof.
  intros Hws Hcs.
  assert (~ In space text) as Hns.
  { intros Hin. rewrite Forall_forall in Hws.
    apply list_elem_of_In in Hin. now specialize (Hws _ Hin). }
  induction fuel as [|fuel IH]; intros start chunks res Hs Hinv; simpl;
    [discriminate|].
  destruct (Z.ltb_spec start (len text)) as [Hlt|Hge].
  2:{ intros [= <-]. rewrite Hinv. apply take_ge. unfold len in Hge. lia. }
  rewrite window_end_no_space by assumption. rewrite Z.sub_0_r.
  unfold strip. rewrite strip_by_none by (now apply slice_Forall).
  set (chunk := slice text start (start + chunk_size)).
  assert (concat (if truthy chunk then chunks ++ [chunk] else chunks)
          = take (Z.to_nat (start + chunk_size)) text) as Hinv'.
  { rewrite <- (take_slice text start (start + chunk_size)) by lia.
    fold chunk. rewrite <- Hinv.
    destruct chunk; simpl; [now rewrite app_nil_r|].
    rewrite concat_app. simpl. now rewrite app_nil_r. }
  destruct (Z.geb_spec (start + chunk_size) (len text)) as [Hout|Hin].
  - intros [= <-]. rewrite Hinv'. apply take_ge. unfold len in Hout. lia.
  - apply IH; [lia|exact Hinv'].
Qed.

(** X5. On a text without any whitespace character, with overlap 0, the
    chunks [chunk_text] returns are consecutive pieces of the text:
    concatenated in order they give the text back. *)
Theorem chunk_text_partition (text : str) (chunk_size : Z) (fuel : nat)
    (res : list str) :
  Forall (fun c => isspace c = false) text ->
  0 < chunk_size ->
  chunk_text fuel text chunk_size 0 = Some res ->
  concat res = text.
Proof.
  intros Hws Hcs. unfold chunk_text.
  destruct (_ <=? _); [intros [= <-]; simpl; apply app_nil_r|].
  apply chunk_loop_partition; [assumption|assumption|lia|reflexivity].
Qed.

Lemma chunk_text_partition_witness :
  concat [lit "abc"; lit "def"; lit "gh"] = lit "abcdefgh".
Proof.
  apply (chunk_text_partition (lit "abcdefgh") 3 10 [lit "abc"; lit "def"; lit "gh"]).
  - repeat (constructor; [reflexivity|]). constructor.
  - lia.
  - reflexivity.
Defined.

(** ** The record store: status updates *)

Section StoreExtras.

Variable env : Env.

Lemma str_eqb_eq (a b : str) : str_eqb a b = true <-> a = b.
Proof.
  split; [|intros ->; apply str_eqb_refl].
  revert b. induction a as [|x a IH]; intros [|y b]; simpl; try discriminate;
    [reflexivity|].
  intros H. apply andb_prop in H as [Hx Ha]. apply N.eqb_eq in Hx.
  f_equal; [exact Hx|now apply IH].
Qed.

Lemma str_eqb_neq (a b : str) : str_eqb a b = false <-> a <> b.
Proof.
  split.
  - intros H E. apply str_eqb_eq in E. congruence.
  - intros H. destruct (str_eqb a b) eqn:E; [|reflexivity].
    apply str_eqb_eq in E. contradiction.
Qed.

(** What an accepted status update writes, field by field. *)
Lemma update_status_writes sid status org msg processed failed w b w' :
  update_knowledge_source_status env sid status org msg processed failed w
    = (Ok b, w') ->
  exists u,
    knowledge_sources w'
      = fst (update_first sid (filter_org_of org) u (knowledge_sources w)) /\
    b = (0 <? modified_count env sid (filter_org_of org) u
                (knowledge_sources w))%nat /\
    knowledge_documents w' = knowledge_documents w /\
    forall s,
      let s' := apply_updates u s in
      ks_status s' = status /\
      ks_updatedAt s' = clock w /\
      ks_documentsProcessed s'
        = match processed with Some n => n | None => ks_documentsProcessed s end /\
      ks_documentsFailed s'
        = match failed with Some n => n | None => ks_documentsFailed s end /\
      (status = lit "PROCESSING" -> ks_processStartedAt s' = Some (S (clock w))) /\
      (status <> lit "PROCESSING" -> ks_processStartedAt s' = ks_processStartedAt s) /\
      (status = lit "COMPLETED" ->
         ks_lastProcessedAt s' = Some (S (clock w)) /\ ks_errorMessage s' = None) /\
      (status <> lit "COMPLETED" ->
         ks_lastProcessedAt s' = ks_lastProcessedAt s /\
         ks_errorMessage s'
           = match msg with Some m => Some m | None => ks_errorMessage s end) /\
      ks_createdAt s' = ks_createdAt s /\
      ks_organizationId s' = ks_organizationId s /\
      ks_name s' = ks_name s /\
      ks_retryCount s' = ks_retryCount s.
Proof.
  unfold update_knowledge_source_status, sources_update_one, bind, utcnow,
    ret, history, log_call, raise. fold (filter_org_of org). simpl.
  destruct (str_eqb status (lit "PROCESSING")) eqn:E1;
    [apply str_eqb_eq in E1
    |apply str_eqb_neq in E1;
     destruct (str_eqb status (lit "COMPLETED")) eqn:E2;
     [apply str_eqb_eq in E2|apply str_eqb_neq in E2]]; simpl;
    (match goal with
     | |- context [update_one_fault ?a ?h ?i ?o ?u] =>
         destruct (update_one_fault a h i o u)
     end; [discriminate|]);
    simpl;
    (match goal with
     | |- context [update_first ?i ?o ?u ?l] =>
         destruct (update_first i o u l) as [l' found] eqn:EU
     end);
    intros [= <- <-]; simpl; eexists;
    (split; [change l' with (fst (l', found)); rewrite <- EU; reflexivity|]);
    (split; [reflexivity|]);
    (split; [reflexivity|]);
    intros s; simpl; repeat split; try reflexivity; try congruence;
    intros; subst; try discriminate; try contradiction;
    destruct msg; reflexivity.
Qed.

(** The count of modified sources is positive exactly when the source
    reached is changed by the update. *)
Lemma modified_count_reached id org u l :
  (0 <? modified_count env id org u l)%nat = true <->
  exists entry, reached id org l = Some entry /\
                unchanged env u (snd entry) = false.
Proof.
  unfold reached. induction l as [|entry r IH]; simpl.
  - split; [discriminate|]. intros (entry & H & _). discriminate.
  - destruct (source_matches id org entry).
    + destruct (unchanged env u (snd entry)) eqn:E; simpl.
      * split; [discriminate|]. intros (e & [= <-] & H). congruence.
      * split; [|reflexivity]. intros _. exists entry. now split.
    + exact IH.
Qed.

Lemma same_time_eq (a b : nat) :
  same_time env a b = true <-> bson_datetime env a = bson_datetime env b.
Proof. apply Nat.eqb_eq. Qed.

(** An update leaves a source unchanged exactly when the store holds the
    updated source as it held the source. *)
Lemma unchanged_same_stored (u : SourceUpdates) (s : KnowledgeSource) :
  unchanged env u s = true <-> same_stored env s (apply_updates u s).
Proof.
  unfold unchanged, same_stored, apply_updates. simpl.
  rewrite !andb_true_iff.
  assert (str_eqb (ks_status s) (u_status u) = true
          <-> ks_status s = u_status u) as -> by apply str_eqb_eq.
  rewrite same_time_eq.
  assert (match u_errorMessage u with
          | Some (Some m) =>
              match ks_errorMessage s with
              | Some m' => str_eqb m' m
              | None => false
              end
          | Some None =>
              match ks_errorMessage s with Some _ => false | None => true end
          | None => true
          end = true
          <-> ks_errorMessage s
              = match u_errorMessage u with
                | Some m => m
                | None => ks_errorMessage s
                end) as ->.
  { destruct (u_errorMessage u) as [[m|]|], (ks_errorMessage s) as [m'|];
      try (split; [discriminate|discriminate]);
      try (split; reflexivity).
    rewrite str_eqb_eq. split; congruence. }
  assert (forall (o : option Z) (z : Z),
            match o with Some n => Z.eqb z n | None => true end = true
            <-> z = match o with Some n => n | None => z end) as HZ.
  { intros [n|] z; [apply Z.eqb_eq|split; reflexivity]. }
  rewrite !HZ.
  assert (forall (o o' : option nat),
            match o with
            | Some t =>
                match o' with Some t' => same_time env t' t | None => false end
            | None => true
            end = true
            <-> option_map (bson_datetime env) o'
                = option_map (bson_datetime env)
                    (match o with Some t => Some t | None => o' end)) as HT.
  { intros [t|] [t'|]; simpl; try (split; [discriminate|discriminate]);
      try (split; reflexivity).
    rewrite same_time_eq. split; congruence. }
  rewrite !HT. tauto.
Qed.

(** X6. A status update the store accepts writes, on the source it
    reaches, the status, the update time and the counts and message it was
    given; the processing-start time only for [PROCESSING]; the
    last-processed time only for [COMPLETED], which also clears the error
    message whatever message was passed. Every other field of the source
    stays, and so do the documents. The value returned is
    [modified_count > 0]: [True] exactly when a source was reached and
    the update changed what the store holds of it, so a repeated update
    that finds everything already in place returns [False]. *)
Theorem update_status_lifecycle sid status org msg processed failed w b w' :
  update_knowledge_source_status env sid status org msg processed failed w
    = (Ok b, w') ->
  exists u,
    knowledge_sources w'
      = fst (update_first sid (filter_org_of org) u (knowledge_sources w)) /\
    (b = true <->
     exists entry,
       reached sid (filter_org_of org) (knowledge_sources w) = Some entry /\
       ~ same_stored env (snd entry) (apply_updates u (snd entry))) /\
    knowledge_documents w' = knowledge_documents w /\
    forall s,
      let s' := apply_updates u s in
      ks_status s' = status /\
      ks_updatedAt s' = clock w /\
      ks_documentsProcessed s'
        = match processed with Some n => n | None => ks_documentsProcessed s end /\
      ks_documentsFailed s'
        = match failed with Some n => n | None => ks_documentsFailed s end /\
      (status = lit "PROCESSING" -> ks_processStartedAt s' = Some (S (clock w))) /\
      (status <> lit "PROCESSING" -> ks_processStartedAt s' = ks_processStartedAt s) /\
      (status = lit "COMPLETED" ->
         ks_lastProcessedAt s' = Some (S (clock w)) /\ ks_errorMessage s' = None) /\
      (status <> lit "COMPLETED" ->
         ks_lastProcessedAt s' = ks_lastProcessedAt s /\
         ks_errorMessage s'
           = match msg with Some m => Some m | None => ks_errorMessage s end) /\
      ks_createdAt s' = ks_createdAt s /\
      ks_organizationId s' = ks_organizationId s /\
      ks_name s' = ks_name s /\
      ks_description s' = ks_description s /\
      ks_type s' = ks_type s /\
      ks_configuration s' = ks_configuration s /\
      ks_retryCount s' = ks_retryCount s.
Proof.
  intros Hrun. apply update_status_writes in Hrun as (u & Hs & Hb & Hd & Hu).
  exists u. split; [exact Hs|]. split; [|split; [exact Hd|]].
  - rewrite Hb, modified_count_reached. split.
    + intros (entry & Hr & Hch). exists entry. split; [exact Hr|].
      intros Hsame. apply unchanged_same_stored in Hsame. congruence.
    + intros (entry & Hr & Hch). exists entry. split; [exact Hr|].
      destruct (unchanged env u (snd entry)) eqn:E; [|reflexivity].
      apply unchanged_same_stored in E. contradiction.
  - intros s. destruct (Hu s) as (A & B & C & D & E & F & G & H & I & J & K & L).
    repeat split; try assumption; try reflexivity; try (apply G; assumption);
      try (apply H; assumption).
Qed.

End StoreExtras.

Lemma update_status_lifecycle_witness :
  exists u,
    knowledge_sources (snd (failed_twice one_millisecond_env))
      = fst (update_first 0 (filter_org_of (Some (lit "acme"))) u
               (knowledge_sources (snd (failed_once one_millisecond_env)))) /\
    (false = true <->
     exists entry,
       reached 0 (filter_org_of (Some (lit "acme")))
         (knowledge_sources (snd (failed_once one_millisecond_env)))
       = Some entry /\
       ~ same_stored one_millisecond_env (snd entry)
           (apply_updates u (snd entry))) /\
    knowledge_documents (snd (failed_twice one_millisecond_env))
      = knowledge_documents (snd (failed_once one_millisecond_env)) /\
    forall s,
      let s' := apply_updates u s in
      ks_status s' = lit "FAILED" /\
      ks_updatedAt s' = clock (snd (failed_once one_millisecond_env)) /\
      ks_documentsProcessed s'
        = match Some 0 with Some n => n | None => ks_documentsProcessed s end /\
      ks_documentsFailed s'
        = match Some 1 with Some n => n | None => ks_documentsFailed s end /\
      (lit "FAILED" = lit "PROCESSING" ->
         ks_processStartedAt s'
         = Some (S (clock (snd (failed_once one_millisecond_env))))) /\
      (lit "FAILED" <> lit "PROCESSING" ->
         ks_processStartedAt s' = ks_processStartedAt s) /\
      (lit "FAILED" = lit "COMPLETED" ->
         ks_lastProcessedAt s'
         = Some (S (clock (snd (failed_once one_millisecond_env)))) /\
         ks_errorMessage s' = None) /\
      (lit "FAILED" <> lit "COMPLETED" ->
         ks_lastProcessedAt s' = ks_lastProcessedAt s /\
         ks_errorMessage s'
           = match Some (lit "store down") with
             | Some m => Some m
             | None => ks_errorMessage s
             end) /\
      ks_createdAt s' = ks_createdAt s /\
      ks_organizationId s' = ks_organizationId s /\
      ks_name s' = ks_name s /\
      ks_description s' = ks_description s /\
      ks_type s' = ks_type s /\
      ks_configuration s' = ks_configuration s /\
      ks_retryCount s' = ks_retryCount s.
Proof.
  apply (update_status_lifecycle one_millisecond_env 0%nat (lit "FAILED")
           (Some (lit "acme")) (Some (lit "store down")) (Some 0) (Some 1)
           (snd (failed_once one_millisecond_env)) false
           (snd (failed_twice one_millisecond_env))).
  vm_compute. reflexivity.
Defined.

(** The same update made twice in a row: when both readings of the clock
    fall in one millisecond the second call reaches the source and
    returns [False]; when the store tells the readings apart it returns
    [True]. *)
Lemma update_status_repeated :
  fst (failed_once one_millisecond_env) = Ok true /\
  fst (failed_twice one_millisecond_env) = Ok false /\
  fst (failed_twice (sample_env true)) = Ok true /\
  map fst (knowledge_sources (snd (failed_once one_millisecond_env))) = [0%nat].
Proof. vm_compute. repeat split. Qed.

Section StoreRuns.

Variable env : Env.

Lemma update_first_none id org u l :
  Forall (fun entry => source_matches id org entry = false) l ->
  update_first id org u l = (l, false).
Proof.
  induction 1 as [|entry r He _ IH]; simpl; [reflexivity|].
  now rewrite He, IH.
Qed.

Lemma modified_count_none id org u l :
  Forall (fun entry => source_matches id org entry = false) l ->
  modified_count env id org u l = 0%nat.
Proof.
  induction 1 as [|entry r He _ IH]; simpl; [reflexivity|].
  now rewrite He.
Qed.

(** X7. A status update whose filter reaches no source (an unknown id, or
    the id of a source of another organization) changes no source and no
    document, and returns [False]. *)
Theorem update_status_no_match sid status org msg processed failed w :
  Forall (fun entry => source_matches sid (filter_org_of org) entry = false)
    (knowledge_sources w) ->
  (forall h u, update_one_fault env h sid (filter_org_of org) u = None) ->
  exists w',
    update_knowledge_source_status env sid status org msg processed failed w
      = (Ok false, w') /\
    knowledge_sources w' = knowledge_sources w /\
    knowledge_documents w' = knowledge_documents w.
Proof.
  intros Hno Hok.
  unfold update_knowledge_source_status, sources_update_one, bind, utcnow,
    ret, history, log_call, raise. fold (filter_org_of org). simpl.
  destruct (str_eqb status (lit "PROCESSING"));
    [|destruct (str_eqb status (lit "COMPLETED"))]; simpl;
    rewrite Hok; simpl; rewrite update_first_none by exact Hno;
    rewrite modified_count_none by exact Hno;
    eexists; (split; [reflexivity|]); simpl; split; reflexivity.
Qed.

Lemma update_status_raise sid status org msg processed failed w e w' :
  update_knowledge_source_status env sid status org msg processed failed w
    = (Raise e, w') ->
  knowledge_sources w' = knowledge_sources w /\
  knowledge_documents w' = knowledge_documents w.
Proof.
  unfold update_knowledge_source_status, sources_update_one, bind, utcnow,
    ret, history, log_call, raise. simpl.
  destruct (str_eqb status (lit "PROCESSING"));
    [|destruct (str_eqb status (lit "COMPLETED"))]; simpl;
    (match goal with
     | |- context [update_one_fault ?a ?h ?i ?o ?u] =>
         destruct (update_one_fault a h i o u)
     end);
    simpl; try (destruct (update_first _ _ _ _)); try discriminate;
    intros [= _ <-]; split; reflexivity.
Qed.

Lemma create_batch_documents_shape sid org data :
  returns
    (fun docs => length docs = length data /\
                 Forall (fun d => kd_knowledgeSourceId d = sid /\
                                  kd_organizationId d = org) docs)
    (KnowledgeDocument_create_batch_documents sid org data).
Proof.
  induction data as [|dd l IH]; simpl.
  - apply returns_ret. split; [reflexivity|constructor].
  - eapply returns_bind_post with
      (P := fun d => kd_knowledgeSourceId d = sid /\ kd_organizationId d = org).
    + intros w d w' [= <- _]. now split.
    + intros d Hd. eapply returns_bind_post; [exact IH|].
      intros ds [Hlen HF]. apply returns_ret. split; [simpl; now rewrite Hlen|].
      now constructor.
Qed.

Lemma create_batch_documents_stores sid org data w r w' :
  KnowledgeDocument_create_batch_documents sid org data w = (r, w') ->
  knowledge_documents w' = knowledge_documents w /\
  knowledge_sources w' = knowledge_sources w /\
  next_oid w' = next_oid w.
Proof.
  revert w r w'. induction data as [|dd l IH]; intros w r w'; simpl.
  - intros [= _ <-]. now repeat split.
  - unfold bind at 1. unfold KnowledgeDocument_create_document at 1.
    unfold bind at 1, utcnow, ret. simpl.
    unfold bind at 1.
    match goal with
    | |- context [KnowledgeDocument_create_batch_documents sid org l ?w0] =>
        destruct (KnowledgeDocument_create_batch_documents sid org l w0)
          as [[ds|e|] w1] eqn:E; apply IH in E; simpl in E
    end; intros [= _ <-]; exact E.
Qed.

(** What an insertion of the batch that returns has stored. *)
Lemma create_documents_batch_Ok sid org data w ids w' :
  create_documents_batch env sid org data w = (Ok ids, w') ->
  length ids = length data /\
  knowledge_sources w' = knowledge_sources w /\
  exists new,
    knowledge_documents w' = knowledge_documents w ++ new /\
    map fst new = ids /\
    Forall (fun entry => kd_knowledgeSourceId (snd entry) = sid /\
                         kd_organizationId (snd entry) = org) new.
Proof.
  unfold create_documents_batch. unfold bind at 1.
  destruct (KnowledgeDocument_create_batch_documents sid org data w)
    as [[docs|e|] w1] eqn:E; try discriminate.
  pose proof (create_batch_documents_shape sid org data w docs w1 E)
    as [Hlen HF].
  apply create_batch_documents_stores in E as (Hd & Hs & _).
  unfold documents_insert_many, bind, history, log_call, store_documents, raise.
  simpl. destruct (insert_many_fault env _ _) as [[n e]|]; [discriminate|].
  intros [= <- <-]. simpl. rewrite Hd, Hs.
  split; [now rewrite length_seq|]. split; [reflexivity|].
  eexists. split; [reflexivity|].
  assert (forall (n : nat),
            map fst (combine (seq n (length docs)) docs) = seq n (length docs) /\
            Forall (fun entry : nat * KnowledgeDocument =>
                      kd_knowledgeSourceId (snd entry) = sid /\
                      kd_organizationId (snd entry) = org)
              (combine (seq n (length docs)) docs)) as H.
  { clear Hlen. induction HF as [|d l Hd' _ IH]; intros n; simpl;
      [split; [reflexivity|constructor]|].
    destruct (IH (S n)) as [H1 H2]. split; [now rewrite H1|now constructor]. }
  apply H.
Qed.

End StoreRuns.

Lemma update_status_no_match_witness :
  exists w',
    update_knowledge_source_status (sample_env true) 0 (lit "COMPLETED")
      (Some (lit "other")) None None None (snd sample_created)
      = (Ok false, w') /\
    knowledge_sources w' = knowledge_sources (snd sample_created) /\
    knowledge_documents w' = knowledge_documents (snd sample_created).
Proof.
  apply (update_status_no_match (sample_env true) 0%nat (lit "COMPLETED")
           (Some (lit "other")) None None None (snd sample_created)).
  - repeat constructor.
  - reflexivity.
Defined.

(** ** [process_file_batch]: the run that goes through, and the run whose
    last update fails *)

Section BatchRuns.

Variable env : Env.

Lemma fresh_ids_differ w :
  ids_fresh w ->
  Forall (fun entry : nat * KnowledgeSource => fst entry <> next_oid w)
    (knowledge_sources w).
Proof.
  intros H. eapply Forall_impl; [exact H|]. simpl. intros entry. lia.
Qed.

Lemma own_source_matches (org : str) (id : nat) (s : KnowledgeSource) :
  ks_organizationId s = org ->
  source_matches id (filter_org_of (Some org)) (id, s) = true.
Proof.
  intros Hs. unfold source_matches. simpl. rewrite Nat.eqb_refl. simpl.
  destruct (truthy org); [|reflexivity]. rewrite Hs. apply str_eqb_refl.
Qed.

(** The source of the run after its creation, its [PROCESSING] update
    and the insertion of the documents. *)
Lemma batch_source_processing org name data descr config w w1 w2 w3 sid b r :
  ids_fresh w ->
  create_knowledge_source env org name descr (lit "DOCUMENT") config w
    = (Ok sid, w1) ->
  update_knowledge_source_status env sid (lit "PROCESSING") (Some org)
    None None None w1 = (Ok b, w2) ->
  create_documents_batch env sid org data w2 = (r, w3) ->
  sid = next_oid w /\
  exists s,
    knowledge_sources w3 = knowledge_sources w ++ [(sid, s)] /\
    ks_organizationId s = org /\ ks_name s = name /\
    ks_processStartedAt s = Some (S (clock w1)) /\
    knowledge_documents w2 = knowledge_documents w.
Proof.
  intros Hfresh H1 H2 H3.
  assert (knowledge_documents w1 = knowledge_documents w) as Hd1.
  { revert H1. unfold create_knowledge_source, KnowledgeSource_create_document,
      sources_insert_one, bind, utcnow, ret, history, log_call, print, raise.
    simpl. destruct (insert_one_fault env _ _); [discriminate|].
    now intros [= _ <-]. }
  apply create_knowledge_source_sources in H1
    as (-> & s0 & E1 & Horg & Hname & _).
  split; [reflexivity|].
  apply update_status_writes in H2 as (u1 & E2 & _ & Hd2 & Hu1).
  rewrite E1 in E2.
  rewrite (update_first_last _ _ _ _ _ (fresh_ids_differ w Hfresh)
             (own_source_matches org _ s0 Horg)) in E2.
  simpl in E2.
  pose proof (create_documents_batch_sources env (next_oid w) org data w2)
    as [E3 _].
  rewrite H3 in E3. simpl in E3.
  exists (apply_updates u1 s0). rewrite E3, E2.
  destruct (Hu1 s0) as (_ & _ & _ & _ & Hps & _ & _ & _ & _ & Ho & Hn & _).
  repeat split.
  - now rewrite Ho.
  - now rewrite Hn.
  - now apply Hps.
  - congruence.
Qed.

(** X8. When every store operation of [process_file_batch] goes through,
    the call returns the id of the source and one document id per item of
    the batch; the source it created stands in the store as [COMPLETED]
    with no error message, [documentsProcessed = len(file_data)],
    [documentsFailed = 0] and both timestamps set; and the documents
    stored are exactly one new document per item, each linked to that
    source and to the organization. *)
Theorem process_file_batch_success (org name : str) (data : list DocumentData)
    (descr : option str) (config : option (list (str * value)))
    (w w1 w2 w3 w4 : World) (sid : nat) (b b' : bool) (ids : list nat) :
  ids_fresh w ->
  create_knowledge_source env org name descr (lit "DOCUMENT") config w
    = (Ok sid, w1) ->
  update_knowledge_source_status env sid (lit "PROCESSING") (Some org)
    None None None w1 = (Ok b, w2) ->
  create_documents_batch env sid org data w2 = (Ok ids, w3) ->
  update_knowledge_source_status env sid (lit "COMPLETED") (Some org) None
    (Some (Z.of_nat (length ids))) (Some 0) w3 = (Ok b', w4) ->
  exists w',
    process_file_batch env org name data descr config w = (Ok (sid, ids), w') /\
    length ids = length data /\
    (exists s,
       knowledge_sources w' = knowledge_sources w ++ [(sid, s)] /\
       ks_organizationId s = org /\ ks_name s = name /\
       ks_status s = lit "COMPLETED" /\
       ks_errorMessage s = None /\
       ks_documentsProcessed s = Z.of_nat (length data) /\
       ks_documentsFailed s = 0 /\
       ks_processStartedAt s = Some (S (clock w1)) /\
       ks_lastProcessedAt s = Some (S (clock w3))) /\
    (exists new,
       knowledge_documents w' = knowledge_documents w ++ new /\
       map fst new = ids /\
       Forall (fun entry => kd_knowledgeSourceId (snd entry) = sid /\
                            kd_organizationId (snd entry) = org) new).
Proof.
  intros Hfresh H1 H2 H3 H4.
  destruct (batch_source_processing org name data descr config w w1 w2 w3 sid
              b (Ok ids) Hfresh H1 H2 H3)
    as (Hsid & s1 & E3 & Horg & Hname & Hps & Hd2).
  destruct (create_documents_batch_Ok env sid org data w2 ids w3 H3)
    as (Hlen & _ & new & Hnew & Hids & HF).
  eexists. split; [|split; [exact Hlen|split]].
  - unfold process_file_batch.
    rewrite (bind_Ok _ _ _ _ _ H1), (bind_Ok _ _ _ _ _ H2).
    apply try_except_Ok.
    rewrite (bind_Ok _ _ _ _ _ H3), (bind_Ok _ _ _ _ _ H4).
    unfold bind, print, ret. reflexivity.
  - simpl. apply update_status_writes in H4 as (u2 & E4 & _ & _ & Hu2).
    rewrite E3, Hsid in E4.
    rewrite (update_first_last _ _ _ _ _ (fresh_ids_differ w Hfresh)
               (own_source_matches org _ s1 Horg)) in E4.
    simpl in E4. exists (apply_updates u2 s1). rewrite Hsid.
    split; [exact E4|].
    destruct (Hu2 s1) as (Hst & _ & Hp & Hf & _ & Hps' & Hc & _ & _ & Ho & Hn & _).
    destruct (Hc eq_refl) as [Hlp Hem].
    specialize (Hps' ltac:(discriminate)).
    repeat split; congruence.
  - simpl. apply update_status_writes in H4 as (_ & _ & _ & Hd4 & _).
    exists new. rewrite Hd4, Hnew, Hd2. now repeat split.
Qed.

(** X9. When the documents of the batch were stored and the update to
    [COMPLETED] then raised [e], what is left of the run is the update
    to [FAILED] and the re-raise of [e]; once that update is accepted the
    source stands as [FAILED] with [documentsProcessed = 0] and
    [documentsFailed = len(file_data)], although one document per item of
    the batch is in the store. *)
Theorem process_file_batch_late_failure (org name : str)
    (data : list DocumentData) (descr : option str)
    (config : option (list (str * value)))
    (w w1 w2 w3 w4 w5 : World) (sid : nat) (b b' : bool) (ids : list nat)
    (e : exn) :
  ids_fresh w ->
  create_knowledge_source env org name descr (lit "DOCUMENT") config w
    = (Ok sid, w1) ->
  update_knowledge_source_status env sid (lit "PROCESSING") (Some org)
    None None None w1 = (Ok b, w2) ->
  create_documents_batch env sid org data w2 = (Ok ids, w3) ->
  update_knowledge_source_status env sid (lit "COMPLETED") (Some org) None
    (Some (Z.of_nat (length ids))) (Some 0) w3 = (Raise e, w4) ->
  update_knowledge_source_status env sid (lit "FAILED") (Some org)
    (Some (exn_msg e)) (Some 0) (Some (Z.of_nat (length data))) w4
    = (Ok b', w5) ->
  process_file_batch env org name data descr config w = (Raise e, w5) /\
  (exists s,
     knowledge_sources w5 = knowledge_sources w ++ [(sid, s)] /\
     ks_status s = lit "FAILED" /\
     ks_errorMessage s = Some (exn_msg e) /\
     ks_documentsProcessed s = 0 /\
     ks_documentsFailed s = Z.of_nat (length data)) /\
  (exists new,
     knowledge_documents w5 = knowledge_documents w ++ new /\
     length new = length data).
Proof.
  intros Hfresh H1 H2 H3 H4 H5.
  destruct (batch_source_processing org name data descr config w w1 w2 w3 sid
              b (Ok ids) Hfresh H1 H2 H3)
    as (Hsid & s1 & E3 & Horg & Hname & Hps & Hd2).
  destruct (create_documents_batch_Ok env sid org data w2 ids w3 H3)
    as (Hlen & _ & new & Hnew & Hids & HF).
  pose proof (update_status_raise env _ _ _ _ _ _ _ _ _ H4) as [Es4 Ed4].
  split; [|split].
  - unfold process_file_batch.
    rewrite (bind_Ok _ _ _ _ _ H1), (bind_Ok _ _ _ _ _ H2).
    erewrite try_except_Raise;
      [|rewrite (bind_Ok _ _ _ _ _ H3); apply bind_Raise; exact H4
       |reflexivity].
    now rewrite (bind_Ok _ _ _ _ _ H5).
  - apply update_status_writes in H5 as (u & E5 & _ & _ & Hu).
    rewrite Es4, E3, Hsid in E5.
    rewrite (update_first_last _ _ _ _ _ (fresh_ids_differ w Hfresh)
               (own_source_matches org _ s1 Horg)) in E5.
    simpl in E5. exists (apply_updates u s1). rewrite Hsid.
    split; [exact E5|].
    destruct (Hu s1) as (Hst & _ & Hp & Hf & _ & _ & _ & Hn & _).
    destruct (Hn ltac:(discriminate)) as [_ Hem].
    repeat split; assumption.
  - apply update_status_writes in H5 as (_ & _ & _ & Hd5 & _).
    exists new. rewrite Hd5, Ed4, Hnew, Hd2. split; [reflexivity|].
    rewrite <- Hlen, <- Hids. now rewrite length_map.
Qed.

End BatchRuns.

Lemma process_file_batch_success_witness :
  exists w',
    process_file_batch (sample_env true) (lit "acme") (lit "Batch") sample_data
      None None empty_world = (Ok (0%nat, [1%nat]), w') /\
    length [1%nat] = length sample_data /\
    (exists s,
       knowledge_sources w' = knowledge_sources empty_world ++ [(0%nat, s)] /\
       ks_organizationId s = lit "acme" /\ ks_name s = lit "Batch" /\
       ks_status s = lit "COMPLETED" /\
       ks_errorMessage s = None /\
       ks_documentsProcessed s = Z.of_nat (length sample_data) /\
       ks_documentsFailed s = 0 /\
       ks_processStartedAt s = Some (S (clock (snd ok_created))) /\
       ks_lastProcessedAt s = Some (S (clock (snd ok_inserted)))) /\
    (exists new,
       knowledge_documents w' = knowledge_documents empty_world ++ new /\
       map fst new = [1%nat] /\
       Forall (fun entry => kd_knowledgeSourceId (snd entry) = 0%nat /\
                            kd_organizationId (snd entry) = lit "acme") new).
Proof.
  apply (process_file_batch_success (sample_env true) (lit "acme") (lit "Batch")
           sample_data None None empty_world (snd ok_created)
           (snd ok_processing) (snd ok_inserted) (snd ok_completed)
           0%nat true true [1%nat]).
  - constructor.
  - vm_compute. reflexivity.
  - vm_compute. reflexivity.
  - vm_compute. reflexivity.
  - vm_compute. reflexivity.
Defined.

Lemma process_file_batch_late_failure_witness :
  process_file_batch late_failure_env (lit "acme") (lit "Batch") sample_data
    None None empty_world = (Raise timed_out, snd late_failed) /\
  (exists s,
     knowledge_sources (snd late_failed)
       = knowledge_sources empty_world ++ [(0%nat, s)] /\
     ks_status s = lit "FAILED" /\
     ks_errorMessage s = Some (exn_msg timed_out) /\
     ks_documentsProcessed s = 0 /\
     ks_documentsFailed s = Z.of_nat (length sample_data)) /\
  (exists new,
     knowledge_documents (snd late_failed)
       = knowledge_documents empty_world ++ new /\
     length new = length sample_data).
Proof.
  apply (process_file_batch_late_failure late_failure_env (lit "acme")
           (lit "Batch") sample_data None None empty_world (snd late_created)
           (snd late_processing) (snd late_inserted) (snd late_completed)
           (snd late_failed) 0%nat true true [1%nat] timed_out).
  - constructor.
  - vm_compute. reflexivity.
  - vm_compute. reflexivity.
  - vm_compute. reflexivity.
  - vm_compute. reflexivity.
  - vm_compute. reflexivity.
Defined.

(** ** The ingestion run: where it stops and what it has written by then *)

#[local] Instance same_records_preorder : PreOrder same_records.
Proof.
  split.
  - intros w. now repeat split.
  - intros w1 w2 w3 (A1 & B1 & C1) (A2 & B2 & C2). repeat split; congruence.
Qed.

#[local] Instance same_records_blind : CallBlind same_records.
Proof. intros w w' _ B C D. now repeat split. Qed.

#[local] Hint Resolve same_records_preorder same_records_blind : frame.

Section RunStops.

Variable env : Env.

(** X10. Without a search endpoint or an admin key the run raises a
    [ValueError] after its two opening lines: no collaborator has been
    called, and neither the vector index nor the record store has
    changed. *)
Theorem misconfigured_run_fails_fast (fuel : nat) (org dir : str) (cs ov : Z)
    (w : World) :
  unset (AZURE_SEARCH_SERVICE_ENDPOINT env) = true \/
  unset (AZURE_SEARCH_ADMIN_KEY env) = true ->
  exists e w',
    process_and_upload_org_files env fuel org dir cs ov w = (Raise e, w') /\
    exn_cls e = ValueError /\
    calls w' = calls w /\
    same_stores w w' /\
    length (stdout w') = (length (stdout w) + 2)%nat.
Proof.
  intros Hcfg.
  assert (exists e, exn_cls e = ValueError /\
            forall w0, get_search_client env org w0 = (Raise e, w0))
    as (e & He & Hget).
  { unfold get_search_client.
    destruct (unset (AZURE_SEARCH_SERVICE_ENDPOINT env)) eqn:E1.
    - eexists. split; [|intros w0; reflexivity]. reflexivity.
    - destruct Hcfg as [H|H]; [discriminate|]. rewrite H.
      eexists. split; [|intros w0; reflexivity]. reflexivity. }
  exists e. eexists. split; [|split; [exact He|]].
  - unfold process_and_upload_org_files. apply bind_Raise.
    unfold open_run, bind, print. rewrite Hget. reflexivity.
  - simpl. split; [reflexivity|]. split; [now repeat split|].
    rewrite !length_app. simpl. lia.
Qed.

Lemma handler_line (e : exn) (w : World) :
  bind (print (lit "Error during file processing: " ++ exn_msg e))
    (fun _ => @raise (option (list nat)) e) w
  = (Raise e,
     snd (print (lit "Error during file processing: " ++ exn_msg e) w)).
Proof. reflexivity. Qed.

(** X11. When the loop over the directory raises (a blob upload or the
    embedding service failing on some file), the run prints one error
    line and raises the same exception; nothing has been written to the
    vector index or to the record store, whatever files went through
    before. *)
Theorem loop_failure_writes_nothing (fuel : nat) (org dir : str) (cs ov : Z)
    (w w0 w1 : World) (client : str) (e : exn) :
  open_run env org dir cs ov w = (Ok client, w0) ->
  read_directory env fuel org dir cs ov w0 = (Raise e, w1) ->
  exists w',
    process_and_upload_org_files env fuel org dir cs ov w = (Raise e, w') /\
    stdout w' = stdout w1 ++ [lit "Error during file processing: " ++ exn_msg e] /\
    same_stores w w' /\
    calls_extend no_write w w'.
Proof.
  intros Hopen Hread. eexists. split; [|split; [|split]].
  - unfold process_and_upload_org_files.
    rewrite (bind_Ok _ _ _ _ _ Hopen). cbv zeta.
    erewrite try_except_Raise;
      [|apply bind_Raise; exact Hread|reflexivity].
    apply handler_line.
  - reflexivity.
  - assert (forall c, no_write c = true -> keeps same_stores (log_call c))
      as Hlog by (intros; apply keeps_log_call; typeclasses eauto).
    pose proof (keeps_open_run env same_stores org dir cs ov w) as H1.
    pose proof (keeps_read_directory env same_stores Hlog fuel org dir cs ov w0)
      as H2.
    rewrite Hopen in H1. rewrite Hread in H2. simpl in H1, H2.
    etransitivity; [exact H1|]. etransitivity; [exact H2|].
    now repeat split.
  - assert (forall c, no_write c = true ->
              keeps (calls_extend no_write) (log_call c)) as Hlog
      by (intros; now apply keeps_log_call_extend).
    pose proof (keeps_open_run env (calls_extend no_write) org dir cs ov w) as H1.
    pose proof (keeps_read_directory env (calls_extend no_write) Hlog fuel org
                  dir cs ov w0) as H2.
    rewrite Hopen in H1. rewrite Hread in H2. simpl in H1, H2.
    etransitivity; [exact H1|]. etransitivity; [exact H2|].
    exists []. split; [now rewrite app_nil_r|constructor].
Qed.

Lemma upload_to_search_records org client docs :
  keeps same_records (upload_to_search env org client docs).
Proof.
  assert (forall mode, keeps same_records (index_write env mode client docs))
    as Hiw.
  { intros mode. unfold index_write. frame. intros w0. simpl.
    repeat split; reflexivity. }
  unfold upload_to_search. frame.
Qed.

(** X12. When the write to the vector index raises (an exception the
    fallback chain does not absorb), the run prints one error line and
    raises it; the record store has not been touched: no Knowledge
    Source and no Knowledge Document is created for a batch the index
    refused. *)
Theorem index_failure_skips_metadata (fuel : nat) (org dir : str) (cs ov : Z)
    (w w0 w1 w2 : World) (client : str) (batch : Batch) (e : exn) :
  open_run env org dir cs ov w = (Ok client, w0) ->
  read_directory env fuel org dir cs ov w0 = (Ok batch, w1) ->
  upload_to_search env org client (documents batch) w1 = (Raise e, w2) ->
  exists w',
    process_and_upload_org_files env fuel org dir cs ov w = (Raise e, w') /\
    stdout w' = stdout w2 ++ [lit "Error during file processing: " ++ exn_msg e] /\
    same_records w w' /\
    calls_extend (fun c => negb (is_store_write c)) w w'.
Proof.
  intros Hopen Hread Hup. eexists. split; [|split; [|split]].
  - unfold process_and_upload_org_files.
    rewrite (bind_Ok _ _ _ _ _ Hopen). cbv zeta.
    erewrite try_except_Raise;
      [|rewrite (bind_Ok _ _ _ _ _ Hread); apply bind_Raise; exact Hup
       |reflexivity].
    apply handler_line.
  - reflexivity.
  - assert (forall c, no_write c = true -> keeps same_records (log_call c))
      as Hlog by (intros; apply keeps_log_call; typeclasses eauto).
    pose proof (keeps_open_run env same_records org dir cs ov w) as H1.
    pose proof (keeps_read_directory env same_records Hlog fuel org dir cs ov w0)
      as H2.
    pose proof (upload_to_search_records org client (documents batch) w1) as H3.
    rewrite Hopen in H1. rewrite Hread in H2. rewrite Hup in H3.
    simpl in H1, H2, H3.
    etransitivity; [exact H1|]. etransitivity; [exact H2|].
    etransitivity; [exact H3|]. now repeat split.
  - set (P := fun c => negb (is_store_write c)).
    assert (forall c, no_write c = true -> keeps (calls_extend P) (log_call c))
      as Hlog.
    { intros c Hc. apply keeps_log_call_extend. unfold P, no_write in *.
      now apply andb_prop in Hc as [_ Hc]. }
    pose proof (keeps_open_run env (calls_extend P) org dir cs ov w) as H1.
    pose proof (keeps_read_directory env (calls_extend P) Hlog fuel org dir cs
                  ov w0) as H2.
    assert (keeps (calls_extend P)
              (upload_to_search env org client (documents batch))) as H3.
    { assert (forall mode, keeps (calls_extend P)
                             (index_write env mode client (documents batch)))
        as Hiw.
      { intros mode. unfold index_write. frame. intros w3.
        exists []. split; [simpl; now rewrite app_nil_r|constructor]. }
      unfold upload_to_search. frame. }
    specialize (H3 w1).
    rewrite Hopen in H1. rewrite Hread in H2. rewrite Hup in H3.
    simpl in H1, H2, H3.
    etransitivity; [exact H1|]. etransitivity; [exact H2|].
    etransitivity; [exact H3|].
    exists []. split; [now rewrite app_nil_r|constructor].
Qed.

End RunStops.

Lemma misconfigured_run_fails_fast_witness :
  exists e w',
    process_and_upload_org_files no_endpoint_env 10 (lit "acme") (lit "docs")
      800 100 empty_world = (Raise e, w') /\
    exn_cls e = ValueError /\
    calls w' = calls empty_world /\
    same_stores empty_world w' /\
    length (stdout w') = (length (stdout empty_world) + 2)%nat.
Proof.
  apply (misconfigured_run_fails_fast no_endpoint_env 10 (lit "acme")
           (lit "docs") 800 100 empty_world).
  left. reflexivity.
Defined.

Lemma loop_failure_writes_nothing_witness :
  exists w',
    process_and_upload_org_files no_embeddings_env 10 (lit "acme") (lit "docs")
      800 100 empty_world = (Raise service_down, w') /\
    stdout w' = stdout (snd no_embeddings_read)
                ++ [lit "Error during file processing: " ++ exn_msg service_down] /\
    same_stores empty_world w' /\
    calls_extend no_write empty_world w'.
Proof.
  apply (loop_failure_writes_nothing no_embeddings_env 10 (lit "acme")
           (lit "docs") 800 100 empty_world (snd no_embeddings_opened)
           (snd no_embeddings_read) (lit "acme") service_down).
  - vm_compute. reflexivity.
  - vm_compute. reflexivity.
Defined.

Lemma index_failure_skips_metadata_witness :
  exists w',
    process_and_upload_org_files no_index_env 10 (lit "acme") (lit "docs")
      800 100 empty_world = (Raise service_down, w') /\
    stdout w' = stdout (snd no_index_uploaded)
                ++ [lit "Error during file processing: " ++ exn_msg service_down] /\
    same_records empty_world w' /\
    calls_extend (fun c => negb (is_store_write c)) empty_world w'.
Proof.
  apply (index_failure_skips_metadata no_index_env 10 (lit "acme")
           (lit "docs") 800 100 empty_world (snd no_index_opened)
           (snd no_index_read) (snd no_index_uploaded) (lit "acme")
           sample_batch service_down).
  - vm_compute. reflexivity.
  - vm_compute. reflexivity.
  - vm_compute. reflexivity.
Defined.

(** ** The write to the vector index and its fallbacks *)

Section UploadChain.

Variable env : Env.

(** X13. A search client without [merge_or_upload_documents]
    ([AttributeError]) whose [upload_documents] refuses [merge_mode]
    ([TypeError]) still gets the documents: the third request, the plain
    upload, is made after a printed warning, and the documents are in the
    index when [upload_to_search] returns. *)
Theorem upload_falls_back (org client : str) (docs : list IndexDoc) (w : World)
    (e1 e2 : exn) :
  docs <> [] ->
  index_upsert env (calls w) MergeOrUpload client docs = Some e1 ->
  is_class AttributeError e1 = true ->
  index_upsert env (calls w ++ [CallUpsert MergeOrUpload client docs])
    UploadMergeMode client docs = Some e2 ->
  is_class TypeError e2 = true ->
  index_upsert env
    (calls w ++ [CallUpsert MergeOrUpload client docs;
                 CallUpsert UploadMergeMode client docs])
    UploadBasic client docs = None ->
  exists w',
    upload_to_search env org client docs w = (Ok tt, w') /\
    calls w' = calls w ++ upsert_calls client docs /\
    indexes w' = upsert_all client docs (indexes w) /\
    stdout w'
      = stdout w
        ++ [lit "Warning: Using basic upload - may create duplicates on re-runs";
            uploaded_line org docs] /\
    same_records w w'.
Proof.
  intros Hne H1 C1 H2 C2 H3. destruct docs as [|d l]; [contradiction|].
  unfold upload_to_search, try_except, index_write, bind, history, log_call,
    raise, modify, print. simpl.
  rewrite H1. rewrite C1. simpl. rewrite H2. rewrite C2. simpl.
  rewrite <- app_assoc. simpl. rewrite H3. simpl.
  eexists. split; [reflexivity|]. simpl.
  split; [now rewrite <- !app_assoc|]. split; [reflexivity|].
  split; [now rewrite <- !app_assoc|]. now repeat split.
Qed.

(** X14. An exception of [merge_or_upload_documents] that is not an
    [AttributeError] is not absorbed: [upload_to_search] raises it after
    that single request, with nothing written to the index and nothing
    printed. *)
Theorem upload_error_propagates (org client : str) (docs : list IndexDoc)
    (w : World) (e : exn) :
  docs <> [] ->
  index_upsert env (calls w) MergeOrUpload client docs = Some e ->
  is_class AttributeError e = false ->
  exists w',
    upload_to_search env org client docs w = (Raise e, w') /\
    calls w' = calls w ++ [CallUpsert MergeOrUpload client docs] /\
    indexes w' = indexes w /\
    stdout w' = stdout w.
Proof.
  intros Hne H1 C1. destruct docs as [|d l]; [contradiction|].
  unfold upload_to_search, try_except, index_write, bind, history, log_call,
    raise, modify, print. simpl.
  rewrite H1. rewrite C1. eexists. split; [reflexivity|]. now repeat split.
Qed.

End UploadChain.

Lemma upload_falls_back_witness :
  exists w',
    upload_to_search old_client_env (lit "acme") (lit "acme")
      (documents sample_batch) empty_world = (Ok tt, w') /\
    calls w' = calls empty_world ++ upsert_calls (lit "acme") (documents sample_batch) /\
    indexes w' = upsert_all (lit "acme") (documents sample_batch) (indexes empty_world) /\
    stdout w'
      = stdout empty_world
        ++ [lit "Warning: Using basic upload - may create duplicates on re-runs";
            uploaded_line (lit "acme") (documents sample_batch)] /\
    same_records empty_world w'.
Proof.
  apply (upload_falls_back old_client_env (lit "acme") (lit "acme")
           (documents sample_batch) empty_world
           (Exn AttributeError (lit "no attribute merge_or_upload_documents"))
           (Exn TypeError (lit "unexpected keyword argument merge_mode"))).
  - discriminate.
  - reflexivity.
  - reflexivity.
  - reflexivity.
  - reflexivity.
  - reflexivity.
Defined.

Lemma upload_error_propagates_witness :
  exists w',
    upload_to_search no_index_env (lit "acme") (lit "acme")
      (documents sample_batch) empty_world = (Raise service_down, w') /\
    calls w' = calls empty_world
               ++ [CallUpsert MergeOrUpload (lit "acme") (documents sample_batch)] /\
    indexes w' = indexes empty_world /\
    stdout w' = stdout empty_world.
Proof.
  apply (upload_error_propagates no_index_env (lit "acme") (lit "acme")
           (documents sample_batch) empty_world service_down).
  - discriminate.
  - reflexivity.
  - reflexivity.
Defined.

(** ** What the loop builds *)

Lemma Forall2_pair {K A B : Type} (P : K -> Prop) (R1 : K -> A -> Prop)
    (R2 : K -> B -> Prop) (Q : A -> B -> Prop) (ks : list K) :
  (forall k a b, P k -> R1 k a -> R2 k b -> Q a b) ->
  Forall P ks ->
  forall (la : list A) (lb : list B),
    Forall2 R1 ks la -> Forall2 R2 ks lb -> Forall2 Q la lb.
Proof.
  intros HQ. induction 1 as [|k ks Hk _ IH]; intros la lb F1 F2;
    inversion F1; inversion F2; subst; constructor; eauto.
Qed.

Lemma kept_truthy (l : list (nat * str)) :
  Forall (fun ic => truthy (strip (snd ic)) = true) (kept l).
Proof.
  apply List.Forall_forall. intros ic Hin. unfold kept in Hin.
  apply filter_In in Hin. tauto.
Qed.

Section BatchShape.

Variable env : Env.

Lemma process_chunks_aligned org filename filepath blob ext total chunks :
  forall i docs mongo,
    Forall2 (aligned org) docs mongo ->
    returns (fun r => Forall2 (aligned org) (fst r) (snd r))
      (process_chunks env org filename filepath blob ext total i chunks
         docs mongo).
Proof.
  intros i docs mongo Hm w r w' Hrun.
  apply process_chunks_ordinals in Hrun as (new & newm & -> & -> & F1 & F2).
  apply Forall2_app; [exact Hm|].
  eapply Forall2_pair; [|apply kept_truthy|exact F1|exact F2].
  intros [k c] d dd T [embedding ->] [now ->]. simpl in *.
  unfold aligned. simpl.
  split; [reflexivity|]. split; [reflexivity|].
  split; [now apply truthy_nonempty|]. split; [|reflexivity].
  exists k. split; [reflexivity|]. split; [reflexivity|].
  eexists. split; reflexivity.
Qed.

Lemma process_files_aligned fuel org dir cs ov filenames :
  forall acc,
    Forall2 (aligned org) (documents acc) (mongo_documents acc) ->
    returns (fun b => Forall2 (aligned org) (documents b) (mongo_documents b))
      (process_files env fuel org dir cs ov filenames acc).
Proof.
  induction filenames as [|f l IH]; intros acc Hacc; simpl.
  - now apply returns_ret.
  - destruct (_ || _); [now apply IH|].
    apply returns_bind. intros _. apply returns_bind. intros blob.
    destruct (negb _).
    + apply returns_bind. intros _. now apply IH.
    + apply returns_bind. intros chunks. apply returns_bind. intros _.
      eapply returns_bind_post;
        [apply process_chunks_aligned; exact Hacc|].
      intros r Hr. now apply IH.
Qed.

(** The index documents of a file are those of the chunks the chunker
    returned for it, each under the position of its chunk. *)
Lemma process_chunks_entries org dir filename blob ext total chunks docs mongo :
  returns (fun r => map entry_of (fst r)
                    = map entry_of docs
                      ++ map (fun ic => (file_doc_id org filename (fst ic),
                                         filename, snd ic))
                           (kept (enumerate 0 chunks)))
    (process_chunks env org filename (path_join dir filename) blob ext total 0
       chunks docs mongo).
Proof.
  intros w r w' Hrun.
  apply process_chunks_ordinals in Hrun as (new & newm & -> & _ & F1 & _).
  rewrite map_app. f_equal. symmetry. apply Forall2_map_eq.
  eapply Forall2_impl; [exact F1|].
  intros ic d [embedding ->]. reflexivity.
Qed.

Lemma process_files_entries fuel org dir cs ov filenames :
  forall acc,
    returns (fun b => map entry_of (documents b)
                      = map entry_of (documents acc)
                        ++ batch_entries env fuel org dir cs ov filenames)
      (process_files env fuel org dir cs ov filenames acc).
Proof.
  induction filenames as [|f l IH]; intros acc.
  - simpl. apply returns_ret. now rewrite app_nil_r.
  - unfold batch_entries. cbn [flat_map]. fold (batch_entries env fuel org dir cs ov l).
    unfold ingested, file_entries. cbn [process_files].
    destruct (os_isdir env (path_join dir f)); [exact (IH acc)|].
    destruct (supported (lower (splitext_ext f))); [|exact (IH acc)].
    cbn [negb orb andb].
    apply returns_bind. intros _. apply returns_bind. intros blob.
    destruct (truthy (strip (extract_text_from_file env (path_join dir f)))).
    + cbn [negb].
      eapply returns_bind_post with
        (P := fun chunks =>
                chunk_text fuel (extract_text_from_file env (path_join dir f))
                  cs ov = Some chunks).
      { intros w chunks w'. unfold lift.
        destruct (chunk_text fuel _ cs ov); [|discriminate].
        now intros [= -> _]. }
      intros chunks ->. apply returns_bind. intros _.
      eapply returns_bind_post; [apply process_chunks_entries|].
      intros r Hr w b w' Hrun. apply IH in Hrun. cbn [documents] in Hrun.
      rewrite Hrun, Hr. now rewrite app_assoc.
    + cbn [negb]. apply returns_bind. intros _. exact (IH acc).
Qed.

(** X15. The index documents of the batch the loop returns are, file
    after file of the listing and chunk after chunk of each ingested
    file, the documents of the chunks the chunker returned for the text
    of the file, blank chunks left out: each carries the id made of the
    tenant, the file name and the position of its chunk in that list.
    Every index document is paired, in order, with one metadata record
    of the same non-blank text and the same ordinal (in its title and its
    [chunk_index]), the tenant as organization and no status supplied; so
    there are as many index documents as metadata records. *)
Theorem batch_is_aligned (fuel : nat) (org dir : str) (cs ov : Z)
    (w w' : World) (batch : Batch) (filenames : list str) :
  os_listdir env (calls w) dir = Ok filenames ->
  read_directory env fuel org dir cs ov w = (Ok batch, w') ->
  map entry_of (documents batch)
  = batch_entries env fuel org dir cs ov filenames /\
  Forall2 (aligned org) (documents batch) (mongo_documents batch) /\
  length (documents batch) = length (mongo_documents batch).
Proof.
  intros Hlist Hrun.
  assert (Forall2 (aligned org) (documents batch) (mongo_documents batch)) as H.
  { revert Hrun. generalize w batch w'. change (returns
      (fun b => Forall2 (aligned org) (documents b) (mongo_documents b))
      (read_directory env fuel org dir cs ov)).
    unfold read_directory. do 3 (apply returns_bind; intros ?).
    eapply returns_bind_post.
    - apply process_files_aligned. constructor.
    - intros b Hb. apply returns_bind. intros _. now apply returns_ret. }
  split; [|split; [exact H|eapply Forall2_length; exact H]].
  unfold read_directory, bind, history, log_call, lift in Hrun.
  cbn [calls] in Hrun. rewrite Hlist in Hrun.
  match type of Hrun with
  | context [process_files ?e ?fl ?o ?d ?c ?v ?fs ?acc ?w0] =>
      destruct (process_files e fl o d c v fs acc w0) as [[b|ex|] w1] eqn:E;
        try discriminate
  end.
  apply process_files_entries in E. cbn [documents map app] in E.
  unfold print, ret in Hrun. injection Hrun as <- _. exact E.
Qed.

End BatchShape.

Lemma batch_is_aligned_witness :
  map entry_of (documents small_windows_batch)
  = [(file_doc_id (lit "acme") (lit "a.txt") 0, lit "a.txt", lit "The sky");
     (file_doc_id (lit "acme") (lit "a.txt") 1, lit "a.txt", lit "is");
     (file_doc_id (lit "acme") (lit "a.txt") 2, lit "a.txt", lit "blue.")] /\
  Forall2 (aligned (lit "acme")) (documents small_windows_batch)
    (mongo_documents small_windows_batch) /\
  length (documents small_windows_batch)
  = length (mongo_documents small_windows_batch).
Proof.
  apply (batch_is_aligned (sample_env true) 10 (lit "acme") (lit "docs") 8 0
           empty_world (snd small_windows_read) small_windows_batch
           [lit "a.txt"]).
  - reflexivity.
  - vm_compute. reflexivity.
Defined.

(** ** Retrieval with results *)

Section Answer.

Variable env : Env.

(** X16. When the search returns at least one result and the generation
    service answers, [search_documents] returns that answer verbatim,
    after exactly one request to the generation service, made with the
    system prompt of the tenant and the user prompt assembled from the
    results and the question. *)
Theorem search_documents_answers (org query : str) (k : Z) (w w1 : World)
    (results : list (list (str * value))) (answer : str) :
  perform_vector_search env org query k w = (Ok results, w1) ->
  results <> [] ->
  unset (AZURE_OPENAI_API_KEY env) = false ->
  unset (AZURE_OPENAI_ENDPOINT env) = false ->
  chat_create env (calls w1) (system_prompt_for org)
    (user_prompt_for org query results) = Ok answer ->
  exists w',
    search_documents env org query k w = (Ok answer, w') /\
    calls w'
      = calls w1 ++ [CallChat (system_prompt_for org)
                       (user_prompt_for org query results)] /\
    same_stores w1 w'.
Proof.
  intros Hsearch Hne Hk He Hchat.
  unfold search_documents. rewrite (bind_Ok _ _ _ _ _ Hsearch).
  destruct results as [|r l]; [contradiction|].
  unfold get_rag_response, get_openai_client. rewrite Hk, He. simpl.
  unfold bind, ret, history, log_call, lift. simpl.
  fold (user_prompt_for org query (r :: l)) in *.
  unfold user_prompt_for in *. simpl in *. rewrite Hchat.
  eexists. split; [reflexivity|]. simpl. split; [reflexivity|].
  now repeat split.
Qed.

End Answer.

Lemma search_documents_answers_witness :
  exists w',
    search_documents one_hit_env (lit "acme") (lit "What colour is the sky?") 3
      empty_world = (Ok (lit "answer"), w') /\
    calls w'
      = calls (snd one_hit_searched)
        ++ [CallChat (system_prompt_for (lit "acme"))
              (user_prompt_for (lit "acme") (lit "What colour is the sky?")
                 [one_hit])] /\
    same_stores (snd one_hit_searched) w'.
Proof.
  apply (search_documents_answers one_hit_env (lit "acme")
           (lit "What colour is the sky?") 3 empty_world
           (snd one_hit_searched) [one_hit] (lit "answer")).
  - vm_compute. reflexivity.
  - discriminate.
  - reflexivity.
  - reflexivity.
  - reflexivity.
Defined.

(** ** Statistics of the record store *)

Section GroupingFacts.

Context {K : Type} (eqb : K -> K -> bool).

Hypothesis eqb_eq : forall a b, eqb a b = true <-> a = b.

Lemma eqb_same (k : K) : eqb k k = true.
Proof. now apply eqb_eq. Qed.

Lemma eqb_differ (a b : K) : eqb a b = false <-> a <> b.
Proof.
  split.
  - intros H E. apply eqb_eq in E. congruence.
  - intros H. destruct (eqb a b) eqn:E; [|reflexivity].
    apply eqb_eq in E. contradiction.
Qed.

Lemma bump_keys (t : K) (g : list (K * Z)) (k : K) :
  In k (map fst (bump eqb t g)) -> k = t \/ In k (map fst g).
Proof.
  induction g as [|[s c] r IH]; simpl.
  - intros [E|[]]. now left.
  - destruct (eqb s t); simpl; intros [E|H]; auto.
    destruct (IH H); auto.
Qed.

Lemma bump_NoDup (t : K) (g : list (K * Z)) :
  List.NoDup (map fst g) -> List.NoDup (map fst (bump eqb t g)).
Proof.
  induction g as [|[s c] r IH]; simpl; intros H.
  - apply List.NoDup_cons; [simpl; tauto|apply List.NoDup_nil].
  - inversion H as [|x l Hx Hl]; subst.
    destruct (eqb s t) eqn:E; simpl; apply List.NoDup_cons; auto.
    intros Hin. apply bump_keys in Hin as [->|Hin]; [|contradiction].
    rewrite eqb_same in E. discriminate.
Qed.

Lemma group_count_NoDup (keys : list K) :
  List.NoDup (map fst (group_count eqb keys)).
Proof.
  unfold group_count.
  assert (forall g, List.NoDup (map fst g) ->
            List.NoDup (map fst (fold_left (fun groups key => bump eqb key groups)
                              keys g))) as H.
  { induction keys as [|k l IH]; intros g Hg; simpl; [exact Hg|].
    apply IH. now apply bump_NoDup. }
  apply H. apply List.NoDup_nil.
Qed.

Lemma tally_bump (s t : K) (g : list (K * Z)) :
  tally eqb s (bump eqb t g)
  = (tally eqb s g + if eqb t s then 1 else 0)%Z.
Proof.
  induction g as [|[k c] r IH]; simpl.
  - destruct (eqb t s); lia.
  - destruct (eqb k t) eqn:E; simpl.
    + apply eqb_eq in E. subst k. destruct (eqb t s); lia.
    + rewrite IH. destruct (eqb k s); lia.
Qed.

Lemma tally_group (s : K) (keys : list K) :
  tally eqb s (group_count eqb keys)
  = Z.of_nat (length (List.filter (fun k => eqb k s) keys)).
Proof.
  unfold group_count.
  assert (forall g,
            tally eqb s (fold_left (fun groups key => bump eqb key groups) keys g)
            = (tally eqb s g
               + Z.of_nat (length (List.filter (fun k => eqb k s) keys)))%Z) as H.
  { induction keys as [|k l IH]; intros g; simpl; [lia|].
    rewrite IH, tally_bump. destruct (eqb k s); simpl; lia. }
  rewrite H. simpl. lia.
Qed.

Lemma total_bump (t : K) (g : list (K * Z)) :
  total_count (bump eqb t g) = (total_count g + 1)%Z.
Proof.
  induction g as [|[k c] r IH]; simpl; [lia|].
  destruct (eqb k t); simpl; [lia|]. rewrite IH. lia.
Qed.

Lemma total_group (keys : list K) :
  total_count (group_count eqb keys) = Z.of_nat (length keys).
Proof.
  unfold group_count.
  assert (forall g,
            total_count (fold_left (fun groups key => bump eqb key groups) keys g)
            = (total_count g + Z.of_nat (length keys))%Z) as H.
  { induction keys as [|k l IH]; intros g; simpl length; simpl fold_left; [lia|].
    rewrite IH, total_bump. lia. }
  rewrite H. simpl. lia.
Qed.

Lemma tally_absent (s : K) (g : list (K * Z)) :
  ~ In s (map fst g) -> tally eqb s g = 0%Z.
Proof.
  induction g as [|[k c] r IH]; simpl; intros H; [reflexivity|].
  rewrite IH by tauto.
  assert (eqb k s = false) as -> by (apply eqb_differ; tauto). lia.
Qed.

Lemma tally_Permutation (s : K) (g g' : list (K * Z)) :
  Permutation g g' -> tally eqb s g = tally eqb s g'.
Proof.
  induction 1 as [|[k c] l l' _ IH|[k c] [k' c'] l|l l' l'' _ IH1 _ IH2];
    simpl; try lia; try congruence.
Qed.

(** With one group per key, a variable assigned at the groups of one key
    ends as the count of that key, or as it started when there is no such
    group. *)
Lemma assigned_tally (p : K -> bool) (s : K) (g : list (K * Z)) :
  (forall k, p k = true <-> k = s) ->
  List.NoDup (map fst g) ->
  forall start,
    assigned p g start
    = if existsb (fun r => p (fst r)) g then tally eqb s g else start.
Proof.
  intros Hp. unfold assigned.
  induction g as [|[k c] r IH]; simpl; intros Hnd start; [reflexivity|].
  inversion Hnd as [|x l Hx Hl]; subst. rewrite (IH Hl).
  destruct (p k) eqn:E; simpl.
  - apply Hp in E. subst k. rewrite eqb_same.
    rewrite (tally_absent s r Hx).
    destruct (existsb _ r) eqn:Ex; [|lia].
    apply existsb_exists in Ex as [[k' c'] [Hin Hk]]. simpl in Hk.
    apply Hp in Hk. subst k'. exfalso. apply Hx.
    apply (in_map fst) in Hin. exact Hin.
  - assert (eqb k s = false) as ->.
    { apply eqb_differ. intros ->. rewrite (proj2 (Hp s) eq_refl) in E.
      discriminate. }
    reflexivity.
Qed.

Lemma assigned_count (p : K -> bool) (s : K) (g : list (K * Z)) :
  (forall k, p k = true <-> k = s) ->
  List.NoDup (map fst g) ->
  assigned p g 0 = tally eqb s g.
Proof.
  intros Hp Hnd. rewrite (assigned_tally p s g Hp Hnd).
  destruct (existsb _ g) eqn:Ex; [reflexivity|].
  symmetry. apply tally_absent. intros Hin.
  apply in_map_iff in Hin as [[k c] [Hk Hin]]. simpl in Hk. subst k.
  assert (existsb (fun r => p (fst r)) g = true) as Ht.
  { apply existsb_exists. exists (s, c). split; [exact Hin|]. now apply Hp. }
  congruence.
Qed.

End GroupingFacts.

Lemma total_Permutation {K : Type} (g g' : list (K * Z)) :
  Permutation g g' -> total_count g = total_count g'.
Proof.
  induction 1 as [|[k c] l l' _ IH|[k c] [k' c'] l|l l' l'' _ IH1 _ IH2];
    simpl; try lia; try congruence.
Qed.

Lemma value_eqb_eq (a b : value) : value_eqb a b = true <-> a = b.
Proof.
  destruct a, b; simpl; split; try discriminate; try reflexivity; intros H.
  - apply str_eqb_eq in H. now subst.
  - injection H as ->. apply str_eqb_refl.
  - apply Z.eqb_eq in H. now subst.
  - injection H as ->. apply Z.eqb_refl.
  - apply Nat.eqb_eq in H. now subst.
  - injection H as ->. apply Nat.eqb_refl.
Qed.

Lemma value_is_eq (v : value) (s : str) : value_is v s = true <-> v = VStr s.
Proof.
  destruct v; simpl; split; try discriminate.
  - intros H. apply str_eqb_eq in H. now subst.
  - intros [= ->]. apply str_eqb_refl.
Qed.

(** The fields of the statistics, as variables of the loop. *)
Lemma source_stats_fields (results : list (str * Z)) :
  forall st,
    let r := fold_left source_stats_step results st in
    totalSources r = (totalSources st + total_count results)%Z /\
    completedSources r
    = assigned (fun k => str_eqb k (lit "COMPLETED")) results
        (completedSources st) /\
    failedSources r
    = assigned (fun k => str_eqb k (lit "FAILED")) results (failedSources st) /\
    processingSources r
    = assigned (fun k => str_eqb k (lit "PROCESSING")) results
        (processingSources st).
Proof.
  unfold assigned.
  induction results as [|[s c] l IH]; intros st; simpl.
  - repeat split. lia.
  - destruct (IH (source_stats_step st (s, c))) as (Ht & Hc & Hf & Hp).
    rewrite Ht, Hc, Hf, Hp. clear IH Ht Hc Hf Hp.
    unfold source_stats_step. simpl.
    destruct (str_eqb s (lit "COMPLETED")) eqn:EC.
    { apply str_eqb_eq in EC. subst s. simpl. repeat split. lia. }
    destruct (str_eqb s (lit "FAILED")) eqn:EF.
    { apply str_eqb_eq in EF. subst s. simpl. repeat split. lia. }
    destruct (str_eqb s (lit "PROCESSING")) eqn:EP; simpl; repeat split; lia.
Qed.

Lemma document_stats_fields (results : list (value * Z)) :
  forall st,
    let r := fold_left document_stats_step results st in
    totalDocuments r = totalDocuments st /\
    completedDocuments r
    = assigned (fun k => value_is k (lit "COMPLETED")) results
        (completedDocuments st) /\
    failedDocuments r
    = assigned (fun k => value_is k (lit "FAILED")) results (failedDocuments st).
Proof.
  unfold assigned.
  induction results as [|[s c] l IH]; intros st; simpl.
  - now repeat split.
  - destruct (IH (document_stats_step st (s, c))) as (Ht & Hc & Hf).
    rewrite Ht, Hc, Hf. clear IH Ht Hc Hf.
    unfold document_stats_step. simpl.
    destruct (value_is s (lit "COMPLETED")) eqn:EC.
    { apply value_is_eq in EC. subst s. simpl. now repeat split. }
    destruct (value_is s (lit "FAILED")) eqn:EF; simpl; now repeat split.
Qed.

Lemma filter_three_le {A : Type} (p q r : A -> bool) (l : list A) :
  (forall a, p a = true -> q a = false /\ r a = false) ->
  (forall a, q a = true -> r a = false) ->
  (length (List.filter p l) + length (List.filter q l)
   + length (List.filter r l)
   <= length l)%nat.
Proof.
  intros Hp Hq. induction l as [|a l IH]; simpl; [lia|].
  destruct (p a) eqn:Ep.
  - destruct (Hp a Ep) as [-> ->]. simpl. lia.
  - destruct (q a) eqn:Eq.
    + rewrite (Hq a Eq). simpl. lia.
    + destruct (r a); simpl; lia.
Qed.

(** X17. Whatever order the aggregation answers in, the statistics of
    [get_knowledge_source_stats] are exact: the total is the number of
    sources of the organization, and each of the three buckets is the
    number of its sources in that status. A source in any other status,
    [PENDING] for one, is counted in the total only, so the buckets may
    add up to less than the total. *)
Theorem source_stats_exact (organization_id : str)
    (l : list (oid * KnowledgeSource)) (results : list (str * Z)) :
  Permutation results (aggregate_source_status organization_id l) ->
  let stats := get_knowledge_source_stats results in
  totalSources stats = Z.of_nat (length (sources_of organization_id l)) /\
  completedSources stats = sources_in (lit "COMPLETED") organization_id l /\
  failedSources stats = sources_in (lit "FAILED") organization_id l /\
  processingSources stats = sources_in (lit "PROCESSING") organization_id l /\
  (completedSources stats + failedSources stats + processingSources stats
   <= totalSources stats)%Z.
Proof.
  intros Hperm stats.
  assert (List.NoDup (map fst results)) as Hnd.
  { eapply Stdlib.Sorting.Permutation.Permutation_NoDup;
      [apply Permutation_map, Permutation_sym, Hperm|].
    apply group_count_NoDup. apply str_eqb_eq. }
  destruct (source_stats_fields results
              {| totalSources := 0; completedSources := 0; failedSources := 0;
                 processingSources := 0 |}) as (Ht & Hc & Hf & Hp).
  fold (get_knowledge_source_stats results) in Ht, Hc, Hf, Hp.
  fold stats in Ht, Hc, Hf, Hp. simpl in Ht, Hc, Hf, Hp.
  assert (forall s, assigned (fun k => str_eqb k s) results 0
                    = sources_in s organization_id l) as Hbucket.
  { intros s.
    rewrite (assigned_count str_eqb str_eqb_eq _ s results);
      [|intros k; apply str_eqb_eq|exact Hnd].
    rewrite (tally_Permutation str_eqb s _ _ Hperm).
    unfold aggregate_source_status. rewrite (tally_group str_eqb str_eqb_eq).
    unfold sources_in. f_equal.
    induction (sources_of organization_id l) as [|a r IH]; simpl;
      [reflexivity|].
    destruct (str_eqb (ks_status (snd a)) s); simpl; congruence. }
  rewrite Hbucket in Hc, Hf, Hp.
  assert (totalSources stats = Z.of_nat (length (sources_of organization_id l)))
    as Htotal.
  { rewrite Ht, (total_Permutation _ _ Hperm).
    unfold aggregate_source_status.
    rewrite (total_group str_eqb), length_map. lia. }
  repeat split; try assumption.
  rewrite Hc, Hf, Hp, Htotal. unfold sources_in.
  pose proof (filter_three_le
                (fun entry : oid * KnowledgeSource =>
                   str_eqb (ks_status (snd entry)) (lit "COMPLETED"))
                (fun entry => str_eqb (ks_status (snd entry)) (lit "FAILED"))
                (fun entry => str_eqb (ks_status (snd entry)) (lit "PROCESSING"))
                (sources_of organization_id l)) as Hle.
  cbv beta in Hle.
  assert (forall a b : str, a <> b ->
            forall s, str_eqb s a = true -> str_eqb s b = false) as Hdis.
  { intros a b Hab s Hs. apply str_eqb_eq in Hs. subst s.
    now apply str_eqb_neq. }
  lapply Hle.
  - intros Hle'. lapply Hle'; [lia|].
    intros a. apply Hdis. vm_compute. discriminate.
  - intros a Ha. split; revert Ha; apply Hdis; vm_compute; discriminate.
Qed.

Lemma source_stats_exact_witness :
  let stats :=
    get_knowledge_source_stats
      (rev (aggregate_source_status (lit "acme") sample_sources)) in
  totalSources stats = Z.of_nat (length (sources_of (lit "acme") sample_sources)) /\
  completedSources stats = sources_in (lit "COMPLETED") (lit "acme") sample_sources /\
  failedSources stats = sources_in (lit "FAILED") (lit "acme") sample_sources /\
  processingSources stats = sources_in (lit "PROCESSING") (lit "acme") sample_sources /\
  (completedSources stats + failedSources stats + processingSources stats
   <= totalSources stats)%Z.
Proof.
  apply (source_stats_exact (lit "acme") sample_sources
           (rev (aggregate_source_status (lit "acme") sample_sources))).
  symmetry. apply Permutation_rev.
Defined.

(** X18. [get_document_stats] reports as total what [count_documents]
    answered, untouched by the loop, and, whatever order the aggregation
    answers in, as completed and failed the numbers of documents of the
    organization whose status is the string [COMPLETED] and [FAILED]. *)
Theorem document_stats_exact (organization_id : str)
    (l : list (oid * KnowledgeDocument)) (total_docs : Z)
    (results : list (value * Z)) :
  Permutation results (aggregate_document_status organization_id l) ->
  let stats := get_document_stats total_docs results in
  totalDocuments stats = total_docs /\
  completedDocuments stats = documents_in (lit "COMPLETED") organization_id l /\
  failedDocuments stats = documents_in (lit "FAILED") organization_id l.
Proof.
  intros Hperm stats.
  assert (List.NoDup (map fst results)) as Hnd.
  { eapply Stdlib.Sorting.Permutation.Permutation_NoDup;
      [apply Permutation_map, Permutation_sym, Hperm|].
    apply group_count_NoDup. apply value_eqb_eq. }
  destruct (document_stats_fields results
              {| totalDocuments := total_docs; completedDocuments := 0;
                 failedDocuments := 0 |}) as (Ht & Hc & Hf).
  fold (get_document_stats total_docs results) in Ht, Hc, Hf.
  fold stats in Ht, Hc, Hf. simpl in Ht, Hc, Hf.
  assert (forall s, assigned (fun k => value_is k s) results 0
                    = documents_in s organization_id l) as Hbucket.
  { intros s.
    rewrite (assigned_count value_eqb value_eqb_eq _ (VStr s) results);
      [|intros k; apply value_is_eq|exact Hnd].
    rewrite (tally_Permutation value_eqb (VStr s) _ _ Hperm).
    unfold aggregate_document_status.
    rewrite (tally_group value_eqb value_eqb_eq).
    unfold documents_in. f_equal.
    induction (documents_of organization_id l) as [|a r IH]; simpl;
      [reflexivity|].
    assert (value_eqb (kd_status (snd a)) (VStr s)
            = value_is (kd_status (snd a)) s) as ->
      by (now destruct (kd_status (snd a))).
    destruct (value_is (kd_status (snd a)) s); simpl; congruence. }
  rewrite Hbucket in Hc, Hf. now repeat split.
Qed.

Lemma document_stats_exact_witness :
  let l := knowledge_documents (snd ok_inserted) in
  let stats :=
    get_document_stats 1 (aggregate_document_status (lit "acme") l) in
  totalDocuments stats = 1%Z /\
  completedDocuments stats = documents_in (lit "COMPLETED") (lit "acme") l /\
  failedDocuments stats = documents_in (lit "FAILED") (lit "acme") l.
Proof.
  apply (document_stats_exact (lit "acme")
           (knowledge_documents (snd ok_inserted)) 1
           (aggregate_document_status (lit "acme")
              (knowledge_documents (snd ok_inserted)))).
  reflexivity.
Defined.

(** ** Reading a source back *)

Section ReadBack.

Variable env : Env.

Lemma find_fresh (id : oid) (org : option str) (l : list (oid * KnowledgeSource)) :
  Forall (fun entry : oid * KnowledgeSource => (fst entry < id)%nat) l ->
  find (source_matches id org) l = None.
Proof.
  induction 1 as [|[i s] r Hlt _ IH]; simpl; [reflexivity|].
  unfold source_matches at 1. simpl in *.
  assert (Nat.eqb i id = false) as -> by (apply Nat.eqb_neq; lia).
  simpl. exact IH.
Qed.

Lemma find_app_fresh {A : Type} (p : A -> bool) (l r : list A) :
  find p l = None -> find p (l ++ r) = find p r.
Proof.
  induction l as [|a l IH]; simpl; [reflexivity|].
  destruct (p a); [discriminate|exact IH].
Qed.

(** X19. A source that [create_knowledge_source] has stored is read back
    by [get_knowledge_source] under the returned id and the creating
    organization, with the given name and the status [PENDING]; under
    the same id and any other organization nothing is found. *)
Theorem created_source_read_back (org name : str) (descr : option str)
    (type : str) (config : option (list (str * value))) (w w' : World)
    (sid : oid) :
  ids_fresh w ->
  create_knowledge_source env org name descr type config w = (Ok sid, w') ->
  (exists s,
     get_knowledge_source sid org w' = Some (sid, s) /\
     ks_organizationId s = org /\ ks_name s = name /\
     ks_status s = lit "PENDING") /\
  (forall other, other <> org -> get_knowledge_source sid other w' = None).
Proof.
  intros Hfresh Hrun.
  apply create_knowledge_source_sources in Hrun as (-> & s & Hs & Ho & Hn & Hst).
  unfold get_knowledge_source. rewrite Hs. split.
  - exists s. rewrite find_app_fresh by (now apply find_fresh).
    simpl. unfold source_matches. simpl.
    rewrite Nat.eqb_refl, Ho, str_eqb_refl. simpl. now repeat split.
  - intros other Hother. rewrite find_app_fresh by (now apply find_fresh).
    simpl. unfold source_matches. simpl.
    rewrite Nat.eqb_refl, Ho. simpl.
    assert (str_eqb org other = false) as ->
      by (apply str_eqb_neq; congruence).
    reflexivity.
Qed.

End ReadBack.

Lemma created_source_read_back_witness :
  (exists s,
     get_knowledge_source 0 (lit "acme") (snd ok_created) = Some (0%nat, s) /\
     ks_organizationId s = lit "acme" /\ ks_name s = lit "Batch" /\
     ks_status s = lit "PENDING") /\
  (forall other, other <> lit "acme" ->
     get_knowledge_source 0 other (snd ok_created) = None).
Proof.
  apply (created_source_read_back (sample_env true) (lit "acme") (lit "Batch")
           None (lit "DOCUMENT") None empty_world (snd ok_created) 0).
  - constructor.
  - vm_compute. reflexivity.
Defined.
